(** * hinow: the orchestration loop of the game builder

    A shallow embedding of the tool-call executor
    ([supabase/functions/execute-tool-calls/index.ts]), of the operation
    validation of the orchestrator
    ([supabase/functions/orchestrate-changes/index.ts]) and of the fragment
    assembler (the [GameSandbox] component that validates fragments), with
    the properties of the design document proved over them.

    Where the repository holds two variants of a function, the embedding
    follows the one the design document describes: the executor with the
    lenient path mapping, the check of external references and the rollback,
    and the sandbox that checks fragments ([validateFragment]).

    Modelling conventions.
    - A JavaScript string is a [string]: the bytes of its UTF-8 form.
      All the delimiters the code looks for (newline, quotes, angle
      brackets, braces) are ASCII, so the operations below act on an UTF-8
      text as the source acts on its UTF-16 form. White space is the
      exception: [\s] and [trim] also take characters that are not ASCII,
      and are modelled on their UTF-8 forms.
    - A value that may be [undefined] or [null] is an [option]; a string is
      falsy when it is absent or empty.
    - Line numbers are integers ([Z]).
    - The collaborators (image generation and storage, the summarizer, the
      session store) are fields of an environment record. *)

From Stdlib Require Import Bool Arith Lia ZArith List Ascii String.
From Stdlib Require Import DecimalString.
Import ListNotations.

Local Open Scope string_scope.

(** ** Strings *)

Module Js.

Definition nl : ascii := "010"%char.
Definition dq : ascii := "034"%char.
Definition sq : ascii := "039"%char.

Definition str1 (c : ascii) : string := String c EmptyString.

(** [`${n}`] for an integer. *)
Definition showZ (n : Z) : string := NilEmpty.string_of_int (Z.to_int n).
Definition showNat (n : nat) : string := showZ (Z.of_nat n).

(** [!s] is false exactly on a non-empty string. *)
Definition truthy (o : option string) : bool :=
  match o with
  | Some (String _ _) => true
  | _ => false
  end.

(** [hay.includes(needle)] *)
Fixpoint includes (needle hay : string) : bool :=
  prefix needle hay ||
  match hay with
  | EmptyString => false
  | String _ hay' => includes needle hay'
  end.

(** [s.toLowerCase()] on the ASCII letters. *)
Definition lower (c : ascii) : ascii :=
  let n := nat_of_ascii c in
  if ((65 <=? n) && (n <=? 90))%nat then ascii_of_nat (n + 32) else c.

Fixpoint toLowerCase (s : string) : string :=
  match s with
  | EmptyString => EmptyString
  | String c s' => String (lower c) (toLowerCase s')
  end.

(** [s.split('\n')]: never empty, the empty string gives one empty line. *)
Fixpoint split_nl (s : string) : list string :=
  match s with
  | EmptyString => [EmptyString]
  | String c s' =>
      if Ascii.eqb c nl then EmptyString :: split_nl s'
      else match split_nl s' with
           | l :: ls => String c l :: ls
           | [] => [str1 c]
           end
  end.

(** [ls.join('\n')] *)
Definition join_nl (ls : list string) : string := concat (str1 nl) ls.

(** [ls.splice(i, d, ...items)], as the array it leaves behind. *)
Definition splice {A} (ls : list A) (i d : nat) (items : list A) : list A :=
  firstn i ls ++ items ++ skipn (i + d) ls.

(** A line holds no newline. *)
Fixpoint nl_free (s : string) : bool :=
  match s with
  | EmptyString => true
  | String c s' => negb (Ascii.eqb c nl) && nl_free s'
  end.

(** [arr.join(', ')] and the like. *)
Definition join (sep : string) (ls : list string) : string := concat sep ls.

(** [s.substring(0, n)], which counts UTF-16 units: a character of one to
    three bytes is one unit, one of four bytes is two. [more] bytes of the
    character being copied are still to come. A character of two units
    that the cut would split is left out: half of it is no text in UTF-8. *)
Fixpoint unitsFrom (n more : nat) (s : string) : string :=
  match s with
  | EmptyString => EmptyString
  | String c s' =>
      match more with
      | S m => String c (unitsFrom n m s')
      | O =>
          let b := nat_of_ascii c in
          let bytes := if (b <? 192)%nat then 1
                       else if (b <? 224)%nat then 2
                       else if (b <? 240)%nat then 3 else 4 in
          let count := if (b <? 240)%nat then 1 else 2 in
          if (count <=? n)%nat then String c (unitsFrom (n - count) (bytes - 1) s')
          else EmptyString
      end
  end.

Definition units (n : nat) (s : string) : string := unitsFrom n 0 s.

End Js.

(** ** The line replacement helper of the executor *)

Module Lines.
Import Js.

Record ReplaceResult := mkReplaceResult {
  result : string;
  error : option string
}.

Definition lineCount (code : string) : nat := List.length (split_nl code).

Definition replaceLines (code : string) (start end_ : Z) (newContent filePath : string)
  : ReplaceResult :=
  let lines := split_nl code in
  let totalLines := Z.of_nat (List.length lines) in
  if ((start <? 1) || (end_ <? 1))%Z then
    mkReplaceResult code
      (Some ("Invalid line numbers: start=" ++ showZ start ++ ", end=" ++ showZ end_
             ++ ". Line numbers must be >= 1."))
  else if ((start >? totalLines) || (end_ >? totalLines))%Z then
    mkReplaceResult code
      (Some ("Line numbers out of range: start=" ++ showZ start ++ ", end=" ++ showZ end_
             ++ ", but file only has " ++ showZ totalLines ++ " lines."))
  else if (start >? end_)%Z then
    mkReplaceResult code
      (Some ("Invalid range: start (" ++ showZ start ++ ") is greater than end ("
             ++ showZ end_ ++ ")."))
  else
    let newLines := split_nl newContent in
    let lines' := splice lines (Z.to_nat (start - 1)) (Z.to_nat (end_ - start + 1)) newLines in
    mkReplaceResult (join_nl lines') None.

End Lines.

(** ** Regular expressions

    The fragment of JavaScript regular expressions the source uses, with the
    backtracking semantics of the language: alternatives are tried left to
    right, a starred class takes as many characters as it can and gives them
    back one at a time, [(?!r)] looks ahead without consuming, and group 1
    holds the one character its class matched. White space is the class
    [\s] of the language, on an UTF-8 text; no expression of the source
    matches the empty text. *)

Module Regex.
Import Js.

Inductive re : Type :=
| Eps
| Chr (p : ascii -> bool)
| Seq (a b : re)
| Alt (a b : re)
| Star (p : ascii -> bool)
| NotAhead (a : re)
| Cap (p : ascii -> bool)
| Back
| Space
| Spaces.

Definition Plus (p : ascii -> bool) : re := Seq (Chr p) (Star p).
Definition Opt (a : re) : re := Alt a Eps.

Fixpoint Lit (s : string) : re :=
  match s with
  | EmptyString => Eps
  | String c s' => Seq (Chr (Ascii.eqb c)) (Lit s')
  end.

(** A literal under the [i] flag. *)
Fixpoint LitI (s : string) : re :=
  match s with
  | EmptyString => Eps
  | String c s' => Seq (Chr (fun x => Ascii.eqb (lower c) (lower x))) (LitI s')
  end.

Fixpoint Seqs (rs : list re) : re :=
  match rs with
  | [] => Eps
  | r :: rs' => Seq r (Seqs rs')
  end.

(** Character classes. *)
Definition isAlpha (c : ascii) : bool :=
  let n := nat_of_ascii (lower c) in ((97 <=? n) && (n <=? 122))%nat.
Definition isDigit (c : ascii) : bool :=
  let n := nat_of_ascii c in ((48 <=? n) && (n <=? 57))%nat.
Definition isAlnum (c : ascii) : bool := isAlpha c || isDigit c.

(** White space: the characters [\s] and [trim] take. Those of one byte
    are U+0009 to U+000D and U+0020; of two bytes, U+00A0 ([C2 A0]); of
    three bytes, U+1680 ([E1 9A 80]), U+2000 to U+200A, U+2028, U+2029 and
    U+202F ([E2 80 80] to [E2 80 8A], [E2 80 A8], [E2 80 A9],
    [E2 80 AF]), U+205F ([E2 81 9F]), U+3000 ([E3 80 80]) and U+FEFF
    ([EF BB BF]). *)
Definition isAsciiSpace (c : ascii) : bool :=
  let n := nat_of_ascii c in (((9 <=? n) && (n <=? 13)) || (n =? 32))%nat.

Definition space2 (c1 c2 : ascii) : bool :=
  ((nat_of_ascii c1 =? 194) && (nat_of_ascii c2 =? 160))%nat.

Definition space3 (c1 c2 c3 : ascii) : bool :=
  let b1 := nat_of_ascii c1 in
  let b2 := nat_of_ascii c2 in
  let b3 := nat_of_ascii c3 in
  (((b1 =? 225) && (b2 =? 154) && (b3 =? 128))
   || ((b1 =? 226) && (b2 =? 128)
       && (((128 <=? b3) && (b3 <=? 138)) || (b3 =? 168) || (b3 =? 169) || (b3 =? 175)))
   || ((b1 =? 226) && (b2 =? 129) && (b3 =? 159))
   || ((b1 =? 227) && (b2 =? 128) && (b3 =? 128))
   || ((b1 =? 239) && (b2 =? 187) && (b3 =? 191)))%nat.

(** What follows the white-space character at the head of [s], if there
    is one. *)
Definition spaceAt (s : string) : option string :=
  match s with
  | String c1 s1 =>
      if isAsciiSpace c1 then Some s1
      else
        match s1 with
        | String c2 s2 =>
            if space2 c1 c2 then Some s2
            else
              match s2 with
              | String c3 s3 => if space3 c1 c2 c3 then Some s3 else None
              | EmptyString => None
              end
        | EmptyString => None
        end
  | EmptyString => None
  end.

(** [\s*] followed by [k]: as many white-space characters as can be,
    given back one at a time. *)
Fixpoint spaces (k : string -> option string) (s : string) : option string :=
  match s with
  | String c1 s1 =>
      if isAsciiSpace c1 then
        match spaces k s1 with Some r => Some r | None => k s end
      else
        match s1 with
        | String c2 s2 =>
            if space2 c1 c2 then
              match spaces k s2 with Some r => Some r | None => k s end
            else
              match s2 with
              | String c3 s3 =>
                  if space3 c1 c2 c3 then
                    match spaces k s3 with Some r => Some r | None => k s end
                  else k s
              | EmptyString => k s
              end
        | EmptyString => k s
        end
  | EmptyString => k s
  end.

(** [s.trim()]: the white-space characters at both ends are removed. *)
Fixpoint trimStart (s : string) : string :=
  match s with
  | String c1 s1 =>
      if isAsciiSpace c1 then trimStart s1
      else
        match s1 with
        | String c2 s2 =>
            if space2 c1 c2 then trimStart s2
            else
              match s2 with
              | String c3 s3 => if space3 c1 c2 c3 then trimStart s3 else s
              | EmptyString => s
              end
        | EmptyString => s
        end
  | EmptyString => s
  end.

(** A text that is white space to its end is cut there. *)
Fixpoint trimEnd (s : string) : string :=
  match s with
  | EmptyString => EmptyString
  | String c s' =>
      match trimStart s with
      | EmptyString => EmptyString
      | _ => String c (trimEnd s')
      end
  end.

Definition trim (s : string) : string := trimEnd (trimStart s).

(** A text of letters, digits, spaces, [_] and [-]: in an expression it
    stands for itself. *)
Fixpoint allb (p : ascii -> bool) (s : string) : bool :=
  match s with
  | EmptyString => true
  | String c s' => p c && allb p s'
  end.

Definition isPlain (c : ascii) : bool :=
  isAlnum c || Ascii.eqb c "_"%char || Ascii.eqb c "-"%char || Ascii.eqb c " "%char.
Definition isQuote (c : ascii) : bool := Ascii.eqb c dq || Ascii.eqb c sq.
Definition notQuote (c : ascii) : bool := negb (isQuote c).
Definition notGt (c : ascii) : bool := negb (Ascii.eqb c ">"%char).
Definition anyChar (c : ascii) : bool := true.

Fixpoint star (p : ascii -> bool) (k : string -> option string) (s : string)
  : option string :=
  match s with
  | String c s' =>
      if p c then
        match star p k s' with
        | Some r => Some r
        | None => k s
        end
      else k s
  | EmptyString => k s
  end.

(** [rmatch r cap s k]: match [r] at the head of [s], group 1 holding [cap],
    then go on with [k]; the answer is what is left of [s] after the whole
    match. *)
Fixpoint rmatch (r : re) (cap : option ascii) (s : string)
    (k : option ascii -> string -> option string) : option string :=
  match r with
  | Eps => k cap s
  | Chr p =>
      match s with
      | String c s' => if p c then k cap s' else None
      | EmptyString => None
      end
  | Seq a b => rmatch a cap s (fun cap' s' => rmatch b cap' s' k)
  | Alt a b =>
      match rmatch a cap s k with
      | Some rest => Some rest
      | None => rmatch b cap s k
      end
  | Star p => star p (k cap) s
  | NotAhead a =>
      match rmatch a cap s (fun _ s' => Some s') with
      | Some _ => None
      | None => k cap s
      end
  | Cap p =>
      match s with
      | String c s' => if p c then k (Some c) s' else None
      | EmptyString => None
      end
  | Back =>
      match cap with
      | None => k cap s
      | Some q =>
          match s with
          | String c s' => if Ascii.eqb q c then k cap s' else None
          | EmptyString => None
          end
      end
  | Space =>
      match spaceAt s with
      | Some s' => k cap s'
      | None => None
      end
  | Spaces => spaces (k cap) s
  end.

(** [\s+] *)
Definition SpacePlus : re := Seq Space Spaces.

(** A match at the head of [s]: the rest of [s] after it. *)
Definition matchAt (r : re) (s : string) : option string :=
  rmatch r None s (fun _ rest => Some rest).

(** Length of the match at the head of [s]. *)
Definition matchLen (r : re) (s : string) : option nat :=
  match matchAt r s with
  | Some rest => Some (length s - length rest)
  | None => None
  end.

(** The matches of a [g] regular expression, left to right, none overlapping
    another: [skip] characters of the last match are still to be passed. *)
Fixpoint matchesFrom (r : re) (skip : nat) (s : string) : list string :=
  match s with
  | EmptyString => []
  | String _ s' =>
      match skip with
      | S n => matchesFrom r n s'
      | O =>
          match matchLen r s with
          | Some len => substring 0 len s :: matchesFrom r (len - 1) s'
          | None => matchesFrom r 0 s'
          end
      end
  end.

(** [s.match(r)] for a [g] regular expression ([null] is the empty list). *)
Definition matchAll (r : re) (s : string) : list string := matchesFrom r 0 s.

(** [(s.match(r) || []).length] *)
Definition matchCount (r : re) (s : string) : nat := List.length (matchAll r s).

Fixpoint replaceFrom (r : re) (repl : string) (skip : nat) (s : string) : string :=
  match s with
  | EmptyString => EmptyString
  | String c s' =>
      match skip with
      | S n => replaceFrom r repl n s'
      | O =>
          match matchLen r s with
          | Some len => repl ++ replaceFrom r repl (len - 1) s'
          | None => String c (replaceFrom r repl 0 s')
          end
      end
  end.

(** [s.replace(r, repl)] for a [g] regular expression and a replacement
    text without [$]. *)
Definition replaceAll (r : re) (repl : string) (s : string) : string :=
  replaceFrom r repl 0 s.

(** The first match of an expression without [g]: where it starts and how
    long it is. *)
Fixpoint search (r : re) (pos : nat) (s : string) : option (nat * nat) :=
  match matchLen r s with
  | Some len => Some (pos, len)
  | None =>
      match s with
      | String _ s' => search r (S pos) s'
      | EmptyString => None
      end
  end.

End Regex.

(** ** The session record and the tool calls *)

Module Model.
Import Js.

(** The parameter object of a tool call. *)
Record Params := mkParams {
  file_path : option string;
  content : option string;
  start_line : option Z;
  end_line : option Z;
  name : option string;
  prompt : option string
}.

(** A tool call; the executor accepts the parameter object under four keys. *)
Record ToolCall := mkToolCall {
  tool_name : option string;
  parameters : option Params;
  params : option Params;
  arguments : option Params;
  args : option Params
}.

Record ChatMessage := mkChat {
  role : string;
  text : string
}.

(** A row of [game_sessions], with the columns the two functions write. *)
Record Session := mkSession {
  html_code : option string;
  css_code : option string;
  js_code : option string;
  asset_urls : option (list string);
  chat_history : list ChatMessage;
  status : string
}.

(** What a function answers. *)
Inductive Response : Type :=
| Ok200 (chatResponse : string)
| Error (statusCode : nat) (message : string).

Definition noParams : Params := mkParams None None None None None None.

Definition call (tool : string) (p : Params) : ToolCall :=
  mkToolCall (Some tool) (Some p) None None None.

Definition write_file (path body : string) : ToolCall :=
  call "write_file" (mkParams (Some path) (Some body) None None None None).

Definition replace_lines (path : string) (s e : Z) (body : string) : ToolCall :=
  call "replace_lines" (mkParams (Some path) (Some body) (Some s) (Some e) None None).

Definition generate_image (n p : string) : ToolCall :=
  call "generate_image" (mkParams None None None None (Some n) (Some p)).

End Model.

(** ** The executor: [execute-tool-calls] *)

Module Executor.
Import Js Lines Regex Model.

(** [code.replace(expression, repl)] as a function of [repl] and [code]. *)
Definition Replacer : Type := string -> string -> string.

(** The collaborators. [generateAndStoreImage n name prompt] is the outcome
    of the [n]-th call of the helper: the public URL, or the message of the
    error it throws. [regExp source] is [new RegExp(source, 'g')] of the
    platform: what replacing with the expression does, or the message of
    the SyntaxError the constructor throws. [summarize] is the text of the
    summarizer, when it answers with one. [updateError] is the error of
    the final update of the row, if there is one. *)
Record Env := mkEnv {
  generateAndStoreImage : nat -> string -> string -> string + string;
  regExp : string -> Replacer + string;
  summarize : list string -> option string;
  updateError : option string
}.

(** [validateHTML] *)
Record Validation := mkValidation {
  valid : bool;
  errors : list string
}.

Definition reOpenTag : re :=
  Seqs [Lit "<"; NotAhead (Alt (Lit "/") (Lit "!")); Chr isAlpha; Star isAlnum;
        Star notGt; Lit ">"].
Definition reCloseTag : re :=
  Seqs [Lit "</"; Chr isAlpha; Star isAlnum; Lit ">"].
Definition reSelfClosingTag : re :=
  Seqs [Lit "<"; Chr isAlpha; Star isAlnum; Star notGt; Lit "/>"].

Definition validateHTML (html : string) : Validation :=
  let e1 := if includes "<!DOCTYPE html>" html then [] else ["Missing DOCTYPE declaration"] in
  let e2 := if includes "<html" html then [] else ["Missing <html> tag"] in
  let e3 := if includes "<head>" html then [] else ["Missing <head> tag"] in
  let e4 := if includes "<body>" html then [] else ["Missing <body> tag"] in
  let openTags := Z.of_nat (matchCount reOpenTag html) in
  let closeTags := Z.of_nat (matchCount reCloseTag html) in
  let selfClosingTags := Z.of_nat (matchCount reSelfClosingTag html) in
  let e5 :=
    if (openTags - selfClosingTags =? closeTags)%Z then []
    else ["Possible unclosed tags: " ++ showZ (openTags - selfClosingTags)
          ++ " open tags vs " ++ showZ closeTags ++ " close tags"] in
  let errs := (e1 ++ e2 ++ e3 ++ e4 ++ e5)%list in
  mkValidation (match errs with [] => true | _ => false end) errs.

(** The tag balance alone, the last check of [validateHTML]. *)
Definition tagsBalanced (html : string) : bool :=
  (Z.of_nat (matchCount reOpenTag html) - Z.of_nat (matchCount reSelfClosingTag html)
   =? Z.of_nat (matchCount reCloseTag html))%Z.

(** [mapFilePath] *)
Definition mapFilePath (p : string) : string :=
  match p with
  | EmptyString => p
  | _ =>
      let lp := toLowerCase p in
      if (lp =? "html") || (lp =? "html_code") || (lp =? "index.html") then "html"
      else if (lp =? "css") || (lp =? "css_code") || (lp =? "style.css") then "css"
      else if (lp =? "js") || (lp =? "js_code") || (lp =? "script.js") || (lp =? "game.js")
      then "js"
      else lp
  end.

(** The references to external files a structure write may not hold. *)
Record ExternalRef := mkExternalRef {
  pattern : re;
  type : string
}.

Definition notNetwork : re :=
  NotAhead (Seqs [LitI "http"; Opt (LitI "s"); Lit "://"]).
Definition notNetworkNorData : re :=
  NotAhead (Alt (Seqs [LitI "http"; Opt (LitI "s"); Lit "://"]) (LitI "data:")).

Definition externalRefs : list ExternalRef :=
  [ mkExternalRef
      (Seqs [LitI "<script"; SpacePlus; LitI "src="; Chr isQuote; notNetwork;
             Plus notQuote; LitI ".js"; Chr isQuote])
      "script files";
    mkExternalRef
      (Seqs [LitI "<link"; SpacePlus; Star notGt; LitI "href="; Chr isQuote; notNetwork;
             Plus notQuote; LitI ".css"; Chr isQuote])
      "CSS files";
    mkExternalRef
      (Seqs [LitI "<img"; SpacePlus; Star notGt; LitI "src="; Chr isQuote;
             notNetworkNorData; Plus notQuote; Lit ".";
             Alt (LitI "png") (Alt (LitI "jpg") (Alt (LitI "jpeg") (Alt (LitI "gif") (LitI "svg"))));
             Chr isQuote])
      "image files" ].

(** The message thrown for the first kind of reference that [body] holds. *)
Fixpoint findExternalRef (refs : list ExternalRef) (body : string) : option string :=
  match refs with
  | [] => None
  | ref :: refs' =>
      match matchAll (pattern ref) body with
      | m :: _ =>
          Some ("HTML contains references to external " ++ type ref ++ " (e.g., " ++ m
                ++ "). All code must be inline. Use <style> tags for CSS, inline <script> tags for JS, and data URLs or generate_image for images.")
      | [] => findExternalRef refs' body
      end
  end.

(** The local variables of the handler. *)
Record Work := mkWork {
  html : option string;
  css : option string;
  js : option string;
  assets : option (list string);
  imageUrlMap : list (string * string);
  actionsSummary : list string
}.

Definition push (w : Work) (line : string) : Work :=
  mkWork (html w) (css w) (js w) (assets w) (imageUrlMap w) (actionsSummary w ++ [line]).
Definition set_html (w : Work) (v : option string) : Work :=
  mkWork v (css w) (js w) (assets w) (imageUrlMap w) (actionsSummary w).
Definition set_css (w : Work) (v : option string) : Work :=
  mkWork (html w) v (js w) (assets w) (imageUrlMap w) (actionsSummary w).
Definition set_js (w : Work) (v : option string) : Work :=
  mkWork (html w) (css w) v (assets w) (imageUrlMap w) (actionsSummary w).

(** [imageUrlMap.set(name, url)]: a key keeps the place of its first entry. *)
Fixpoint mapSet (m : list (string * string)) (k v : string) : list (string * string) :=
  match m with
  | [] => [(k, v)]
  | (k', v') :: m' => if k' =? k then (k, v) :: m' else (k', v') :: mapSet m' k v
  end.

(** [if (!asset_urls) asset_urls = []; if (!asset_urls.includes(url)) asset_urls.push(url)] *)
Definition addAsset (a : option (list string)) (url : string) : option (list string) :=
  let l := match a with Some l => l | None => [] end in
  if existsb (String.eqb url) l then Some l else Some (l ++ [url])%list.

Definition recordImage (w : Work) (n url : string) : Work :=
  mkWork (html w) (css w) (js w) (addAsset (assets w) url)
         (mapSet (imageUrlMap w) n url) (actionsSummary w).

Definition resolveParams (tc : ToolCall) : option Params :=
  match parameters tc with
  | Some p => Some p
  | None =>
      match params tc with
      | Some p => Some p
      | None =>
          match arguments tc with
          | Some p => Some p
          | None => args tc
          end
      end
  end.

Definition field {A} (f : Params -> option A) (tc : ToolCall) : option A :=
  match resolveParams tc with
  | Some p => f p
  | None => None
  end.

(** [toolCall.tool_name === t] *)
Definition isTool (t : string) (tc : ToolCall) : bool :=
  match tool_name tc with
  | Some t' => t' =? t
  | None => false
  end.

Definition isImageCall (tc : ToolCall) : bool := isTool "generate_image" tc.

Definition str (o : option string) : string :=
  match o with Some s => s | None => "undefined" end.

(** STAGE 1: the image generation calls, [n] counting the calls of the
    helper made so far. *)
Fixpoint stage1 (env : Env) (calls : list ToolCall) (n : nat) (w : Work) : Work :=
  match calls with
  | [] => w
  | tc :: rest =>
      if negb (truthy (field name tc)) || negb (truthy (field prompt tc)) then
        stage1 env rest n (push w "Skipped an image generation call due to missing parameters")
      else
        let nm := str (field name tc) in
        match generateAndStoreImage env n nm (str (field prompt tc)) with
        | inl publicUrl =>
            stage1 env rest (S n)
              (push (recordImage w nm publicUrl)
                    ("Generated image '" ++ nm ++ "' at " ++ publicUrl))
        | inr message =>
            stage1 env rest (S n)
              (push w ("Failed to generate image '" ++ nm ++ "': " ++ message))
        end
  end.

(** STAGE 2: the placeholders of the generated images. The name is put
    into the source of three expressions as it is, and the URL into the
    replacement texts.

    A name of letters, digits, spaces, [_] and [-] stands for itself in an
    expression, and a replacement text without [$] stands for itself: for
    them the expressions and the replacements are the ones below. For
    another name or URL the sources are given to [regExp], which may throw. *)
Definition namePatterns (nm : string) : list re :=
  [ Seqs [Lit "{{"; Lit nm; Lit "}}"];
    Seqs [Cap isQuote; Lit nm; Lit ".png"; Back];
    Seqs [Cap isQuote; Lit nm; Back] ].

Definition patternSources (nm : string) : list string :=
  [ "\{\{" ++ nm ++ "\}\}";
    "(['" ++ str1 dq ++ "])" ++ nm ++ "\.png\1";
    "(['" ++ str1 dq ++ "])" ++ nm ++ "\1" ].

Definition literal (nm url : string) : bool :=
  allb isPlain nm && allb (fun c => negb (Ascii.eqb c "$"%char)) url.

(** [if (code) code = code.replace(pattern, repl)] *)
Definition replaceIn (pat : re) (repl : string) (code : option string) : option string :=
  match code with
  | Some (String _ _ as c) => Some (replaceAll pat repl c)
  | _ => code
  end.

Definition replaceWith (r : Replacer) (repl : string) (code : option string)
  : option string :=
  match code with
  | Some (String _ _ as c) => Some (r repl c)
  | _ => code
  end.

Definition substPattern (url : string) (w : Work) (pat : re) : Work :=
  mkWork (replaceIn pat ("'" ++ url ++ "'") (html w))
         (replaceIn pat ("url('" ++ url ++ "')") (css w))
         (replaceIn pat ("'" ++ url ++ "'") (js w))
         (assets w) (imageUrlMap w) (actionsSummary w).

Definition substReplacer (url : string) (w : Work) (r : Replacer) : Work :=
  mkWork (replaceWith r ("'" ++ url ++ "'") (html w))
         (replaceWith r ("url('" ++ url ++ "')") (css w))
         (replaceWith r ("'" ++ url ++ "'") (js w))
         (assets w) (imageUrlMap w) (actionsSummary w).

(** The array of the three expressions: the first constructor that throws
    ends the request. *)
Fixpoint compileAll (env : Env) (sources : list string) : list Replacer + string :=
  match sources with
  | [] => inl []
  | source :: rest =>
      match regExp env source with
      | inr message => inr message
      | inl r =>
          match compileAll env rest with
          | inr message => inr message
          | inl rs => inl (r :: rs)
          end
      end
  end.

(** The three replacements of a name that stands for itself. *)
Definition substLiteral (w : Work) (entry : string * string) : Work :=
  fold_left (substPattern (snd entry)) (namePatterns (fst entry)) w.

Definition substImage (env : Env) (w : Work) (entry : string * string) : Work + string :=
  if literal (fst entry) (snd entry) then inl (substLiteral w entry)
  else
    match compileAll env (patternSources (fst entry)) with
    | inr message => inr message
    | inl rs => inl (fold_left (substReplacer (snd entry)) rs w)
    end.

Fixpoint substAll (env : Env) (entries : list (string * string)) (w : Work)
  : Work + string :=
  match entries with
  | [] => inl w
  | entry :: rest =>
      match substImage env w entry with
      | inr message => inr message
      | inl w' => substAll env rest w'
      end
  end.

Definition stage2 (env : Env) (w : Work) : Work + string :=
  match imageUrlMap w with
  | [] => inl w
  | _ :: _ =>
      match substAll env (imageUrlMap w) w with
      | inr message => inr message
      | inl w' =>
          inl (push w' ("Replaced " ++ showNat (List.length (imageUrlMap w))
                        ++ " image placeholders in code with generated URLs."))
      end
  end.

(** STAGE 3: the code modification calls. A handler either goes on to the
    next call with new values of the variables, or throws. *)
Definition assign (fp : string) (body : string) (w : Work) : Work :=
  let w1 := if fp =? "html" then set_html w (Some body) else w in
  let w2 := if fp =? "css" then set_css w1 (Some body) else w1 in
  if fp =? "js" then set_js w2 (Some body) else w2.

Definition writeFile (tc : ToolCall) (w : Work) : Work + string :=
  if negb (truthy (field file_path tc)) || negb (truthy (field content tc)) then
    inl (push w "Skipped write_file: missing file_path or content")
  else
    let body := str (field content tc) in
    let fp := mapFilePath (str (field file_path tc)) in
    match (if fp =? "html" then findExternalRef externalRefs body else None) with
    | Some errorMsg => inr errorMsg
    | None => inl (push (assign fp body w) ("Wrote content to " ++ fp ++ "."))
    end.

(** Inside the [replace_lines] handler a block either ends the handling of
    the call ([continue]) or falls through to the next statement. *)
Inductive Flow : Type :=
| Continue (w : Work)
| Fall (w : Work).

Definition replaceError (fp err : string) : string :=
  "ERROR replacing lines in " ++ fp ++ ": " ++ err.

Definition htmlBlock (backup_html : option string) (fp : string) (s e : Z) (body : string)
    (w : Work) : Flow :=
  match fp =? "html", html w with
  | true, Some (String _ _ as code) =>
      let r := replaceLines code s e body fp in
      match error r with
      | Some err => Continue (push w (replaceError fp err))
      | None =>
          let w1 := set_html w (Some (result r)) in
          let validation := validateHTML (result r) in
          if valid validation then Fall w1
          else
            Continue
              (push
                 (set_html
                    (push w1 ("WARNING: HTML validation failed after line replacement: "
                              ++ join ", " (errors validation)))
                    backup_html)
                 "Rolled back HTML to previous version due to validation failure")
      end
  | _, _ => Fall w
  end.

Definition cssBlock (fp : string) (s e : Z) (body : string) (w : Work) : Flow :=
  match fp =? "css", css w with
  | true, Some (String _ _ as code) =>
      let r := replaceLines code s e body fp in
      match error r with
      | Some err => Continue (push w (replaceError fp err))
      | None => Fall (set_css w (Some (result r)))
      end
  | _, _ => Fall w
  end.

Definition jsBlock (fp : string) (s e : Z) (body : string) (w : Work) : Flow :=
  match fp =? "js", js w with
  | true, Some (String _ _ as code) =>
      let r := replaceLines code s e body fp in
      match error r with
      | Some err => Continue (push w (replaceError fp err))
      | None => Fall (set_js w (Some (result r)))
      end
  | _, _ => Fall w
  end.

Definition replaceLinesCall (backup_html : option string) (tc : ToolCall) (w : Work) : Work :=
  match truthy (field file_path tc), field start_line tc, field end_line tc,
        field content tc with
  | true, Some s, Some e, Some body =>
      let fp := mapFilePath (str (field file_path tc)) in
      match htmlBlock backup_html fp s e body w with
      | Continue w' => w'
      | Fall w1 =>
          match cssBlock fp s e body w1 with
          | Continue w' => w'
          | Fall w2 =>
              match jsBlock fp s e body w2 with
              | Continue w' => w'
              | Fall w3 =>
                  push w3 ("Replaced lines " ++ showZ s ++ "-" ++ showZ e ++ " in " ++ fp ++ ".")
              end
          end
      end
  | _, _, _, _ => push w "Skipped replace_lines: missing required parameters"
  end.

Definition codeCall (backup_html : option string) (tc : ToolCall) (w : Work) : Work + string :=
  if isTool "write_file" tc then writeFile tc w
  else if isTool "replace_lines" tc then inl (replaceLinesCall backup_html tc w)
  else inl (push w ("Skipped unknown tool: " ++ str (tool_name tc))).

Fixpoint stage3 (backup_html : option string) (calls : list ToolCall) (w : Work)
  : Work + string :=
  match calls with
  | [] => inl w
  | tc :: rest =>
      match codeCall backup_html tc w with
      | inl w' => stage3 backup_html rest w'
      | inr message => inr message
      end
  end.

Definition defaultChatResponse : string :=
  "I've updated your game with the requested changes.".

Definition chatResponseOf (env : Env) (w : Work) : string :=
  match summarize env (actionsSummary w) with
  | Some (String _ _ as answer) => answer
  | _ => defaultChatResponse
  end.

Definition startWork (session : Session) : Work :=
  mkWork (html_code session) (css_code session) (js_code session) (asset_urls session) [] [].

(** The variables of the handler when the code stage is over, or the message
    of the error thrown on the way. *)
Definition runStages (env : Env) (session : Session) (toolCalls : list ToolCall)
  : Work + string :=
  let backup_html := html_code session in
  let w1 := stage1 env (filter isImageCall toolCalls) 0 (startWork session) in
  match stage2 env w1 with
  | inr message => inr message
  | inl w2 => stage3 backup_html (filter (fun c => negb (isImageCall c)) toolCalls) w2
  end.

(** The handler: the row of the session after the request, and the answer. *)
Definition execute (env : Env) (session : Session) (toolCalls : list ToolCall)
  : Session * Response :=
  match runStages env session toolCalls with
  | inr message => (session, Error 500 message)
  | inl w =>
      let assistantChatResponse := chatResponseOf env w in
      match updateError env with
      | Some message => (session, Error 500 message)
      | None =>
          (mkSession (html w) (css w) (js w) (assets w)
                     (chat_history session ++ [mkChat "assistant" assistantChatResponse])
                     "coding_complete",
           Ok200 assistantChatResponse)
      end
  end.

(** The fragment a mapped path names. *)
Definition fragment (fp : string) (w : Work) : option string :=
  if fp =? "html" then html w
  else if fp =? "css" then css w
  else if fp =? "js" then js w
  else None.

(** The paths [mapFilePath] maps to one of the three fragments. *)
Definition validTarget (path : string) : bool :=
  let fp := mapFilePath path in (fp =? "html") || (fp =? "css") || (fp =? "js").

(** A write to the structure fragment whose content holds a reference that
    one of [externalRefs] matches. *)
Definition writesExternalRef (tc : ToolCall) : bool :=
  isTool "write_file" tc
  && truthy (field file_path tc) && truthy (field content tc)
  && (mapFilePath (str (field file_path tc)) =? "html")
  && match findExternalRef externalRefs (str (field content tc)) with
     | Some _ => true
     | None => false
     end.

(** The messages of the errors thrown for external references. *)
Definition externalRefMessage (message : string) : Prop :=
  prefix "HTML contains references to external " message = true.

(** The four wrappers [validateHTML] asks for. *)
Definition hasAllWrappers (html : string) : bool :=
  includes "<!DOCTYPE html>" html && includes "<html" html
  && includes "<head>" html && includes "<body>" html.

(** The range test of [replaceLines], for [lineCount] lines. *)
Definition outOfRange (lineCount s e : Z) : bool :=
  ((s <? 1) || (e >? lineCount) || (s >? e))%Z.

End Executor.

(** ** The orchestrator: validation of the operations of the model *)

Module Orchestrator.
Import Js Model.

(** The parsed answer of the model. *)
Record Plan := mkPlan {
  thought : option string;
  plan : option (list string);
  operations : list ToolCall
}.

(** [normalizeFilePath] *)
Definition normalizeFilePath (path : string) : string :=
  match path with
  | EmptyString => path
  | _ =>
      let lp := toLowerCase path in
      if (lp =? "html") || (lp =? "html_code") || (lp =? "index.html") then "html_code"
      else if (lp =? "css") || (lp =? "css_code") || (lp =? "style.css") || (lp =? "styles.css")
      then "css_code"
      else if (lp =? "js") || (lp =? "js_code") || (lp =? "script.js") || (lp =? "game.js")
              || (lp =? "main.js")
      then "js_code"
      else lp
  end.

Definition validPaths : list string := ["html_code"; "css_code"; "js_code"].

Definition isCodeTool (t : option string) : bool :=
  match t with
  | Some t' => (t' =? "write_file") || (t' =? "replace_lines")
  | None => false
  end.

Definition setPath (op : ToolCall) (p : Params) (path : string) : ToolCall :=
  mkToolCall (tool_name op)
    (Some (mkParams (Some path) (content p) (start_line p) (end_line p) (name p) (prompt p)))
    (params op) (arguments op) (args op).

(** The loop over the operations, from index [i] on: the operations with
    their paths normalized, or the message of the error thrown. *)
Fixpoint validateOperations (i : nat) (ops : list ToolCall) : list ToolCall + string :=
  match ops with
  | [] => inl []
  | op :: rest =>
      match truthy (tool_name op), parameters op with
      | true, Some p =>
          if isCodeTool (tool_name op) && truthy (file_path p) then
            let given := match file_path p with Some f => f | None => EmptyString end in
            let normalized := normalizeFilePath given in
            if existsb (String.eqb normalized) validPaths then
              match validateOperations (S i) rest with
              | inl rest' => inl (setPath op p normalized :: rest')
              | inr message => inr message
              end
            else
              inr ("Invalid file_path " ++ str1 dq ++ given ++ str1 dq
                   ++ ". Only html_code, css_code, and js_code are allowed. "
                   ++ "Do not create external files like game.js or style.css - all code must be inline.")
          else
            match validateOperations (S i) rest with
            | inl rest' => inl (op :: rest')
            | inr message => inr message
            end
      | _, _ =>
          inr ("Operation " ++ showNat i ++ " is missing " ++ str1 dq ++ "tool_name" ++ str1 dq
               ++ " or " ++ str1 dq ++ "parameters" ++ str1 dq ++ " field")
      end
  end.

(** [s.split('.')[0]] *)
Fixpoint beforeDot (s : string) : string :=
  match s with
  | EmptyString => EmptyString
  | String c s' => if Ascii.eqb c "."%char then EmptyString else String c (beforeDot s')
  end.

Definition chatResponseOf (ai : Plan) : string :=
  "Working on it! "
  ++ (match thought ai with
      | Some (String _ _ as t) => beforeDot t ++ ". "
      | _ => EmptyString
      end)
  ++ (match plan ai with
      | Some ((_ :: _) as steps) =>
          "Making these changes: " ++ join ", " (firstn 2 steps) ++ "."
      | _ => EmptyString
      end).

(** The answer of the [catch] block for an error with this message. *)
Definition errorResponse (message : string) : Response :=
  if includes "429" message || includes "rate limit" message then
    Error 429 "Rate limit exceeded. Please wait a moment and try again."
  else if includes "parse" message || includes "JSON" message then
    Error 400 "Failed to parse AI response. The AI returned invalid JSON."
  else if includes "operations" message then
    Error 400 "AI response missing required operations array."
  else Error 500 message.

Inductive Outcome : Type :=
| Planned (toolCalls : list ToolCall) (chatResponse : string)
| Failed (response : Response).

(** The handler from the parsed answer on: the row of the session after the
    request, and the outcome. The handler does not look at the result of
    its update: [stored] tells whether the update succeeded; when it did
    not, the row is as it was and the answer is the same. *)
Definition orchestrate (stored : bool) (session : Session) (userPrompt : string) (ai : Plan)
  : Session * Outcome :=
  let updatedChatHistory := (chat_history session ++ [mkChat "user" userPrompt])%list in
  match validateOperations 0 (operations ai) with
  | inr message => (session, Failed (errorResponse message))
  | inl toolCalls =>
      let chatResponse := chatResponseOf ai in
      ((if stored then
          mkSession (html_code session) (css_code session) (js_code session)
                    (asset_urls session)
                    (updatedChatHistory ++ [mkChat "assistant" chatResponse])
                    "orchestrating"
        else session),
       Planned toolCalls chatResponse)
  end.

(** A WriteFragment with a target that is not mapped to one of the three
    valid paths. *)
Definition unmappableWrite (tc : ToolCall) : bool :=
  match tool_name tc, parameters tc with
  | Some t, Some p =>
      (t =? "write_file") && truthy (file_path p)
      && negb (existsb (String.eqb (normalizeFilePath
                                      (match file_path p with
                                       | Some f => f
                                       | None => EmptyString
                                       end)))
                       validPaths)
  | _, _ => false
  end.

End Orchestrator.

(** ** One cycle, as the page runs it: [handleSendMessage] *)

Module Cycle.
Import Model.

(** The orchestrator first; the executor only when the orchestrator did
    not fail, on the tool calls it returned and on the row as the
    orchestrator left it ([stored]: whether its update succeeded). *)
Definition runOrchestrationCycle (stored : bool) (env : Executor.Env) (session : Session)
    (userPrompt : string) (ai : Orchestrator.Plan) : Session * Response :=
  match Orchestrator.orchestrate stored session userPrompt ai with
  | (session', Orchestrator.Failed response) => (session', response)
  | (session', Orchestrator.Planned toolCalls _) => Executor.execute env session' toolCalls
  end.

End Cycle.

(** ** Placeholders in a fragment

    A fragment seen as texts with placeholders of one image between them,
    to state what the substitution stage does to it. *)

Module Placeholder.
Import Js Regex.

Inductive Quote : Type := Single | Double.

(** The literal forms under which a fragment names an image. *)
Inductive Form : Type :=
| Curly
| QuotedPng (q : Quote)
| Quoted (q : Quote).

Definition quoteChar (q : Quote) : ascii :=
  match q with Single => sq | Double => dq end.

Definition formText (nm : string) (f : Form) : string :=
  match f with
  | Curly => "{{" ++ nm ++ "}}"
  | QuotedPng q => String (quoteChar q) (nm ++ ".png" ++ str1 (quoteChar q))
  | Quoted q => String (quoteChar q) (nm ++ str1 (quoteChar q))
  end.

(** A fragment: texts, each followed by a placeholder, and a last text. *)
Definition Chunks : Type := list (string * Form) * string.

Fixpoint renderFrom (tok : Form -> string) (cs : list (string * Form)) (last : string)
  : string :=
  match cs with
  | [] => last
  | (t, f) :: cs' => t ++ tok f ++ renderFrom tok cs' last
  end.

Definition render (tok : Form -> string) (c : Chunks) : string :=
  renderFrom tok (fst c) (snd c).

(** What the executor writes for a placeholder. *)
Definition quotedUrl (url : string) : string := "'" ++ url ++ "'".
Definition cssUrl (url : string) : string := "url('" ++ url ++ "')".

Definition plainName (nm : string) : bool :=
  match nm with
  | EmptyString => false
  | _ => allb isPlain nm
  end.

(** A public URL: no quote and no [$] in it, and it is not the bare name. *)
Definition urlOk (nm url : string) : bool :=
  allb notQuote url
  && allb (fun c => negb (Ascii.eqb c "$"%char)) url
  && negb (url =? nm) && negb (url =? nm ++ ".png").

(** A text between placeholders: it does not start with the name, and the
    name does not follow a quote or two braces in it. *)
Definition inert (nm t : string) : bool :=
  negb (prefix nm t)
  && negb (includes ("{{" ++ nm) t)
  && negb (includes (String sq nm) t)
  && negb (includes (String dq nm) t).

Definition inertAll (nm : string) (c : Chunks) : bool :=
  forallb (fun tf => inert nm (fst tf)) (fst c) && inert nm (snd c).

(** The same for a fragment that may be [NULL]. *)
Definition inertAny (nm : string) (o : option Chunks) : bool :=
  match o with
  | Some c => inertAll nm c
  | None => true
  end.

(** [strip w s]: what follows [w] at the head of [s]. *)
Fixpoint strip (w s : string) : option string :=
  match w with
  | EmptyString => Some s
  | String c w' =>
      match s with
      | String d s' => if Ascii.eqb c d then strip w' s' else None
      | EmptyString => None
      end
  end.

(** The characters that may follow the name inside a placeholder. *)
Definition isEnd (c : ascii) : bool :=
  Ascii.eqb c "}"%char || Ascii.eqb c "."%char || isQuote c.

(** What follows a text is guarded when the name cannot run from the text
    into it: it does not start with a brace and a character of a name, nor
    with characters of a name and then a character that ends a name. *)
Definition guarded (rest : string) : Prop :=
  (forall c r, rest = String "{"%char (String c r) -> isPlain c = false) /\
  (forall m c r,
     m <> EmptyString -> allb isPlain m = true -> rest = m ++ String c r ->
     isEnd c = false).

(** The expression of the braces form, and that of a quoted form with the
    ending [ending]. *)
Definition curlyRe (nm : string) : re := Seqs [Lit "{{"; Lit nm; Lit "}}"].
Definition quotedRe (nm ending : string) : re :=
  Seqs [Cap isQuote; Lit nm; Lit ending; Back].

(** The placeholders after the first and after the second expression:
    the braces form is written first, the quoted form with [.png] second. *)
Definition afterCurly (nm repl : string) (f : Form) : string :=
  match f with
  | Curly => repl
  | _ => formText nm f
  end.

Definition afterPng (nm repl : string) (f : Form) : string :=
  match f with
  | Quoted _ => formText nm f
  | _ => repl
  end.

(** The endings of the quoted forms. *)
Definition isEnding (ending : string) : Prop :=
  ending = EmptyString \/ ending = ".png".

End Placeholder.

(** ** Sample collaborators and sessions *)

Module Sample.
Import Js Model Executor.

(** Every image is generated and stored under [https://x/]; the sources
    given to [regExp] are refused (the samples that reach it use names
    like [ship(]); the summarizer gives no text; the update of the row
    succeeds. *)
Definition env : Env :=
  mkEnv (fun _ n _ => inl ("https://x/" ++ n ++ ".png"))
        (fun source => inr ("Invalid regular expression: /" ++ source ++ "/"))
        (fun _ => None) None.

Definition session (h c j : option string) : Session :=
  mkSession h c j None [mkChat "user" "make a game"] "orchestrating".

Definition balancedFragment : string :=
  "<div id='game'>" ++ str1 nl ++ "</div>".

End Sample.

(** ** The fragment assembler: [GameSandbox] *)

Module Sandbox.
Import Js Regex.

(** [validateFragment] *)
Definition validateFragment (html : string) : list string :=
  ((if includes "<!DOCTYPE html>" html
    then ["FRAGMENT ERROR: html_code should not contain <!DOCTYPE html>"] else [])
   ++ (if includes "<html" html
       then ["FRAGMENT ERROR: html_code should not contain <html> tag"] else [])
   ++ (if includes "<head>" html
       then ["FRAGMENT ERROR: html_code should not contain <head> tag"] else [])
   ++ (if includes "<body>" html
       then ["FRAGMENT ERROR: html_code should not contain <body> tag"] else []))%list.

(** A fragment holds a wrapper of a full document when one of the four
    texts [validateFragment] looks for occurs in it. *)
Definition hasWrapper (html : string) : bool :=
  includes "<!DOCTYPE html>" html || includes "<html" html
  || includes "<head>" html || includes "<body>" html.

(** The messages about wrappers start with this. *)
Definition isFragmentError (diagnostic : string) : bool :=
  prefix "FRAGMENT ERROR" diagnostic.

(** The assembled document. *)
Definition assembledHtml (htmlCode cssCode jsCode : string) : string :=
  join_nl [
    "<!DOCTYPE html>";
    "<html>";
    "<head>";
    "  <meta charset=" ++ str1 dq ++ "UTF-8" ++ str1 dq ++ ">";
    "  <meta name=" ++ str1 dq ++ "viewport" ++ str1 dq ++ " content=" ++ str1 dq ++ "width=device-width, initial-scale=1.0" ++ str1 dq ++ ">";
    "  <style>";
    "    body { margin: 0; padding: 0; overflow: hidden; }";
    "    " ++ cssCode;
    "  </style>";
    "</head>";
    "<body>";
    "  " ++ htmlCode;
    "  <script>";
    "    // Error capturing - JavaScript Runtime";
    "    window.onerror = function(message, source, lineno, colno, error) {";
    "      window.parent.postMessage({";
    "        type: 'game_error',";
    "        error: 'JS RUNTIME: ' + message + ' at ' + source + ':' + lineno + ':' + colno";
    "      }, '*');";
    "      return true;";
    "    };";
    EmptyString;
    "    window.addEventListener('unhandledrejection', function(event) {";
    "      window.parent.postMessage({";
    "        type: 'game_error',";
    "        error: 'JS PROMISE: Unhandled Promise Rejection: ' + event.reason";
    "      }, '*');";
    "    });";
    EmptyString;
    "    // DOM Validation - Check if expected elements exist";
    "    window.addEventListener('DOMContentLoaded', function() {";
    "      const expectedElements = document.querySelectorAll('[id]');";
    "      if (expectedElements.length === 0) {";
    "        window.parent.postMessage({";
    "          type: 'game_error',";
    "          error: 'DOM VALIDATION: No elements with IDs found - possible HTML corruption'";
    "        }, '*');";
    "      }";
    "      ";
    "      // Check for orphaned script/style tags in body";
    "      const bodyScripts = document.body.querySelectorAll('script');";
    "      const bodyStyles = document.body.querySelectorAll('style');";
    "      if (bodyScripts.length > 1) {";
    "        window.parent.postMessage({";
    "          type: 'game_error',";
    "          error: 'DOM WARNING: Multiple script tags in body detected'";
    "        }, '*');";
    "      }";
    "      if (bodyStyles.length > 0) {";
    "        window.parent.postMessage({";
    "          type: 'game_error',";
    "          error: 'DOM WARNING: Style tags found in body instead of head'";
    "        }, '*');";
    "      }";
    "    });";
    EmptyString;
    "    // Game code";
    "    " ++ jsCode;
    "  </script>";
    "</body>";
    "</html>" ].

Definition reDivOpen : re := Seqs [Lit "<div"; Star notGt; Lit ">"].
Definition reDivClose : re := Lit "</div>".
Definition reBody : re := Seqs [Lit "<body>"; Star anyChar; Lit "</body>"].
Definition reScriptOpen : re := Seqs [Lit "<script"; Star notGt; Lit ">"].

(** Group 1 of the first match of [reBody]: what stands between the first
    opening tag of the body and the last closing one. *)
Definition bodyContent (html : string) : option string :=
  match search reBody 0 html with
  | Some (pos, len) => Some (substring (pos + 6) (len - 13) html)
  | None => None
  end.

(** [validateAssembledHTML] *)
Definition validateAssembledHTML (html : string) : list string :=
  let divOpen := matchCount reDivOpen html in
  let divClose := matchCount reDivClose html in
  let e1 : list string :=
    if (divOpen =? divClose)%nat then []
    else ["ASSEMBLED HTML: Unclosed div tags (" ++ showNat divOpen ++ " open, "
          ++ showNat divClose ++ " close)"] in
  let e2 : list string :=
    match bodyContent html with
    | Some body =>
        if (1 <? matchCount reScriptOpen body)%nat
        then ["ASSEMBLED HTML: Multiple script tags detected in body"] else []
    | None => []
    end in
  (e1 ++ e2)%list.

(** What [onError] receives when the errors [errs] are reported. *)
Definition report (onError : bool) (errs : list string) : list string :=
  if onError then errs else [].

(** [constructedHtml]: the document given to the frame, and the messages
    [onError] received on the way ([onError] tells whether the callback was
    given); the findings of the fragment check come first. *)
Definition constructedHtml (htmlCode cssCode jsCode : string) (onError : bool)
  : string * list string :=
  match htmlCode with
  | EmptyString => (EmptyString, [])
  | _ =>
      let fragmentErrors := validateFragment htmlCode in
      let doc := assembledHtml htmlCode cssCode jsCode in
      let assembledErrors := validateAssembledHTML doc in
      (doc, (report onError fragmentErrors ++ report onError assembledErrors)%list)
  end.

(** The messages of the fragment check among those [onError] received. *)
Definition preValidation (htmlCode : string) (onError : bool) : list string :=
  match htmlCode with
  | EmptyString => []
  | _ => report onError (validateFragment htmlCode)
  end.

End Sandbox.

(** ** References to external files, as a structure write holds them

    The texts the claims speak of, written out independently of the
    expressions of the executor: a tag, white space, for a stylesheet or
    an image any attributes, the attribute that loads the file, and
    between two quotes the name of a local file with an extension of the
    kind. *)

Module Reference.
Import Js Regex.

Inductive Kind : Type := ScriptFile | StyleFile | ImageFile.

Definition tagOf (k : Kind) : string :=
  match k with ScriptFile => "<script" | StyleFile => "<link" | ImageFile => "<img" end.

Definition attributeOf (k : Kind) : string :=
  match k with StyleFile => "href=" | _ => "src=" end.

Definition extensionsOf (k : Kind) : list string :=
  match k with
  | ScriptFile => [".js"]
  | StyleFile => [".css"]
  | ImageFile => [".png"; ".jpg"; ".jpeg"; ".gif"; ".svg"]
  end.

(** [stripI w s]: what follows [w] at the head of [s], letters compared
    without their case. *)
Fixpoint stripI (w s : string) : option string :=
  match w with
  | EmptyString => Some s
  | String c w' =>
      match s with
      | String d s' => if Ascii.eqb (lower c) (lower d) then stripI w' s' else None
      | EmptyString => None
      end
  end.

Definition startsI (w s : string) : bool :=
  match stripI w s with Some _ => true | None => false end.

(** An address on the network, and a data URL. *)
Definition isNetwork (s : string) : bool := startsI "http://" s || startsI "https://" s.
Definition isData (s : string) : bool := startsI "data:" s.

(** White space: one character of it or more, and nothing else. *)
Definition isWhite (sp : string) : bool :=
  match sp with
  | EmptyString => false
  | _ => match trimStart sp with EmptyString => true | _ => false end
  end.

(** The name of a local file of kind [k]. *)
Definition localFile (k : Kind) (name : string) : bool :=
  match name with EmptyString => false | _ => true end
  && allb notQuote name
  && negb (isNetwork name)
  && match k with ImageFile => negb (isData name) | _ => true end.

(** The text of a reference. *)
Definition referenceText (k : Kind) (sp attrs : string) (q1 : ascii) (name ext : string)
    (q2 : ascii) : string :=
  tagOf k ++ sp ++ attrs ++ attributeOf k ++ str1 q1 ++ name ++ ext ++ str1 q2.

Definition wellFormed (k : Kind) (sp attrs : string) (q1 : ascii) (name ext : string)
    (q2 : ascii) : Prop :=
  isWhite sp = true /\
  match k with ScriptFile => attrs = EmptyString | _ => allb notGt attrs = true end /\
  isQuote q1 = true /\ localFile k name = true /\ In ext (extensionsOf k) /\
  isQuote q2 = true.

(** A text that holds a reference to an external file. *)
Definition holdsReference (body : string) : Prop :=
  exists k pre sp attrs q1 name ext q2 post,
    body = pre ++ referenceText k sp attrs q1 name ext q2 ++ post /\
    wellFormed k sp attrs q1 name ext q2.

(** A reference to an external file in the widest sense: a script, a
    stylesheet or an image tag that loads, after any attributes, a file
    that is neither on the network nor a data URL. *)
Definition loadsFile (body : string) : Prop :=
  exists k pre sp attrs q name post,
    body = pre ++ tagOf k ++ sp ++ attrs ++ attributeOf k ++ str1 q ++ name ++ str1 q ++ post /\
    isWhite sp = true /\ allb notGt attrs = true /\ isQuote q = true /\
    localFile ImageFile name = true.

End Reference.

(** ** The wrappers of a full document, as HTML reads them

    The start tags of the doctype, of [html], of [head] and of [body]:
    the name in any case, followed by white space, [/] or [>], so with
    or without attributes. This is written out independently of the
    four texts [validateFragment] looks for. *)

Module Wrapper.
Import Js Regex Reference.

Definition wrapperTags : list string := ["<!doctype"; "<html"; "<head"; "<body"].

Definition endsName (c : ascii) : bool :=
  isAsciiSpace c || Ascii.eqb c ">"%char || Ascii.eqb c "/"%char.

Definition tagAt (tag html : string) : bool :=
  match stripI tag html with
  | Some (String c _) => endsName c
  | _ => false
  end.

Fixpoint holdsTag (tag html : string) : bool :=
  match html with
  | EmptyString => false
  | String _ rest => tagAt tag html || holdsTag tag rest
  end.

Definition documentWrapper (html : string) : bool :=
  existsb (fun tag => holdsTag tag html) wrapperTags.

End Wrapper.

(** ** What a caller observes *)

Module Observe.
Import Js Model Executor.

(** The three fragments the handler holds. *)
Definition fragments (w : Work) : option string * option string * option string :=
  (html w, css w, js w).

(** [asset_urls || []] *)
Definition assetList (a : option (list string)) : list string :=
  match a with
  | Some l => l
  | None => []
  end.

(** Lines as [split] gives them: none holds a newline. *)
Definition lines_ok (ls : list string) : Prop :=
  Forall (fun l => nl_free l = true) ls.

(** The text of the lines [s] to [e] of [code]. *)
Definition linesOf (code : string) (s e : Z) : string :=
  join_nl (firstn (Z.to_nat (e - s + 1)) (skipn (Z.to_nat (s - 1)) (split_nl code))).

(** The variables a block of the [replace_lines] handler leaves. *)
Definition flowWork (f : Executor.Flow) : Work :=
  match f with
  | Executor.Continue w => w
  | Executor.Fall w => w
  end.

(** The fragment a call names, after the lenient mapping. *)
Definition targetOf (tc : ToolCall) : string :=
  mapFilePath (str (field file_path tc)).

(** What the code operations do to one fragment, written out operation
    by operation: a write with a path and a content that is not empty
    replaces the fragment its path is mapped to by the content; a line
    replacement with all its parameters replaces the lines of the fragment
    its path is mapped to, when there is a fragment and the range is in
    it; any other operation leaves the fragment alone. *)
Definition writes (fp : string) (tc : ToolCall) : bool :=
  isTool "write_file" tc
  && truthy (field file_path tc) && truthy (field content tc)
  && (targetOf tc =? fp).

Definition replaces (fp : string) (tc : ToolCall) : option (Z * Z * string) :=
  if isTool "write_file" tc then None
  else if isTool "replace_lines" tc && truthy (field file_path tc) && (targetOf tc =? fp)
  then
    match field start_line tc, field end_line tc, field content tc with
    | Some s, Some e, Some body => Some (s, e, body)
    | _, _, _ => None
    end
  else None.

Definition applied (fp : string) (fragment : option string) (tc : ToolCall)
  : option string :=
  if writes fp tc then Some (str (field content tc))
  else
    match replaces fp tc, fragment with
    | Some (s, e, body), Some (String _ _ as code) =>
        let r := Lines.replaceLines code s e body fp in
        match Lines.error r with
        | None => Some (Lines.result r)
        | Some _ => fragment
        end
    | _, _ => fragment
    end.

(** The same for the structure fragment, where a replacement is kept when
    [validateHTML] accepts its result and the fragment goes back to
    [backup] when it does not. *)
Definition appliedHtml (backup fragment : option string) (tc : ToolCall)
  : option string :=
  if writes "html" tc then Some (str (field content tc))
  else
    match replaces "html" tc, fragment with
    | Some (s, e, body), Some (String _ _ as code) =>
        let r := Lines.replaceLines code s e body "html" in
        match Lines.error r with
        | None => if valid (validateHTML (Lines.result r)) then Some (Lines.result r)
                  else backup
        | Some _ => fragment
        end
    | _, _ => fragment
    end.

(** An image the substitution stage can handle: its name and its URL
    stand for themselves, or the three expressions of its name compile. *)
Definition accepted (env : Env) (nm url : string) : Prop :=
  literal nm url = true \/
  forall source, In source (patternSources nm) -> exists r, regExp env source = inl r.

(** No image of the batch can be generated. *)
Definition noImage (env : Env) (calls : list ToolCall) : Prop :=
  forall tc n, In tc calls -> isImageCall tc = true ->
    exists message,
      generateAndStoreImage env n (str (field name tc)) (str (field prompt tc)) = inr message.

(** A URL the image helper has returned. *)
Definition generated (env : Env) (url : string) : Prop :=
  exists n nm p, generateAndStoreImage env n nm p = inl url.

(** What a step leaves alone: the assets, the images, and the fragment
    [fp] when the step is about another one. *)
Definition keeps (fp fp' : string) (w w' : Work) : Prop :=
  assets w' = assets w /\ imageUrlMap w' = imageUrlMap w /\
  (fp' <> fp -> fragment fp w' = fragment fp w).

(** A text without a full stop. *)
Fixpoint dotFree (s : string) : bool :=
  match s with
  | EmptyString => true
  | String c s' => negb (Ascii.eqb c "."%char) && dotFree s'
  end.

(** An operation that has a name and a parameter object. *)
Definition wellFormed (op : ToolCall) : bool :=
  truthy (tool_name op)
  && match parameters op with Some _ => true | None => false end.

(** The message of the orchestrator for the operation at index [i]. *)
Definition missingField (i : nat) : string :=
  "Operation " ++ showNat i ++ " is missing " ++ str1 dq ++ "tool_name" ++ str1 dq
  ++ " or " ++ str1 dq ++ "parameters" ++ str1 dq ++ " field".

(** The tests of [mapFilePath] and of [normalizeFilePath] on a lowered path. *)
Definition mapLowered (lp : string) : string :=
  if (lp =? "html") || (lp =? "html_code") || (lp =? "index.html") then "html"
  else if (lp =? "css") || (lp =? "css_code") || (lp =? "style.css") then "css"
  else if (lp =? "js") || (lp =? "js_code") || (lp =? "script.js") || (lp =? "game.js")
  then "js"
  else lp.

Definition normalizeLowered (lp : string) : string :=
  if (lp =? "html") || (lp =? "html_code") || (lp =? "index.html") then "html_code"
  else if (lp =? "css") || (lp =? "css_code") || (lp =? "style.css") || (lp =? "styles.css")
  then "css_code"
  else if (lp =? "js") || (lp =? "js_code") || (lp =? "script.js") || (lp =? "game.js")
          || (lp =? "main.js")
  then "js_code"
  else lp.

End Observe.

(** ** The first version of the sandbox: [GameSandbox.tsx] *)

Module SandboxOld.
Import Js Regex.

(** [hay.indexOf(needle)], positions counted from [i]; [-1] when the text
    does not occur. *)
Fixpoint indexOfFrom (needle hay : string) (i : Z) : Z :=
  if prefix needle hay then i
  else match hay with
       | EmptyString => (-1)%Z
       | String _ hay' => indexOfFrom needle hay' (i + 1)
       end.

Definition indexOf (needle hay : string) : Z := indexOfFrom needle hay 0.

Definition missingStructure : string := "STRUCTURAL: Missing HTML document structure".
Definition styleInBody : string := "STRUCTURAL: <style> tag found in body instead of head".
Definition scriptInHead : string := "WARNING: <script> tag in head may cause issues".

(** [validateStructure] *)
Definition validateStructure (html : string) : list string :=
  let e1 : list string :=
    if negb (includes "<!DOCTYPE html>" html) && negb (includes "<html" html)
    then [missingStructure] else [] in
  let divOpen := matchCount Sandbox.reDivOpen html in
  let divClose := matchCount Sandbox.reDivClose html in
  let e2 : list string :=
    if (divOpen =? divClose)%nat then []
    else ["STRUCTURAL: Unclosed div tags (" ++ showNat divOpen ++ " open, "
          ++ showNat divClose ++ " close)"] in
  let e3 : list string :=
    if includes "<style>" html && (indexOf "<style>" html >? indexOf "<body>" html)%Z
    then [styleInBody] else [] in
  let e4 : list string :=
    if (indexOf "<script>" html <? indexOf "</head>" html)%Z
    then [scriptInHead] else [] in
  (e1 ++ e2 ++ e3 ++ e4)%list.

(** [constructedHtml] of this version: the document, and what [onError]
    received ([onError] tells whether the callback was given). *)
Definition constructedHtml (htmlCode cssCode jsCode : string) (onError : bool)
  : string * list string :=
  match htmlCode with
  | EmptyString => (EmptyString, [])
  | _ =>
      (Sandbox.assembledHtml htmlCode cssCode jsCode,
       Sandbox.report onError (validateStructure htmlCode))
  end.

End SandboxOld.

(** ** The structure summary of the orchestrator: [analyzeHTMLStructure] *)

Module Structure.
Import Js Regex.


(** An expression with one group: what stands before the group, the group,
    what stands after it. *)
Record Grouped := mkGrouped {
  before : re;
  group : re;
  after : re
}.

(** Group 1 of a match at the head of [s]: the text the group took on the
    first path on which the whole expression matches. *)
Definition captureAt (g : Grouped) (s : string) : option string :=
  rmatch (before g) None s (fun _ s1 =>
    rmatch (group g) None s1 (fun _ s2 =>
      rmatch (after g) None s2 (fun _ _ =>
        Some (substring 0 (length s1 - length s2) s1)))).

(** [s.match(g)[1]] for an expression without [g] flag: group 1 of the
    leftmost match, [None] for [null]. *)
Fixpoint firstCapture (g : Grouped) (s : string) : option string :=
  match captureAt g s with
  | Some c => Some c
  | None =>
      match s with
      | String _ s' => firstCapture g s'
      | EmptyString => None
      end
  end.

Definition divWith (attr : string) : Grouped :=
  mkGrouped (Seqs [Lit "<div"; Star notGt; Lit attr; Chr isQuote])
            (Plus notQuote)
            (Seqs [Chr isQuote; Star notGt; Lit ">"]).

(** The variables of the loop. *)
Record Scan := mkScan {
  structure : list string;
  inHead : bool;
  inBody : bool;
  inScript : bool;
  inStyle : bool;
  divDepth : Z
}.

Definition header : string := "HTML Structure with Line Numbers:".

Definition entry (lineNum : nat) (what : string) : string :=
  "  Line " ++ showNat lineNum ++ ": " ++ what.

Definition note (st : Scan) (lineNum : nat) (what : string) : list string :=
  (structure st ++ [entry lineNum what])%list.

(** The major sections. *)
Definition sections (line : string) (lineNum : nat) (st : Scan) : Scan :=
  if includes "<head>" line then
    mkScan (note st lineNum "<head> section starts")
           true (inBody st) (inScript st) (inStyle st) (divDepth st)
  else if includes "</head>" line then
    mkScan (note st lineNum "<head> section ends")
           false (inBody st) (inScript st) (inStyle st) (divDepth st)
  else if includes "<body>" line then
    mkScan (note st lineNum "<body> section starts")
           (inHead st) true (inScript st) (inStyle st) (divDepth st)
  else if includes "</body>" line then
    mkScan (note st lineNum "<body> section ends")
           (inHead st) false (inScript st) (inStyle st) (divDepth st)
  else if includes "<style>" line then
    mkScan (note st lineNum "<style> block starts")
           (inHead st) (inBody st) (inScript st) true (divDepth st)
  else if includes "</style>" line then
    mkScan (note st lineNum "<style> block ends")
           (inHead st) (inBody st) (inScript st) false (divDepth st)
  else if includes "<script>" line then
    mkScan (note st lineNum "<script> block starts")
           (inHead st) (inBody st) true (inStyle st) (divDepth st)
  else if includes "</script>" line then
    mkScan (note st lineNum "<script> block ends")
           (inHead st) (inBody st) false (inStyle st) (divDepth st)
  else st.

Definition opened (attr value : string) (depth : Z) : string :=
  "<div " ++ attr ++ "=" ++ str1 dq ++ value ++ str1 dq ++ "> (depth " ++ showZ depth ++ ")".

(** The divs with an id or a class, and the closing divs. *)
Definition divs (line : string) (lineNum : nat) (st : Scan) : Scan :=
  match firstCapture (divWith "id=") line with
  | Some value =>
      let d := (divDepth st + 1)%Z in
      mkScan (note st lineNum (opened "id" value d))
             (inHead st) (inBody st) (inScript st) (inStyle st) d
  | None =>
      match firstCapture (divWith "class=") line with
      | Some value =>
          let d := (divDepth st + 1)%Z in
          mkScan (note st lineNum (opened "class" value d))
                 (inHead st) (inBody st) (inScript st) (inStyle st) d
      | None =>
          if (line =? "</div>") || prefix "</div>" line then
            mkScan (note st lineNum ("</div> closes (depth " ++ showZ (divDepth st) ++ ")"))
                   (inHead st) (inBody st) (inScript st) (inStyle st)
                   (Z.max 0 (divDepth st - 1))
          else st
      end
  end.

(** The loop, from the line of index [i] on. *)
Fixpoint scan (lines : list string) (i : nat) (st : Scan) : Scan :=
  match lines with
  | [] => st
  | raw :: rest =>
      let line := trim raw in
      let lineNum := i + 1 in
      scan rest (S i) (divs line lineNum (sections line lineNum st))
  end.

Definition total (n : nat) : string := str1 nl ++ "Total lines: " ++ showNat n.

(** The summary that holds these entries, each a line number and a text. *)
Definition render (entries : list (nat * string)) : list string :=
  header :: map (fun e => entry (fst e) (snd e)) entries.

(** The summary holds at most [k] entries, all about the lines 1 to [i]. *)
Definition noted (i k : nat) (l : list string) : Prop :=
  exists entries,
    l = render entries /\
    Forall (fun e => 1 <= fst e <= i) entries /\
    List.length entries <= k.

(** [analyzeHTMLStructure] *)
Definition analyzeHTMLStructure (html : string) : string :=
  match html with
  | EmptyString => "No HTML code present"
  | _ =>
      let lines := split_nl html in
      let st := scan lines 0 (mkScan [header] false false false false 0) in
      join_nl (structure st ++ [total (List.length lines)])
  end.

End Structure.

(** ** The answer of the model: the fenced block and what is parsed *)

Module Fence.
Import Js Regex Model Structure.

Definition fenceEnd : string := str1 nl ++ "```".

(** The lazy group of any characters, followed by what [k] matches: the
    shortest text first. *)
Fixpoint lazyAny (k : string -> option string) (s : string) : option string :=
  match k s with
  | Some r => Some r
  | None =>
      match s with
      | String _ s' => lazyAny k s'
      | EmptyString => None
      end
  end.

(** Group 1 of a match at the head of [s] of [opening], the lazy group and
    the closing fence. *)
Definition blockAt (opening : re) (s : string) : option string :=
  rmatch opening None s (fun _ s1 =>
    lazyAny (fun s2 =>
               rmatch (Lit fenceEnd) None s2 (fun _ _ =>
                 Some (substring 0 (length s1 - length s2) s1)))
            s1).

(** Group 1 of the leftmost match. *)
Fixpoint firstBlock (opening : re) (s : string) : option string :=
  match blockAt opening s with
  | Some c => Some c
  | None =>
      match s with
      | String _ s' => firstBlock opening s'
      | EmptyString => None
      end
  end.

(** The opening of [orchestrate-changes], which allows white space after
    the language, and the one of [initialize-game]. *)
Definition orchestratorOpening : re := Seqs [Lit "```json"; Spaces; Lit (str1 nl)].
Definition plannerOpening : re := Lit ("```json" ++ str1 nl).

(** [orchestrate-changes]: the text given to [JSON.parse], or the message
    of the error of the check before it. *)
Definition jsonString (responseContent : string) : string :=
  trim (match firstBlock orchestratorOpening responseContent with
        | Some block => block
        | None => responseContent
        end).

Definition toParse (responseContent : string) : string + string :=
  let json := jsonString responseContent in
  if prefix "{" json then inl json
  else inr "Response does not start with a JSON object".

(** The error thrown when the check or the parser fails. *)
Definition parseFailure (message json : string) : string :=
  "Failed to parse AI response as JSON: " ++ message ++ str1 nl
  ++ "Response preview: " ++ units 200 json ++ "...".

(** What [JSON.parse] gives: the three fields read from the object
    ([operations] when it is an array) and the keys of the object. *)
Record Parsed := mkParsed {
  p_thought : option string;
  p_plan : option (list string);
  p_operations : option (list ToolCall);
  p_keys : list string
}.

Definition missingOperations (keys : list string) : string :=
  "AI response missing required " ++ str1 dq ++ "operations" ++ str1 dq
  ++ " array. Response keys: " ++ join ", " keys.

(** The handler of [orchestrate-changes] from the answer of the model on;
    [parse] is [JSON.parse], with the message of the error it throws, and
    [stored] tells whether the update of the row succeeded. *)
Definition handleAnswer (parse : string -> Parsed + string) (stored : bool)
    (session : Session) (userPrompt responseContent : string)
  : Session * Orchestrator.Outcome :=
  match toParse responseContent with
  | inr message =>
      (session,
       Orchestrator.Failed
         (Orchestrator.errorResponse (parseFailure message (jsonString responseContent))))
  | inl json =>
      match parse json with
      | inr message =>
          (session,
           Orchestrator.Failed (Orchestrator.errorResponse (parseFailure message json)))
      | inl parsed =>
          match p_operations parsed with
          | None =>
              (session,
               Orchestrator.Failed
                 (Orchestrator.errorResponse (missingOperations (p_keys parsed))))
          | Some operations =>
              Orchestrator.orchestrate stored session userPrompt
                (Orchestrator.mkPlan (p_thought parsed) (p_plan parsed) operations)
          end
      end
  end.

(** [initialize-game]: the text given to [JSON.parse], or the message of
    the error thrown. *)
Definition gamePlanString (responseContent : string) : string + string :=
  match firstBlock plannerOpening responseContent with
  | Some (String _ _ as block) => inl block
  | _ => inr "Failed to extract game plan from AI response"
  end.

Definition notBacktick (c : ascii) : bool := negb (Ascii.eqb c "`"%char).

(** The answer does not pass the check before the parser, or the parser
    throws on it. *)
Definition unparsable (parse : string -> Parsed + string) (responseContent : string) : bool :=
  match toParse responseContent with
  | inr _ => true
  | inl json => match parse json with inr _ => true | inl _ => false end
  end.

(** The message of the error of the check or of the parser, when one of
    them refuses the answer. *)
Definition parseError (parse : string -> Parsed + string) (responseContent : string)
  : option string :=
  match toParse responseContent with
  | inr message => Some message
  | inl json => match parse json with inr message => Some message | inl _ => None end
  end.

End Fence.

(** ** The first version of the executor

    The handler of the first version, for the same parameters: a parameter
    that is absent is [undefined]. *)

Module Legacy.
Import Js Lines Regex Model Executor.

(** A variable of the handler: [None] when it is [undefined], which only
    a write without content makes it, else the value of its column. *)
Definition Var : Type := option (option string).

Record Vars := mkVars {
  html : Var;
  css : Var;
  js : Var;
  assets : option (list string);
  imageUrlMap : list (string * string);
  actionsSummary : list string
}.

Definition push (v : Vars) (line : string) : Vars :=
  mkVars (html v) (css v) (js v) (assets v) (imageUrlMap v) (actionsSummary v ++ [line]).
Definition set_html (v : Vars) (x : Var) : Vars :=
  mkVars x (css v) (js v) (assets v) (imageUrlMap v) (actionsSummary v).
Definition set_css (v : Vars) (x : Var) : Vars :=
  mkVars (html v) x (js v) (assets v) (imageUrlMap v) (actionsSummary v).
Definition set_js (v : Vars) (x : Var) : Vars :=
  mkVars (html v) (css v) x (assets v) (imageUrlMap v) (actionsSummary v).

Definition recordImage (v : Vars) (n url : string) : Vars :=
  mkVars (html v) (css v) (js v) (addAsset (assets v) url)
         (mapSet (imageUrlMap v) n url) (actionsSummary v).

(** The text of a variable that is truthy. *)
Definition text (x : Var) : option string :=
  match x with
  | Some (Some (String _ _ as t)) => Some t
  | _ => None
  end.

(** STAGE 1. *)
Fixpoint stage1 (env : Env) (calls : list ToolCall) (n : nat) (v : Vars) : Vars :=
  match calls with
  | [] => v
  | tc :: rest =>
      if negb (truthy (field name tc)) || negb (truthy (field prompt tc)) then
        stage1 env rest n (push v "Skipped an image generation call due to missing parameters")
      else
        let nm := str (field name tc) in
        match generateAndStoreImage env n nm (str (field prompt tc)) with
        | inl publicUrl =>
            stage1 env rest (S n)
              (push (recordImage v nm publicUrl) ("Generated image '" ++ nm ++ "'"))
        | inr message =>
            stage1 env rest (S n)
              (push v ("Failed to generate image '" ++ nm ++ "': " ++ message))
        end
  end.

(** [`${n}`] for a number that may be [undefined]. *)
Definition showNum (n : option Z) : string :=
  match n with Some z => showZ z | None => "undefined" end.

(** [a < b] and [a > b] on numbers that may be [undefined]. *)
Definition lt (a b : option Z) : bool :=
  match a, b with Some x, Some y => (x <? y)%Z | _, _ => false end.
Definition gt (a b : option Z) : bool :=
  match a, b with Some x, Some y => (x >? y)%Z | _, _ => false end.

(** The error of reading a property of [undefined]. *)
Definition typeError : string := "Cannot read properties of undefined (reading 'substring')".

(** [replaceLines], called with parameters that may be [undefined]: the
    result, or the message of the error thrown. *)
Definition replaceLines (code : string) (start end_ : option Z) (newContent : option string)
    (filePath : string) : ReplaceResult + string :=
  let lines := split_nl code in
  let totalLines := Some (Z.of_nat (List.length lines)) in
  if lt start (Some 1%Z) || lt end_ (Some 1%Z) then
    inl (mkReplaceResult code
           (Some ("Invalid line numbers: start=" ++ showNum start ++ ", end=" ++ showNum end_
                  ++ ". Line numbers must be >= 1.")))
  else if gt start totalLines || gt end_ totalLines then
    inl (mkReplaceResult code
           (Some ("Line numbers out of range: start=" ++ showNum start ++ ", end="
                  ++ showNum end_ ++ ", but file only has " ++ showNum totalLines ++ " lines.")))
  else if gt start end_ then
    inl (mkReplaceResult code
           (Some ("Invalid range: start (" ++ showNum start ++ ") is greater than end ("
                  ++ showNum end_ ++ ").")))
  else
    match newContent with
    | None => inr typeError
    | Some content =>
        let newLines := split_nl content in
        let index := match start with Some s => Z.to_nat (s - 1) | None => 0 end in
        let deleteCount :=
          match start, end_ with
          | Some s, Some e => Z.to_nat (e - s + 1)
          | _, _ => 0
          end in
        inl (mkReplaceResult (join_nl (splice lines index deleteCount newLines)) None)
    end.

(** STAGE 2: the code modification calls. *)
Definition isPath (path : option string) (column : string) : bool :=
  match path with Some p => p =? column | None => false end.

Definition assigned (content : option string) : Var :=
  match content with Some c => Some (Some c) | None => None end.

Definition writeFile (tc : ToolCall) (v : Vars) : Vars :=
  let path := field file_path tc in
  let x := assigned (field content tc) in
  let v1 := if isPath path "html_code" then set_html v x else v in
  let v2 := if isPath path "css_code" then set_css v1 x else v1 in
  let v3 := if isPath path "js_code" then set_js v2 x else v2 in
  push v3 ("Updated " ++ str path ++ ".").

Inductive Flow : Type :=
| Continue (v : Vars)
| Fall (v : Vars)
| Throw (message : string).

Definition block (column : string) (get : Vars -> Var) (set : Vars -> Var -> Vars)
    (tc : ToolCall) (v : Vars) : Flow :=
  match isPath (field file_path tc) column, text (get v) with
  | true, Some code =>
      match replaceLines code (field start_line tc) (field end_line tc) (field content tc)
                         (str (field file_path tc)) with
      | inr message => Throw message
      | inl r =>
          match error r with
          | Some err =>
              Continue (push v ("ERROR replacing lines in " ++ str (field file_path tc)
                                ++ ": " ++ err))
          | None => Fall (set v (Some (Some (result r))))
          end
      end
  | _, _ => Fall v
  end.

Definition replaceLinesCall (tc : ToolCall) (v : Vars) : Vars + string :=
  match block "html_code" html set_html tc v with
  | Throw message => inr message
  | Continue v' => inl v'
  | Fall v1 =>
      match block "css_code" css set_css tc v1 with
      | Throw message => inr message
      | Continue v' => inl v'
      | Fall v2 =>
          match block "js_code" js set_js tc v2 with
          | Throw message => inr message
          | Continue v' => inl v'
          | Fall v3 =>
              inl (push v3 ("Replaced lines " ++ showNum (field start_line tc) ++ "-"
                            ++ showNum (field end_line tc) ++ " in "
                            ++ str (field file_path tc) ++ "."))
          end
      end
  end.

Definition codeCall (tc : ToolCall) (v : Vars) : Vars + string :=
  if isTool "write_file" tc then inl (writeFile tc v)
  else if isTool "replace_lines" tc then replaceLinesCall tc v
  else inl (push v ("Skipped unknown tool: " ++ str (tool_name tc))).

Fixpoint stage2 (calls : list ToolCall) (v : Vars) : Vars + string :=
  match calls with
  | [] => inl v
  | tc :: rest =>
      match codeCall tc v with
      | inl v' => stage2 rest v'
      | inr message => inr message
      end
  end.

(** STAGE 3: the names of the images, between two quotes that need not be
    the same. As in the later version the name is put into the source of
    the expression as it is: a name that stands for itself gives the
    expression below, another one is given to [regExp]. *)
Definition placeholder (nm : string) : re :=
  Seqs [Chr isQuote; Lit nm; Opt (Lit ".png"); Chr isQuote].

Definition placeholderSource (nm : string) : string :=
  "['" ++ str1 dq ++ "]" ++ nm ++ "(\.png)?['" ++ str1 dq ++ "]".

Definition replaceVar (r : Replacer) (repl : string) (x : Var) : Var :=
  match x with
  | Some (Some (String _ _ as code)) => Some (Some (r repl code))
  | _ => x
  end.

Definition substReplacer (url : string) (v : Vars) (r : Replacer) : Vars :=
  mkVars (replaceVar r ("'" ++ url ++ "'") (html v))
         (replaceVar r ("url('" ++ url ++ "')") (css v))
         (replaceVar r ("'" ++ url ++ "'") (js v))
         (assets v) (imageUrlMap v) (actionsSummary v).

Definition substImage (env : Env) (v : Vars) (entry : string * string) : Vars + string :=
  if literal (fst entry) (snd entry) then
    inl (substReplacer (snd entry) v (replaceAll (placeholder (fst entry))))
  else
    match regExp env (placeholderSource (fst entry)) with
    | inr message => inr message
    | inl r => inl (substReplacer (snd entry) v r)
    end.

Fixpoint substAll (env : Env) (entries : list (string * string)) (v : Vars)
  : Vars + string :=
  match entries with
  | [] => inl v
  | entry :: rest =>
      match substImage env v entry with
      | inr message => inr message
      | inl v' => substAll env rest v'
      end
  end.

Definition stage3 (env : Env) (v : Vars) : Vars + string :=
  match imageUrlMap v with
  | [] => inl v
  | _ :: _ =>
      match substAll env (imageUrlMap v) v with
      | inr message => inr message
      | inl v' =>
          inl (push v' ("Replaced " ++ showNat (List.length (imageUrlMap v))
                        ++ " image placeholders with generated URLs."))
      end
  end.

Definition startVars (session : Session) : Vars :=
  mkVars (Some (html_code session)) (Some (css_code session)) (Some (js_code session))
         (asset_urls session) [] [].

Definition runStages (env : Env) (session : Session) (toolCalls : list ToolCall)
  : Vars + string :=
  let v1 := stage1 env (filter isImageCall toolCalls) 0 (startVars session) in
  match stage2 (filter (fun c => negb (isImageCall c)) toolCalls) v1 with
  | inl v2 => stage3 env v2
  | inr message => inr message
  end.

Definition chatResponseOf (env : Env) (v : Vars) : string :=
  match summarize env (actionsSummary v) with
  | Some (String _ _ as answer) => answer
  | _ => defaultChatResponse
  end.

(** The column after the update: a variable that is [undefined] is left
    out of the update. *)
Definition stored (x : Var) (old : option string) : option string :=
  match x with Some value => value | None => old end.

Definition execute (env : Env) (session : Session) (toolCalls : list ToolCall)
  : Session * Response :=
  match runStages env session toolCalls with
  | inr message => (session, Error 500 message)
  | inl v =>
      let assistantChatResponse := chatResponseOf env v in
      match updateError env with
      | Some message => (session, Error 500 message)
      | None =>
          (mkSession (stored (html v) (html_code session)) (stored (css v) (css_code session))
                     (stored (js v) (js_code session)) (assets v)
                     (chat_history session ++ [mkChat "assistant" assistantChatResponse])
                     "coding_complete",
           Ok200 assistantChatResponse)
      end
  end.

(** The column a path names. *)
Definition column (path : string) (session : Session) : option string :=
  if path =? "html_code" then html_code session
  else if path =? "css_code" then css_code session
  else if path =? "js_code" then js_code session
  else None.

(** The calls on which the two versions are compared: a write with one of
    the three paths, a content that is not empty and no external
    reference; a line replacement in the styles or the script with all
    its parameters; a tool that neither version knows. *)
Definition plainCall (tc : ToolCall) : bool :=
  if isTool "write_file" tc then
    match field file_path tc with
    | Some p => existsb (String.eqb p) Orchestrator.validPaths
    | None => false
    end
    && truthy (field content tc) && negb (writesExternalRef tc)
  else if isTool "replace_lines" tc then
    match field file_path tc, field start_line tc, field end_line tc, field content tc with
    | Some p, Some _, Some _, Some _ => (p =? "css_code") || (p =? "js_code")
    | _, _, _, _ => false
    end
  else negb (isImageCall tc).

(** The variables of the two versions hold the same values. *)
Definition same (w : Executor.Work) (v : Vars) : Prop :=
  html v = Some (Executor.html w) /\ css v = Some (Executor.css w) /\
  js v = Some (Executor.js w) /\ assets v = Executor.assets w /\
  imageUrlMap v = Executor.imageUrlMap w.

End Legacy.

(** * Properties *)

Section StringFacts.
Import Js.

Lemma append_nil_r (s : string) : s ++ EmptyString = s.
Proof. induction s as [|c s IH]; simpl; [reflexivity | now rewrite IH]. Qed.

Lemma append_assoc (a b c : string) : (a ++ b) ++ c = a ++ (b ++ c).
Proof. induction a as [|x a IH]; simpl; [reflexivity | now rewrite IH]. Qed.

Lemma length_append (a b : string) : length (a ++ b) = length a + length b.
Proof. induction a as [|x a IH]; simpl; [reflexivity | now rewrite IH]. Qed.

Lemma split_nl_nonempty (s : string) : split_nl s <> [].
Proof.
  induction s as [|c s IH]; simpl; [discriminate|].
  destruct (Ascii.eqb c nl); [discriminate|].
  destruct (split_nl s); [contradiction | discriminate].
Qed.

Lemma split_nl_nl_free (s : string) : Forall (fun l => nl_free l = true) (split_nl s).
Proof.
  induction s as [|c s IH]; simpl.
  - constructor; [reflexivity | constructor].
  - destruct (Ascii.eqb c nl) eqn:E.
    + constructor; [reflexivity | exact IH].
    + destruct (split_nl s) as [|l ls].
      * constructor; [simpl; now rewrite E | constructor].
      * inversion IH; subst. constructor; [simpl; rewrite E; simpl; assumption | assumption].
Qed.

Lemma split_nl_line (l : string) : nl_free l = true -> split_nl l = [l].
Proof.
  induction l as [|c l IH]; simpl; [reflexivity|].
  intros H. apply andb_true_iff in H as [Hc Hl].
  apply negb_true_iff in Hc. rewrite Hc, (IH Hl). reflexivity.
Qed.

Lemma split_nl_app_line (l rest : string) :
  nl_free l = true -> split_nl (l ++ String nl rest) = l :: split_nl rest.
Proof.
  induction l as [|c l IH]; simpl; [reflexivity|].
  intros H. apply andb_true_iff in H as [Hc Hl].
  apply negb_true_iff in Hc. rewrite Hc, (IH Hl). reflexivity.
Qed.

(** Splitting what was joined gives the lines back. *)
Lemma split_join_nl (ls : list string) :
  ls <> [] -> Forall (fun l => nl_free l = true) ls -> split_nl (join_nl ls) = ls.
Proof.
  induction ls as [|l ls IH]; [congruence|].
  intros _ H. inversion H as [|? ? Hl Hls]; subst.
  destruct ls as [|l2 ls].
  - simpl. now apply split_nl_line.
  - change (join_nl (l :: l2 :: ls)) with (l ++ String nl (join_nl (l2 :: ls))).
    rewrite (split_nl_app_line _ _ Hl), IH; [reflexivity | discriminate | assumption].
Qed.

Lemma join_split_nl (s : string) : join_nl (split_nl s) = s.
Proof.
  induction s as [|c s IH]; [reflexivity|].
  simpl. destruct (Ascii.eqb c nl) eqn:E.
  - apply Ascii.eqb_eq in E. subst c.
    pose proof (split_nl_nonempty s) as Hne.
    destruct (split_nl s) as [|l ls]; [congruence|].
    change (join_nl (EmptyString :: l :: ls)) with (String nl (join_nl (l :: ls))).
    now rewrite IH.
  - pose proof (split_nl_nonempty s) as Hne.
    destruct (split_nl s) as [|l ls]; [congruence|].
    destruct ls as [|l2 ls].
    + simpl in *. now subst.
    + change (join_nl (String c l :: l2 :: ls)) with (String c (join_nl (l :: l2 :: ls))).
      now rewrite IH.
Qed.

Lemma Forall_firstn {A} (P : A -> Prop) (n : nat) (ls : list A) :
  Forall P ls -> Forall P (firstn n ls).
Proof.
  revert ls; induction n as [|n IH]; intros [|x ls] H; simpl; try constructor;
    inversion H; subst; auto.
Qed.

Lemma Forall_skipn {A} (P : A -> Prop) (n : nat) (ls : list A) :
  Forall P ls -> Forall P (skipn n ls).
Proof.
  revert ls; induction n as [|n IH]; intros [|x ls] H; simpl; try assumption.
  inversion H; subst; auto.
Qed.

Lemma Forall_splice {A} (P : A -> Prop) (ls items : list A) (i d : nat) :
  Forall P ls -> Forall P items -> Forall P (splice ls i d items).
Proof.
  intros Hl Hi. unfold splice.
  apply Forall_app; split; [now apply Forall_firstn|].
  apply Forall_app; split; [assumption | now apply Forall_skipn].
Qed.

Lemma prefix_iff (n h : string) : prefix n h = true <-> exists b, h = n ++ b.
Proof.
  revert h; induction n as [|c n IH]; intros h.
  - split; [intros _; now exists h | intros _; now destruct h].
  - destruct h as [|d h]; simpl.
    + split; [discriminate | intros [b Hb]; discriminate].
    + destruct (ascii_dec c d) as [->|Hcd].
      * rewrite IH. split; intros [b Hb]; exists b; [now subst | now inversion Hb].
      * split; [discriminate | intros [b Hb]; inversion Hb; congruence].
Qed.

Lemma prefix_app (n b : string) : prefix n (n ++ b) = true.
Proof. apply prefix_iff. now exists b. Qed.

Lemma includes_iff (n h : string) :
  includes n h = true <-> exists a b, h = a ++ n ++ b.
Proof.
  induction h as [|c h IH].
  - cbn [includes]. rewrite orb_false_r, prefix_iff. split.
    + intros [b Hb]. now exists EmptyString, b.
    + intros (a & b & Hab). destruct a; [now exists b | discriminate].
  - cbn [includes]. rewrite orb_true_iff, IH, prefix_iff. split.
    + intros [[b Hb] | (a & b & Hab)].
      * now exists EmptyString, b.
      * exists (String c a), b. simpl. now rewrite Hab.
    + intros (a & b & Hab). destruct a as [|x a].
      * left. now exists b.
      * right. exists a, b. now inversion Hab.
Qed.

Lemma includes_app_l (n a b : string) : includes n a = true -> includes n (a ++ b) = true.
Proof.
  rewrite !includes_iff. intros (x & y & ->). exists x, (y ++ b).
  now rewrite !append_assoc.
Qed.

Lemma includes_app_r (n a b : string) : includes n b = true -> includes n (a ++ b) = true.
Proof.
  rewrite !includes_iff. intros (x & y & ->). exists (a ++ x), y.
  now rewrite !append_assoc.
Qed.

End StringFacts.

(** ** ReplaceRange on a valid range *)

Section ReplaceLines.
Import Js Lines.

Lemma replaceLines_ok_lines (code newContent filePath : string) (start end_ : Z) :
  (1 <= start)%Z -> (start <= end_)%Z -> (end_ <= Z.of_nat (lineCount code))%Z ->
  replaceLines code start end_ newContent filePath =
    mkReplaceResult
      (join_nl (firstn (Z.to_nat (start - 1)) (split_nl code) ++ split_nl newContent
                ++ skipn (Z.to_nat end_) (split_nl code))%list)
      None.
Proof.
  intros H1 H2 H3. unfold replaceLines, lineCount in *.
  replace ((start <? 1) || (end_ <? 1))%Z with false
    by (symmetry; apply orb_false_iff; split; apply Z.ltb_ge; lia).
  replace ((start >? Z.of_nat (List.length (split_nl code)))
           || (end_ >? Z.of_nat (List.length (split_nl code))))%Z with false
    by (symmetry; apply orb_false_iff; rewrite !Z.gtb_ltb; split; apply Z.ltb_ge; lia).
  replace (start >? end_)%Z with false
    by (symmetry; rewrite Z.gtb_ltb; apply Z.ltb_ge; lia).
  unfold splice.
  replace (Z.to_nat (start - 1) + Z.to_nat (end_ - start + 1))%nat with (Z.to_nat end_) by lia.
  reflexivity.
Qed.

(** C6. A ReplaceRange with [1 <= start <= end <= lineCount] succeeds; the
    line count of the result is the old one minus [end - start + 1] plus the
    number of lines of the new content; the lines before [start] keep their
    place and their text, and the lines after [end] keep their text and their
    order, shifted by the change of length. *)
Theorem replaceLines_in_range (code newContent filePath : string) (start end_ : Z) :
  (1 <= start)%Z -> (start <= end_)%Z -> (end_ <= Z.of_nat (lineCount code))%Z ->
  let r := replaceLines code start end_ newContent filePath in
  let old := split_nl code in
  let new := split_nl (result r) in
  error r = None /\
  Z.of_nat (lineCount (result r)) =
    (Z.of_nat (lineCount code) - (end_ - start + 1) + Z.of_nat (lineCount newContent))%Z /\
  new = (firstn (Z.to_nat (start - 1)) old ++ split_nl newContent
         ++ skipn (Z.to_nat end_) old)%list /\
  (forall i : nat, (Z.of_nat i < start - 1)%Z -> nth_error new i = nth_error old i) /\
  (forall i : nat, (end_ <= Z.of_nat i)%Z ->
     nth_error new (i - Z.to_nat (end_ - start + 1) + lineCount newContent) = nth_error old i).
Proof.
  intros H1 H2 H3 r old new.
  assert (Hr : r = mkReplaceResult
      (join_nl (firstn (Z.to_nat (start - 1)) old ++ split_nl newContent
                ++ skipn (Z.to_nat end_) old)%list) None)
    by (apply replaceLines_ok_lines; assumption).
  assert (Hnew : new = (firstn (Z.to_nat (start - 1)) old ++ split_nl newContent
                       ++ skipn (Z.to_nat end_) old)%list).
  { unfold new. rewrite Hr. simpl. apply split_join_nl.
    - intros E. apply app_eq_nil in E as [_ E]. apply app_eq_nil in E as [E _].
      exact (split_nl_nonempty _ E).
    - apply Forall_app; split; [apply Forall_firstn, split_nl_nl_free|].
      apply Forall_app; split; [apply split_nl_nl_free | apply Forall_skipn, split_nl_nl_free]. }
  unfold lineCount in *. fold old in H3.
  assert (Hlen1 : List.length (firstn (Z.to_nat (start - 1)) old) = Z.to_nat (start - 1))
    by (apply firstn_length_le; lia).
  split; [rewrite Hr; reflexivity|].
  split.
  { fold new. rewrite Hnew, !length_app, Hlen1, length_skipn. fold old. lia. }
  split; [exact Hnew|].
  split.
  - intros i Hi. rewrite Hnew, nth_error_app1 by lia.
    rewrite nth_error_firstn.
    replace (i <? Z.to_nat (start - 1))%nat with true
      by (symmetry; apply Nat.ltb_lt; lia).
    reflexivity.
  - intros i Hi. rewrite Hnew.
    rewrite nth_error_app2 by lia. rewrite nth_error_app2 by lia.
    rewrite nth_error_skipn, Hlen1. f_equal. lia.
Qed.

(** The theorem at work: lines 2 to 3 of four lines replaced by one line. *)
Lemma replaceLines_in_range_witness :
  result (replaceLines ("a" ++ str1 nl ++ "b" ++ str1 nl ++ "c" ++ str1 nl ++ "d") 2 3 "X" "js")
    = "a" ++ str1 nl ++ "X" ++ str1 nl ++ "d"
  /\ Z.of_nat (lineCount (result (replaceLines
        ("a" ++ str1 nl ++ "b" ++ str1 nl ++ "c" ++ str1 nl ++ "d") 2 3 "X" "js"))) = 3%Z.
Proof.
  split; [reflexivity|].
  pose proof (replaceLines_in_range
    ("a" ++ str1 nl ++ "b" ++ str1 nl ++ "c" ++ str1 nl ++ "d") "X" "js" 2 3
    ltac:(lia) ltac:(lia) ltac:(vm_compute; discriminate)) as H.
  cbv zeta in H. destruct H as (_ & H & _). rewrite H. reflexivity.
Defined.

End ReplaceLines.

(** ** The fragment assembler *)

Section Assembler.
Import Js Sandbox.

Lemma hasWrapper_validateFragment (html : string) :
  hasWrapper html = false <-> validateFragment html = [].
Proof.
  unfold hasWrapper, validateFragment.
  destruct (includes "<!DOCTYPE html>" html), (includes "<html" html),
    (includes "<head>" html), (includes "<body>" html); simpl;
    split; (reflexivity || discriminate).
Qed.

Lemma validateFragment_all_wrapper (html : string) :
  Forall (fun d => isFragmentError d = true) (validateFragment html).
Proof.
  unfold validateFragment.
  destruct (includes "<!DOCTYPE html>" html), (includes "<html" html),
    (includes "<head>" html), (includes "<body>" html); simpl;
    repeat constructor.
Qed.

Lemma validateAssembledHTML_no_wrapper (doc : string) :
  Forall (fun d => isFragmentError d = false) (Sandbox.validateAssembledHTML doc).
Proof.
  unfold Sandbox.validateAssembledHTML.
  apply Forall_app; split.
  - destruct (_ =? _)%nat; repeat constructor.
  - destruct (bodyContent doc); [|constructor].
    destruct (_ <? _)%nat; repeat constructor.
Qed.

Lemma hasWrapper_nonempty (html : string) : hasWrapper html = true -> html <> EmptyString.
Proof. intros H ->. discriminate. Qed.




Lemma includes_join_nl (n x : string) (ls : list string) :
  In x ls -> includes n x = true -> includes n (join_nl ls) = true.
Proof.
  intros Hin Hx. induction ls as [|y ls IH]; [destruct Hin|].
  destruct ls as [|z ls].
  - destruct Hin as [->|[]]. exact Hx.
  - change (join_nl (y :: z :: ls)) with (y ++ (str1 nl ++ join_nl (z :: ls))).
    destruct Hin as [->|Hin].
    + now apply includes_app_l.
    + apply includes_app_r, includes_app_r. now apply IH.
Qed.

(** A document assembled from a structure fragment holds the baseline
    styles and the capture of runtime errors. *)
Lemma assembled_has_baseline (htmlCode cssCode jsCode : string) :
  includes "body { margin: 0; padding: 0; overflow: hidden; }"
           (assembledHtml htmlCode cssCode jsCode) = true /\
  includes "window.onerror = function" (assembledHtml htmlCode cssCode jsCode) = true.
Proof.
  split.
  - apply includes_join_nl
      with (x := "    body { margin: 0; padding: 0; overflow: hidden; }");
      [|reflexivity].
    repeat (first [left; reflexivity | right]).
  - apply includes_join_nl
      with (x := "    window.onerror = function(message, source, lineno, colno, error) {");
      [|reflexivity].
    repeat (first [left; reflexivity | right]).
Qed.

(** A structure fragment that is not empty gives the assembled document. *)
Lemma constructedHtml_nonempty (htmlCode cssCode jsCode : string) (onError : bool) :
  htmlCode <> EmptyString ->
  fst (constructedHtml htmlCode cssCode jsCode onError) = assembledHtml htmlCode cssCode jsCode.
Proof. destruct htmlCode; [congruence | reflexivity]. Qed.

(** C10. With an empty structure fragment the assembler returns the empty
    string and reports nothing, whatever the style and behavior fragments
    are and whether a callback is given or not: the baseline styles and the
    error capture, which every assembled document holds, are not there. *)
Theorem constructedHtml_empty (cssCode jsCode : string) (onError : bool) :
  constructedHtml EmptyString cssCode jsCode onError = (EmptyString, []) /\
  includes "body { margin: 0; padding: 0; overflow: hidden; }"
           (fst (constructedHtml EmptyString cssCode jsCode onError)) = false /\
  includes "window.onerror = function"
           (fst (constructedHtml EmptyString cssCode jsCode onError)) = false.
Proof. repeat split. Qed.

End Assembler.

(** ** The executor: fatal errors *)

Section Fatal.
Import Js Model Executor.

Lemma findExternalRef_message (refs : list ExternalRef) (body message : string) :
  findExternalRef refs body = Some message -> externalRefMessage message.
Proof.
  induction refs as [|ref refs IH]; cbn [findExternalRef]; [discriminate|].
  destruct (Regex.matchAll (pattern ref) body) as [|m ms]; [exact IH|].
  intros E. injection E as E. unfold externalRefMessage. rewrite <- E.
  apply prefix_iff. eexists. reflexivity.
Qed.

Lemma isTool_not_image (tc : ToolCall) :
  isTool "write_file" tc = true -> isImageCall tc = false.
Proof.
  unfold isImageCall, isTool. destruct (tool_name tc) as [t|]; [|discriminate].
  intros H. apply String.eqb_eq in H. now subst t.
Qed.

Lemma writeFile_external (tc : ToolCall) (w : Work) :
  writesExternalRef tc = true ->
  exists message, writeFile tc w = inr message /\ externalRefMessage message.
Proof.
  unfold writesExternalRef, writeFile. intros H.
  repeat (apply andb_true_iff in H as [H ?]).
  destruct (findExternalRef externalRefs (str (field content tc))) as [m|] eqn:E;
    [|discriminate].
  replace (negb (truthy (field file_path tc)) || negb (truthy (field content tc)))
    with false by (symmetry; apply orb_false_iff; split; apply negb_false_iff; assumption).
  replace (mapFilePath (str (field file_path tc)) =? "html") with true by congruence.
  exists m. split; [reflexivity | eapply findExternalRef_message; eassumption].
Qed.

(** Only a structure write with an external reference throws. *)
Lemma codeCall_throws (backup : option string) (tc : ToolCall) (w : Work) (message : string) :
  codeCall backup tc w = inr message -> externalRefMessage message.
Proof.
  unfold codeCall, writeFile.
  destruct (isTool "write_file" tc); [|destruct (isTool "replace_lines" tc); discriminate].
  destruct (_ || _); [discriminate|].
  destruct (mapFilePath _ =? "html"); [|discriminate].
  destruct (findExternalRef _ _) as [m|] eqn:E; [|discriminate].
  intros [= <-]. eapply findExternalRef_message; eassumption.
Qed.

Lemma stage3_throws (backup : option string) (calls : list ToolCall) :
  existsb writesExternalRef calls = true ->
  forall w, exists message, stage3 backup calls w = inr message /\ externalRefMessage message.
Proof.
  induction calls as [|tc calls IH]; simpl; [discriminate|].
  intros H w. destruct (codeCall backup tc w) as [w'|m] eqn:E.
  - apply orb_true_iff in H as [H|H]; [|now apply IH].
    unfold codeCall in E.
    assert (Ht : isTool "write_file" tc = true).
    { unfold writesExternalRef in H. now repeat (apply andb_true_iff in H as [H ?]). }
    rewrite Ht in E.
    destruct (writeFile_external tc w H) as (m & Hm & _). congruence.
  - exists m. split; [reflexivity | eapply codeCall_throws; eassumption].
Qed.

Lemma existsb_filter {A} (f g : A -> bool) (l : list A) :
  (forall x, f x = true -> g x = true) ->
  existsb f l = true -> existsb f (filter g l) = true.
Proof.
  intros Hfg. induction l as [|x l IH]; simpl; [trivial|].
  intros H. apply orb_true_iff in H as [H|H].
  - rewrite (Hfg x H). simpl. now rewrite H.
  - destruct (g x); simpl; rewrite (IH H); auto using orb_true_r.
Qed.

End Fatal.

(** ** The executor: single calls *)

Section Calls.
Import Js Lines Model Executor.

Lemma field_call {A} (f : Params -> option A) (tool : string) (p : Params) :
  field f (call tool p) = f p.
Proof. reflexivity. Qed.

Lemma codeCall_write_file (backup : option string) (path body : string) (w : Work) :
  codeCall backup (write_file path body) w = writeFile (write_file path body) w.
Proof. reflexivity. Qed.

Lemma codeCall_replace_lines (backup : option string) (path body : string) (s e : Z)
    (w : Work) :
  codeCall backup (replace_lines path s e body) w
    = inl (replaceLinesCall backup (replace_lines path s e body) w).
Proof. reflexivity. Qed.

Lemma fragment_assign (fp body : string) (w : Work) :
  (fp =? "html") || (fp =? "css") || (fp =? "js") = true ->
  fragment fp (assign fp body w) = Some body.
Proof.
  unfold fragment, assign. intros H.
  destruct (fp =? "html") eqn:E1.
  - apply String.eqb_eq in E1. subst fp. reflexivity.
  - destruct (fp =? "css") eqn:E2.
    + apply String.eqb_eq in E2. subst fp. reflexivity.
    + destruct (fp =? "js") eqn:E3; [reflexivity | discriminate].
Qed.

(** The other fragments stay as they are. *)
Lemma fragment_assign_other (fp fp' body : string) (w : Work) :
  fp' <> fp -> fragment fp' (assign fp body w) = fragment fp' w.
Proof.
  unfold fragment, assign. intros H.
  destruct (fp' =? "html") eqn:F1.
  - apply String.eqb_eq in F1. subst fp'.
    destruct (fp =? "html") eqn:E1; [apply String.eqb_eq in E1; congruence|].
    destruct (fp =? "css"), (fp =? "js"); reflexivity.
  - destruct (fp' =? "css") eqn:F2.
    + apply String.eqb_eq in F2. subst fp'.
      destruct (fp =? "css") eqn:E2; [apply String.eqb_eq in E2; congruence|].
      destruct (fp =? "html"), (fp =? "js"); reflexivity.
    + destruct (fp' =? "js") eqn:F3; [|reflexivity].
      apply String.eqb_eq in F3. subst fp'.
      destruct (fp =? "js") eqn:E3; [apply String.eqb_eq in E3; congruence|].
      destruct (fp =? "html"), (fp =? "css"); reflexivity.
Qed.

Lemma actionsSummary_assign (fp body : string) (w : Work) :
  actionsSummary (assign fp body w) = actionsSummary w.
Proof.
  unfold assign. destruct (fp =? "html"), (fp =? "css"), (fp =? "js"); reflexivity.
Qed.

(** A write with an empty content is skipped. *)
Lemma write_file_empty_skipped (backup : option string) (path : string) (w : Work) :
  codeCall backup (write_file path EmptyString) w
    = inl (push w "Skipped write_file: missing file_path or content").
Proof.
  rewrite codeCall_write_file. unfold writeFile, write_file.
  rewrite !field_call. cbn [content file_path truthy negb].
  now rewrite orb_true_r.
Qed.

(** C9, amended. A WriteFragment whose target is valid after the lenient
    mapping, whose content is not empty and which is no structure write with
    an external reference succeeds: the target fragment becomes the content,
    the other fragments stay as they are, and one line is added to the
    summary. *)
Theorem write_file_replaces_fragment (backup : option string) (path body : string)
    (w : Work) :
  validTarget path = true ->
  truthy (Some body) = true ->
  writesExternalRef (write_file path body) = false ->
  exists w',
    codeCall backup (write_file path body) w = inl w' /\
    fragment (mapFilePath path) w' = Some body /\
    (forall fp', fp' <> mapFilePath path -> fragment fp' w' = fragment fp' w) /\
    actionsSummary w'
      = (actionsSummary w ++ [("Wrote content to " ++ mapFilePath path ++ ".")%string])%list.
Proof.
  intros Hv Hb Hx. rewrite codeCall_write_file.
  assert (Hp : truthy (Some path) = true).
  { destruct path; [discriminate Hv | reflexivity]. }
  unfold writesExternalRef, writeFile, write_file in *.
  rewrite !field_call in *. cbn [content file_path str] in *.
  cbn [isTool call tool_name String.eqb Ascii.eqb Bool.eqb andb] in Hx.
  replace (isTool "write_file" (call "write_file"
             (mkParams (Some path) (Some body) None None None None))) with true in Hx
    by reflexivity.
  rewrite Hp, Hb in *. cbn [negb orb andb] in *.
  assert (Hnone : (if mapFilePath path =? "html"
                   then findExternalRef externalRefs body else None) = None).
  { destruct (mapFilePath path =? "html"); [|reflexivity].
    destruct (findExternalRef externalRefs body); [discriminate Hx | reflexivity]. }
  rewrite Hnone. eexists. split; [reflexivity|].
  split; [|split].
  - apply (fragment_assign (mapFilePath path) body (w)) in Hv.
    exact Hv.
  - intros fp' Hfp'. now apply fragment_assign_other.
  - cbn [push actionsSummary]. now rewrite actionsSummary_assign.
Qed.

(** The theorem at a style write under a conventional file name. *)
Lemma write_file_replaces_fragment_witness :
  exists w',
    codeCall None (write_file "Style.css" "p { color: red; }")
             (startWork (Sample.session None (Some "old") None)) = inl w' /\
    css w' = Some "p { color: red; }".
Proof.
  destruct (write_file_replaces_fragment None "Style.css" "p { color: red; }"
              (startWork (Sample.session None (Some "old") None))
              eq_refl eq_refl eq_refl) as (w' & H1 & H2 & _).
  exists w'. split; [exact H1 | exact H2].
Defined.

(** C9 as stated fails: a write of the empty string to a valid target
    leaves the fragment as it was. *)
Lemma write_file_empty_content_counterexample :
  validTarget "css_code" = true /\
  css_code (fst (execute Sample.env (Sample.session None (Some "p { color: red; }") None)
                   [write_file "css_code" EmptyString]))
    = Some "p { color: red; }" /\
  css_code (fst (execute Sample.env (Sample.session None (Some "p { color: red; }") None)
                   [write_file "css_code" EmptyString]))
    <> Some EmptyString.
Proof. repeat split. discriminate. Qed.

(** *** ReplaceRange *)

Lemma replaceLines_out_of_range (code body fp : string) (s e : Z) :
  outOfRange (Z.of_nat (lineCount code)) s e = true ->
  result (replaceLines code s e body fp) = code /\
  exists err, error (replaceLines code s e body fp) = Some err.
Proof.
  unfold outOfRange, replaceLines, lineCount. intros H.
  destruct ((s <? 1) || (e <? 1))%Z eqn:E1; [split; [reflexivity | eexists; reflexivity]|].
  destruct ((s >? Z.of_nat (List.length (split_nl code)))
            || (e >? Z.of_nat (List.length (split_nl code))))%Z eqn:E2;
    [split; [reflexivity | eexists; reflexivity]|].
  destruct (s >? e)%Z eqn:E3; [split; [reflexivity | eexists; reflexivity]|].
  apply orb_false_iff in E1 as [E1 _]. apply orb_false_iff in E2 as [_ E2].
  rewrite E1, E2 in H. discriminate.
Qed.

Lemma replaceLines_in_range_no_error (code body fp : string) (s e : Z) :
  outOfRange (Z.of_nat (lineCount code)) s e = false ->
  error (replaceLines code s e body fp) = None.
Proof.
  unfold outOfRange. intros H.
  apply orb_false_iff in H as [H H3]. apply orb_false_iff in H as [H1 H2].
  apply Z.ltb_ge in H1. rewrite Z.gtb_ltb in H2, H3. apply Z.ltb_ge in H2, H3.
  now rewrite replaceLines_ok_lines by lia.
Qed.

Lemma validTarget_truthy (path : string) :
  validTarget path = true -> truthy (Some path) = true.
Proof. destruct path; [discriminate | reflexivity]. Qed.

(** An out-of-range ReplaceRange on a fragment that is not empty: the
    fragments stay as they are and the one line added to the summary is the
    error of [replaceLines]. *)
Lemma replaceLinesCall_out_of_range (backup : option string) (path body : string)
    (s e : Z) (w : Work) (c : ascii) (code : string) :
  validTarget path = true ->
  fragment (mapFilePath path) w = Some (String c code) ->
  outOfRange (Z.of_nat (lineCount (String c code))) s e = true ->
  exists err,
    error (replaceLines (String c code) s e body (mapFilePath path)) = Some err /\
    replaceLinesCall backup (replace_lines path s e body) w
      = push w (replaceError (mapFilePath path) err).
Proof.
  intros Hv Hf Hr.
  destruct (replaceLines_out_of_range (String c code) body (mapFilePath path) s e Hr)
    as (_ & err & Herr).
  exists err. split; [exact Herr|].
  unfold replaceLinesCall, replace_lines. rewrite !field_call.
  cbn [file_path start_line end_line content str].
  rewrite (validTarget_truthy _ Hv).
  unfold validTarget in Hv. unfold fragment in Hf.
  unfold htmlBlock, cssBlock, jsBlock.
  destruct (mapFilePath path =? "html") eqn:E1.
  { rewrite Hf, Herr. reflexivity. }
  destruct (mapFilePath path =? "css") eqn:E2.
  { rewrite Hf, Herr. reflexivity. }
  destruct (mapFilePath path =? "js") eqn:E3; [|discriminate].
  rewrite Hf, Herr. reflexivity.
Qed.

(** C5 fails on an empty fragment: the range 5-6 is out of the bounds of the
    one empty line of the behavior fragment, and the line of the summary
    reports a replacement; so it does for a fragment that was never written. *)
Lemma replace_lines_on_empty_fragment :
  outOfRange (Z.of_nat (lineCount EmptyString)) 5 6 = true /\
  runStages Sample.env (Sample.session None None (Some EmptyString))
            [replace_lines "js_code" 5 6 "let x = 1;"]
    = inl (mkWork None None (Some EmptyString) None [] ["Replaced lines 5-6 in js."]) /\
  runStages Sample.env (Sample.session None None None)
            [replace_lines "css_code" 0 3 "a {}"]
    = inl (mkWork None None None None [] ["Replaced lines 0-3 in css."]).
Proof. repeat split. Qed.

(** *** The check after a ReplaceRange on the structure fragment *)

Lemma validateHTML_valid (html : string) :
  valid (validateHTML html) = hasAllWrappers html && tagsBalanced html.
Proof.
  unfold validateHTML, hasAllWrappers, tagsBalanced. cbn [valid].
  destruct (includes "<!DOCTYPE html>" html), (includes "<html" html),
    (includes "<head>" html), (includes "<body>" html); try reflexivity.
  cbn [app andb]. now destruct (_ =? _)%Z.
Qed.

(** A fragment as the assembler wants it, without a wrapper, never passes. *)
Lemma validateHTML_rejects_fragments (html : string) :
  Sandbox.validateFragment html = [] -> valid (validateHTML html) = false.
Proof.
  intros H. apply hasWrapper_validateFragment in H.
  rewrite validateHTML_valid. unfold Sandbox.hasWrapper in H. unfold hasAllWrappers.
  apply orb_false_iff in H as [H _]. apply orb_false_iff in H as [H _].
  apply orb_false_iff in H as [H _]. now rewrite H.
Qed.

(** When the check fails the structure fragment goes back to its value at
    the start of the batch, two lines are added to the summary, and the
    handler goes on with the next call. *)
Lemma replaceLinesCall_rollback (backup : option string) (path body : string)
    (s e : Z) (w : Work) (c : ascii) (code : string) :
  mapFilePath path = "html" ->
  html w = Some (String c code) ->
  outOfRange (Z.of_nat (lineCount (String c code))) s e = false ->
  valid (validateHTML (result (replaceLines (String c code) s e body "html"))) = false ->
  let w' := replaceLinesCall backup (replace_lines path s e body) w in
  html w' = backup /\ css w' = css w /\ js w' = js w /\
  exists warning,
    actionsSummary w'
      = (actionsSummary w
         ++ [warning; "Rolled back HTML to previous version due to validation failure"])%list.
Proof.
  intros Hp Hh Hr Hv w'. subst w'.
  assert (Ht : truthy (Some path) = true).
  { apply validTarget_truthy. unfold validTarget. now rewrite Hp. }
  unfold replaceLinesCall, replace_lines. rewrite !field_call.
  cbn [file_path start_line end_line content str]. rewrite Ht, Hp.
  unfold htmlBlock. cbn [String.eqb Ascii.eqb Bool.eqb]. rewrite Hh.
  rewrite (replaceLines_in_range_no_error _ body "html" _ _ Hr), Hv.
  cbn [html css js push set_html actionsSummary].
  repeat split. eexists. rewrite <- app_assoc. reflexivity.
Qed.

(** C1 fails on a fragment: replacing the first line of a balanced fragment
    by another opening tag leaves a fragment whose tags balance and which
    holds no wrapper, yet [validateHTML] rejects it for the missing wrappers,
    and the replacement is rolled back. *)
Lemma balanced_fragment_rolled_back :
  let code := Sample.balancedFragment in
  let r := replaceLines code 1 1 "<div id='board'>" "html" in
  error r = None /\
  tagsBalanced (result r) = true /\
  Sandbox.validateFragment (result r) = [] /\
  valid (validateHTML (result r)) = false /\
  runStages Sample.env (Sample.session (Some code) None None)
            [replace_lines "html_code" 1 1 "<div id='board'>"]
    = inl (mkWork (Some code) None None None []
             [ "WARNING: HTML validation failed after line replacement: Missing DOCTYPE declaration, Missing <html> tag, Missing <head> tag, Missing <body> tag";
               "Rolled back HTML to previous version due to validation failure" ]).
Proof. repeat split. Qed.

End Calls.

(** ** The cycle: targets that cannot be mapped *)

Section Targets.
Import Js Model Orchestrator Cycle.

Lemma errorResponse_is_error (message : string) :
  exists code text, errorResponse message = Error code text.
Proof.
  unfold errorResponse.
  destruct (_ || _); [eexists _, _; reflexivity|].
  destruct (_ || _); [eexists _, _; reflexivity|].
  destruct (includes _ _); eexists _, _; reflexivity.
Qed.

Lemma validateOperations_unmappable (ops : list ToolCall) :
  existsb unmappableWrite ops = true ->
  forall i, exists message, validateOperations i ops = inr message.
Proof.
  induction ops as [|op ops IH]; cbn [existsb validateOperations]; [discriminate|].
  intros H i. apply orb_true_iff in H as [H|H].
  - unfold unmappableWrite in H.
    destruct (tool_name op) as [t|] eqn:Et; [|discriminate].
    destruct (parameters op) as [p|] eqn:Ep; [|discriminate].
    apply andb_true_iff in H as [H Hn]. apply andb_true_iff in H as [Ht Hf].
    apply negb_true_iff in Hn.
    assert (Htr : truthy (Some t) = true).
    { apply String.eqb_eq in Ht. now subst t. }
    rewrite Htr. unfold isCodeTool. rewrite Ht, Hf. cbn [orb andb]. rewrite Hn.
    eexists. reflexivity.
  - destruct (truthy (tool_name op)); [|eexists; reflexivity].
    destruct (parameters op) as [p|]; [|eexists; reflexivity].
    destruct (IH H (S i)) as (m & Hm). rewrite Hm.
    destruct (isCodeTool (tool_name op) && truthy (file_path p)); [|eexists; reflexivity].
    destruct (existsb _ validPaths); eexists; reflexivity.
Qed.

(** C2. When an operation of the answer of the model is a WriteFragment
    with a target that the lenient mapping does not map to one of the three
    fragments, the validation of the orchestrator fails before the executor
    runs and before anything is written: the cycle answers an error, whatever
    the other operations are, and the row of the session, with its three
    fragments, is the one before the cycle. *)
Theorem unmappable_target_rejects_cycle (stored : bool) (env : Executor.Env)
    (session : Session) (userPrompt : string) (ai : Plan) :
  existsb unmappableWrite (operations ai) = true ->
  exists code message,
    runOrchestrationCycle stored env session userPrompt ai = (session, Error code message).
Proof.
  intros H. unfold runOrchestrationCycle, orchestrate.
  destruct (validateOperations_unmappable _ H 0) as (m & Hm). rewrite Hm.
  destruct (errorResponse_is_error m) as (code & text & Hr). rewrite Hr.
  now exists code, text.
Qed.

(** The theorem at the batch of the design document. *)
Lemma unmappable_target_rejects_cycle_witness :
  exists code message,
    runOrchestrationCycle true Sample.env (Sample.session None None (Some "let y = 1;"))
      "add a ship"
      (mkPlan None None
         [write_file "js_code" "let y = 2;"; write_file "sprites/ship.js" "let ship;"])
    = (Sample.session None None (Some "let y = 1;"), Error code message).
Proof.
  apply unmappable_target_rejects_cycle. reflexivity.
Defined.

(** A write whose target is the empty text has no target for the
    orchestrator, which checks a path only when there is one; the executor
    skips it for a missing parameter and the rest of the batch is applied. *)
Lemma empty_target_is_missing_parameter :
  existsb (String.eqb (normalizeFilePath EmptyString)) validPaths = false /\
  runOrchestrationCycle true Sample.env (Sample.session None None (Some "let y = 1;"))
    "add a ship"
    (mkPlan None None
       [write_file EmptyString "let ship;"; write_file "js_code" "let y = 2;"])
  = (mkSession None None (Some "let y = 2;") None
       [ mkChat "user" "make a game"; mkChat "user" "add a ship";
         mkChat "assistant" "Working on it! ";
         mkChat "assistant" "I've updated your game with the requested changes." ]
       "coding_complete",
     Ok200 "I've updated your game with the requested changes.").
Proof. split; reflexivity. Qed.

(** The executor alone does not reject a target it cannot map: the write
    changes no fragment and the batch is committed. *)
Lemma executor_ignores_unmappable_target :
  Executor.runStages Sample.env (Sample.session None None (Some "let y = 1;"))
    [write_file "sprites/ship.js" "let ship;"]
  = inl (Executor.mkWork None None (Some "let y = 1;") None []
           ["Wrote content to sprites/ship.js."]).
Proof. reflexivity. Qed.

End Targets.

(** ** The executor: the order of the stages *)

Section Stages.
Import Js Model Executor.

(** The image stage leaves the fragments alone and adds one line for each
    image call. *)
Lemma stage1_spec (env : Env) (calls : list ToolCall) :
  forall n w,
    let w' := stage1 env calls n w in
    html w' = html w /\ css w' = css w /\ js w' = js w /\
    exists lines,
      actionsSummary w' = (actionsSummary w ++ lines)%list /\
      List.length lines = List.length calls.
Proof.
  induction calls as [|tc calls IH]; intros n w; cbn [stage1].
  - repeat split. exists []. now rewrite app_nil_r.
  - destruct (negb (truthy (field name tc)) || negb (truthy (field prompt tc))).
    + destruct (IH n (push w "Skipped an image generation call due to missing parameters"))
        as (H1 & H2 & H3 & lines & H4 & H5).
      repeat split; try assumption.
      eexists (_ :: lines). cbn [push actionsSummary] in H4.
      rewrite H4, <- app_assoc. split; [reflexivity | simpl; now rewrite H5].
    + destruct (generateAndStoreImage env n _ _) as [url|message].
      * match goal with |- context [stage1 env calls (S n) ?w0] =>
          destruct (IH (S n) w0) as (H1 & H2 & H3 & lines & H4 & H5) end.
        repeat split; try assumption.
        eexists (_ :: lines). cbn [push recordImage actionsSummary] in H4.
        rewrite H4, <- app_assoc. split; [reflexivity | simpl; now rewrite H5].
      * match goal with |- context [stage1 env calls (S n) ?w0] =>
          destruct (IH (S n) w0) as (H1 & H2 & H3 & lines & H4 & H5) end.
        repeat split; try assumption.
        eexists (_ :: lines). cbn [push actionsSummary] in H4.
        rewrite H4, <- app_assoc. split; [reflexivity | simpl; now rewrite H5].
Qed.

Lemma substImage_frame (env : Env) (w w' : Work) (entry : string * string) :
  substImage env w entry = inl w' ->
  assets w' = assets w /\ imageUrlMap w' = imageUrlMap w /\
  actionsSummary w' = actionsSummary w.
Proof.
  unfold substImage, substLiteral.
  destruct (literal (fst entry) (snd entry)).
  - intros [= <-]. generalize (namePatterns (fst entry)). intros pats. revert w.
    induction pats as [|pat pats IH]; intros w; [repeat split|].
    cbn [fold_left]. destruct (IH (substPattern (snd entry) w pat)) as (A & B & C).
    repeat split; assumption.
  - destruct (compileAll env (patternSources (fst entry))) as [rs|]; [|discriminate].
    intros [= <-]. revert w.
    induction rs as [|r rs IH]; intros w; [repeat split|].
    cbn [fold_left]. destruct (IH (substReplacer (snd entry) w r)) as (A & B & C).
    repeat split; assumption.
Qed.

Lemma substAll_frame (env : Env) (entries : list (string * string)) :
  forall w w',
    substAll env entries w = inl w' ->
    assets w' = assets w /\ imageUrlMap w' = imageUrlMap w /\
    actionsSummary w' = actionsSummary w.
Proof.
  induction entries as [|entry entries IH]; intros w w'; cbn [substAll].
  - intros [= <-]. repeat split.
  - destruct (substImage env w entry) as [w1|] eqn:E; [|discriminate].
    intros H. destruct (substImage_frame _ _ _ _ E) as (A & B & C).
    destruct (IH _ _ H) as (A' & B' & C'). repeat split; congruence.
Qed.

(** The substitution stage adds one line when an image was generated and
    none otherwise, and does nothing at all when none was. *)
Lemma stage2_frame (env : Env) (w w' : Work) :
  stage2 env w = inl w' ->
  assets w' = assets w /\ imageUrlMap w' = imageUrlMap w /\
  (imageUrlMap w = [] -> w' = w) /\
  exists lines,
    actionsSummary w' = (actionsSummary w ++ lines)%list /\
    List.length lines = match imageUrlMap w with [] => 0 | _ :: _ => 1 end.
Proof.
  unfold stage2. destruct (imageUrlMap w) as [|en entries] eqn:E.
  - intros [= <-]. repeat split; try assumption. exists []. now rewrite app_nil_r.
  - destruct (substAll env (en :: entries) w) as [w1|] eqn:H; [|discriminate].
    intros [= <-]. destruct (substAll_frame _ _ _ _ H) as (A & B & C).
    cbn [push assets imageUrlMap actionsSummary].
    split; [exact A|]. split; [congruence|]. split; [discriminate|].
    eexists [_]. rewrite C. split; reflexivity.
Qed.

Lemma stage2_nothing (env : Env) (w : Work) :
  imageUrlMap w = [] -> stage2 env w = inl w.
Proof. intros E. unfold stage2. now rewrite E. Qed.

(** The code calls run one after the other: the calls of [c2] start from
    what the calls of [c1] left. *)
Lemma stage3_app (backup : option string) (c1 c2 : list ToolCall) :
  forall w,
    stage3 backup (c1 ++ c2) w =
    match stage3 backup c1 w with
    | inl w' => stage3 backup c2 w'
    | inr message => inr message
    end.
Proof.
  induction c1 as [|tc c1 IH]; intros w; [reflexivity|].
  cbn [app stage3]. destruct (codeCall backup tc w); [apply IH | reflexivity].
Qed.

Lemma replaceLinesCall_summary (backup : option string) (tc : ToolCall) (w : Work) :
  exists lines,
    actionsSummary (replaceLinesCall backup tc w) = (actionsSummary w ++ lines)%list /\
    1 <= List.length lines.
Proof.
  unfold replaceLinesCall.
  destruct (truthy (field file_path tc)); [|eexists [_]; split; [reflexivity | simpl; lia]].
  destruct (field start_line tc) as [s|]; [|eexists [_]; split; [reflexivity | simpl; lia]].
  destruct (field end_line tc) as [e|]; [|eexists [_]; split; [reflexivity | simpl; lia]].
  destruct (field content tc) as [body|]; [|eexists [_]; split; [reflexivity | simpl; lia]].
  unfold htmlBlock, cssBlock, jsBlock.
  destruct (mapFilePath _ =? "html"), (mapFilePath _ =? "css"), (mapFilePath _ =? "js");
    repeat match goal with
    | |- context [match html ?x with _ => _ end] => destruct (html x) as [[|? ?]|] eqn:?
    | |- context [match css ?x with _ => _ end] => destruct (css x) as [[|? ?]|] eqn:?
    | |- context [match js ?x with _ => _ end] => destruct (js x) as [[|? ?]|] eqn:?
    | |- context [match Lines.error ?x with _ => _ end] => destruct (Lines.error x) eqn:?
    | |- context [if valid ?x then _ else _] => destruct (valid x) eqn:?
    end;
    cbn [push set_html set_css set_js actionsSummary];
    try (eexists [_]; split; [reflexivity | simpl; lia]);
    try (eexists [_; _]; split; [rewrite <- app_assoc; reflexivity | simpl; lia]).
Qed.

Lemma codeCall_summary (backup : option string) (tc : ToolCall) (w w' : Work) :
  codeCall backup tc w = inl w' ->
  exists lines,
    actionsSummary w' = (actionsSummary w ++ lines)%list /\ 1 <= List.length lines.
Proof.
  unfold codeCall.
  destruct (isTool "write_file" tc).
  - unfold writeFile. destruct (_ || _).
    + intros [= <-]. eexists [_]. split; [reflexivity | simpl; lia].
    + destruct (if _ =? "html" then _ else None); [discriminate|].
      intros [= <-]. eexists [_]. cbn [push actionsSummary].
      rewrite actionsSummary_assign. split; [reflexivity | simpl; lia].
  - destruct (isTool "replace_lines" tc); intros [= <-].
    + apply replaceLinesCall_summary.
    + eexists [_]. split; [reflexivity | simpl; lia].
Qed.

(** Every code call adds at least one line to the summary, after the lines
    that were there. *)
Lemma stage3_summary (backup : option string) (calls : list ToolCall) :
  forall w w',
    stage3 backup calls w = inl w' ->
    exists lines,
      actionsSummary w' = (actionsSummary w ++ lines)%list /\
      List.length calls <= List.length lines.
Proof.
  induction calls as [|tc calls IH]; intros w w'; cbn [stage3].
  - intros [= <-]. exists []. rewrite app_nil_r. split; [reflexivity | simpl; lia].
  - destruct (codeCall backup tc w) as [w1|] eqn:E; [|discriminate].
    intros H. destruct (codeCall_summary _ _ _ _ E) as (l1 & H1 & H2).
    destruct (IH _ _ H) as (l2 & H3 & H4).
    exists (l1 ++ l2)%list. rewrite H3, H1, <- app_assoc.
    split; [reflexivity | rewrite length_app; simpl; lia].
Qed.

Lemma filter_filter_same {A} (f : A -> bool) (l : list A) :
  filter f (filter f l) = filter f l.
Proof.
  induction l as [|x l IH]; [reflexivity|]. simpl.
  destruct (f x) eqn:E; simpl; [rewrite E|]; now rewrite IH.
Qed.

Lemma filter_filter_neg {A} (f : A -> bool) (l : list A) :
  filter f (filter (fun x => negb (f x)) l) = [] /\
  filter (fun x => negb (f x)) (filter f l) = [].
Proof.
  induction l as [|x l [IH1 IH2]]; [split; reflexivity|]. simpl.
  destruct (f x) eqn:E; simpl; rewrite ?E; simpl; now split.
Qed.

(** The result of a batch depends on the image calls and on the code calls,
    each kind in the order of the list, and not on how they are mixed. *)
Lemma runStages_partition (env : Env) (session : Session) (toolCalls : list ToolCall) :
  runStages env session toolCalls
    = runStages env session
        (filter isImageCall toolCalls
         ++ filter (fun c => negb (isImageCall c)) toolCalls).
Proof.
  unfold runStages. rewrite !filter_app.
  rewrite !filter_filter_same.
  destruct (filter_filter_neg isImageCall toolCalls) as [H1 H2].
  now rewrite H1, H2, app_nil_r.
Qed.

(** What a code call leaves, fragment by fragment: what [appliedHtml] and
    [applied] say of the operation. *)
Lemma writeFile_applied (tc : ToolCall) (w w' : Work) :
  isTool "write_file" tc = true ->
  writeFile tc w = inl w' ->
  (forall backup, html w' = Observe.appliedHtml backup (html w) tc) /\
  css w' = Observe.applied "css" (css w) tc /\
  js w' = Observe.applied "js" (js w) tc /\
  assets w' = assets w.
Proof.
  intros Ew. unfold writeFile, Observe.appliedHtml, Observe.applied, Observe.writes,
    Observe.replaces, Observe.targetOf.
  rewrite Ew. cbn [andb].
  destruct (truthy (field file_path tc)); cbn [negb orb andb];
    [|intros [= <-]; repeat split].
  destruct (truthy (field content tc)); cbn [negb orb andb];
    [|intros [= <-]; repeat split].
  set (fp := mapFilePath (str (field file_path tc))).
  set (body := str (field content tc)).
  destruct (String.eqb_spec fp "html") as [E|E].
  - destruct (findExternalRef externalRefs body); [discriminate|].
    intros [= <-]. rewrite E. unfold assign. cbn. repeat split.
  - intros [= <-]. unfold assign.
    destruct (String.eqb_spec fp "css") as [E1|E1];
      destruct (String.eqb_spec fp "js") as [E2|E2];
      try (rewrite E1 in E2; discriminate);
      destruct (fp =? "html") eqn:E3;
      try (apply String.eqb_eq in E3; contradiction);
      cbn; repeat split.
Qed.

Lemma replaceLinesCall_applied (backup : option string) (tc : ToolCall) (w : Work) :
  isTool "write_file" tc = false ->
  isTool "replace_lines" tc = true ->
  let w' := replaceLinesCall backup tc w in
  html w' = Observe.appliedHtml backup (html w) tc /\
  css w' = Observe.applied "css" (css w) tc /\
  js w' = Observe.applied "js" (js w) tc /\
  assets w' = assets w.
Proof.
  intros Ew Er. unfold replaceLinesCall, Observe.appliedHtml, Observe.applied,
    Observe.writes, Observe.replaces, Observe.targetOf.
  rewrite Ew, Er. cbn [andb].
  destruct (truthy (field file_path tc)); cbn [andb]; [|repeat split].
  destruct (field start_line tc) as [s|];
    [|repeat split; destruct (_ =? _); reflexivity].
  destruct (field end_line tc) as [e|];
    [|repeat split; destruct (_ =? _); reflexivity].
  destruct (field content tc) as [body|];
    [|repeat split; destruct (_ =? _); reflexivity].
  set (fp := mapFilePath (str (field file_path tc))).
  unfold htmlBlock, cssBlock, jsBlock.
  destruct (String.eqb_spec fp "html") as [E|E].
  - rewrite E. cbn [String.eqb Ascii.eqb Bool.eqb andb].
    destruct (html w) as [[|c code]|] eqn:Eh;
      [repeat split; cbn [html push]; now rewrite ?Eh |
       | repeat split; cbn [html push]; now rewrite ?Eh].
    destruct (Lines.error (Lines.replaceLines (String c code) s e body "html"));
      [repeat split; cbn [html push]; now rewrite ?Eh|].
    destruct (valid (validateHTML _)); repeat split.
  - destruct (fp =? "html") eqn:E0; [apply String.eqb_eq in E0; contradiction|].
    destruct (String.eqb_spec fp "css") as [E1|E1].
    + rewrite E1. cbn [String.eqb Ascii.eqb Bool.eqb andb].
      destruct (css w) as [[|c code]|] eqn:Eh;
        [repeat split; cbn [css push]; now rewrite ?Eh |
         | repeat split; cbn [css push]; now rewrite ?Eh].
      destruct (Lines.error (Lines.replaceLines (String c code) s e body "css"));
        repeat split; cbn [css push]; now rewrite ?Eh.
    + destruct (fp =? "css") eqn:E1'; [apply String.eqb_eq in E1'; contradiction|].
      destruct (String.eqb_spec fp "js") as [E2|E2].
      * rewrite E2. cbn [String.eqb Ascii.eqb Bool.eqb andb].
        destruct (js w) as [[|c code]|] eqn:Eh;
          [repeat split; cbn [js push]; now rewrite ?Eh |
           | repeat split; cbn [js push]; now rewrite ?Eh].
        destruct (Lines.error (Lines.replaceLines (String c code) s e body "js"));
          repeat split; cbn [js push]; now rewrite ?Eh.
      * destruct (fp =? "js") eqn:E2'; [apply String.eqb_eq in E2'; contradiction|].
        repeat split.
Qed.

Lemma codeCall_applied (backup : option string) (tc : ToolCall) (w w' : Work) :
  codeCall backup tc w = inl w' ->
  html w' = Observe.appliedHtml backup (html w) tc /\
  css w' = Observe.applied "css" (css w) tc /\
  js w' = Observe.applied "js" (js w) tc /\
  assets w' = assets w.
Proof.
  unfold codeCall. destruct (isTool "write_file" tc) eqn:Ew.
  - intros H. destruct (writeFile_applied tc w w' Ew H) as (A & B & C & D).
    repeat split; auto.
  - destruct (isTool "replace_lines" tc) eqn:Er.
    + intros [= <-]. apply replaceLinesCall_applied; assumption.
    + intros [= <-]. unfold Observe.appliedHtml, Observe.applied, Observe.writes,
        Observe.replaces. rewrite Ew, Er. repeat split.
Qed.

(** The code stage is the operations of the list applied one after the
    other, each to what the one before left. *)
Lemma stage3_applied (backup : option string) (calls : list ToolCall) :
  forall w w',
    stage3 backup calls w = inl w' ->
    html w' = fold_left (Observe.appliedHtml backup) calls (html w) /\
    css w' = fold_left (Observe.applied "css") calls (css w) /\
    js w' = fold_left (Observe.applied "js") calls (js w) /\
    assets w' = assets w.
Proof.
  induction calls as [|tc calls IH]; intros w w'; cbn [stage3 fold_left].
  - intros [= <-]. repeat split.
  - destruct (codeCall backup tc w) as [w1|] eqn:E; [|discriminate].
    intros H. destruct (codeCall_applied _ _ _ _ E) as (A & B & C & D).
    destruct (IH _ _ H) as (A' & B' & C' & D').
    rewrite A', B', C', D', A, B, C, D. repeat split.
Qed.

(** A code stage that throws has run the calls before the one that
    throws. *)
Lemma stage3_fails (backup : option string) (calls : list ToolCall) :
  forall w message,
    stage3 backup calls w = inr message ->
    exists pre tc post w',
      calls = (pre ++ tc :: post)%list /\
      stage3 backup pre w = inl w' /\ codeCall backup tc w' = inr message.
Proof.
  induction calls as [|tc calls IH]; intros w message; cbn [stage3]; [discriminate|].
  destruct (codeCall backup tc w) as [w1|m] eqn:E.
  - intros H. destruct (IH _ _ H) as (pre & tc' & post & w' & -> & Hp & Hc).
    exists (tc :: pre), tc', post, w'. cbn [List.app stage3]. rewrite E. now repeat split.
  - intros [= <-]. exists [], tc, calls, w. now repeat split.
Qed.

(** C4. The order of the stages of a batch is fixed, wherever the image
    calls stand in the list. First every image call is handled, on the
    stored fragments, which it leaves as they are, with one line of the
    summary for each call (generated, failed or skipped). Then the
    placeholders are replaced, in the three fragments the image stage
    left. Only then are the code operations applied, to the fragments the
    replacement left: when the batch goes through, each fragment at the
    end is the result of applying the writes and line replacements of the
    list to it, one after the other in the order of the list, each to what
    the one before left. When the batch fails, either the replacement has
    thrown and no code operation has run, or a code operation has thrown
    after the ones before it in the list were applied, in that order, to
    what the replacement left. The batch with its image calls moved to the
    front gives the same. *)
Theorem stages_run_in_order (env : Env) (session : Session) (toolCalls : list ToolCall) :
  let images := filter isImageCall toolCalls in
  let code := filter (fun c => negb (isImageCall c)) toolCalls in
  let backup := html_code session in
  let w1 := stage1 env images 0 (startWork session) in
  (Observe.fragments w1 = (html_code session, css_code session, js_code session) /\
   List.length (actionsSummary w1) = List.length images) /\
  match runStages env session toolCalls with
  | inl w =>
      exists w2,
        stage2 env w1 = inl w2 /\
        html w = fold_left (Observe.appliedHtml backup) code (html w2) /\
        css w = fold_left (Observe.applied "css") code (css w2) /\
        js w = fold_left (Observe.applied "js") code (js w2) /\
        assets w = assets w1
  | inr message =>
      stage2 env w1 = inr message \/
      exists w2 pre tc post w',
        stage2 env w1 = inl w2 /\
        code = (pre ++ tc :: post)%list /\
        stage3 backup pre w2 = inl w' /\
        html w' = fold_left (Observe.appliedHtml backup) pre (html w2) /\
        css w' = fold_left (Observe.applied "css") pre (css w2) /\
        js w' = fold_left (Observe.applied "js") pre (js w2) /\
        codeCall backup tc w' = inr message
  end /\
  runStages env session (images ++ code) = runStages env session toolCalls.
Proof.
  intros images code backup w1.
  destruct (stage1_spec env images 0 (startWork session)) as (H1 & H2 & H3 & l1 & H4 & H5).
  fold w1 in H1, H2, H3, H4.
  split; [split|split].
  - unfold Observe.fragments. now rewrite H1, H2, H3.
  - rewrite H4. cbn [startWork actionsSummary app]. exact H5.
  - unfold runStages. fold images code backup w1.
    destruct (stage2 env w1) as [w2|m2] eqn:E2; [|now left].
    destruct (stage3 backup code w2) as [w|message] eqn:E3.
    + exists w2. destruct (stage3_applied _ _ _ _ E3) as (A & B & C & D).
      destruct (stage2_frame _ _ _ E2) as (F & _).
      repeat split; try assumption. congruence.
    + right. destruct (stage3_fails _ _ _ _ E3) as (pre & tc & post & w' & Hc & Hp & Ht).
      exists w2, pre, tc, post, w'.
      destruct (stage3_applied _ _ _ _ Hp) as (A & B & C & _).
      repeat split; assumption.
  - unfold images, code. now rewrite <- runStages_partition.
Qed.

(** The theorem at a batch whose write and line replacement come before
    the image they name: the image is generated first, its placeholders are
    replaced in the stored fragments, and the operations run afterwards on
    the fragments with the address in them, the second on what the first
    wrote. *)
Lemma stages_run_in_order_witness :
  let session := Sample.session None (Some ".ship { background: 'ship.png'; }")
                                (Some "load({{ship}});") in
  let batch := [write_file "js_code" ("a = 1;" ++ str1 nl ++ "img.src = 'ship.png';");
                replace_lines "js_code" 1 1 "a = 2;";
                generate_image "ship" "a ship"] in
  let w := mkWork None (Some ".ship { background: url('https://x/ship.png'); }")
             (Some ("a = 2;" ++ str1 nl ++ "img.src = 'ship.png';"))
             (Some ["https://x/ship.png"])
             [("ship", "https://x/ship.png")]
             [ "Generated image 'ship' at https://x/ship.png";
               "Replaced 1 image placeholders in code with generated URLs.";
               "Wrote content to js.";
               "Replaced lines 1-1 in js." ] in
  runStages Sample.env session batch = inl w
  /\ exists w2,
       stage2 Sample.env
         (stage1 Sample.env (filter isImageCall batch) 0 (startWork session)) = inl w2
       /\ js w2 = Some "load('https://x/ship.png');"
       /\ js w = fold_left (Observe.applied "js")
                   (filter (fun c => negb (isImageCall c)) batch) (js w2).
Proof.
  intros session batch w.
  assert (H : runStages Sample.env session batch = inl w) by reflexivity.
  split; [exact H|].
  destruct (stages_run_in_order Sample.env session batch) as (_ & R & _).
  rewrite H in R. destruct R as (w2 & E & _ & _ & J & _).
  exists w2. split; [exact E|]. split; [|exact J].
  vm_compute in E. injection E as <-. reflexivity.
Defined.

End Stages.

(** ** Placeholder substitution *)

Section RegexFacts.
Import Js Regex Placeholder.

Lemma strip_iff (w s r : string) : strip w s = Some r <-> s = w ++ r.
Proof.
  revert s; induction w as [|c w IH]; intros s; simpl.
  - split; [now intros [= ->] | now intros ->].
  - destruct s as [|d s]; [split; discriminate|].
    destruct (Ascii.eqb c d) eqn:E.
    + apply Ascii.eqb_eq in E. subst d. rewrite IH. split; [now intros -> | now intros [= ->]].
    + split; [discriminate|]. intros [= -> _]. now rewrite Ascii.eqb_refl in E.
Qed.

Lemma strip_app (a b s : string) :
  strip (a ++ b) s = match strip a s with Some r => strip b r | None => None end.
Proof.
  revert s; induction a as [|c a IH]; intros s; simpl; [reflexivity|].
  destruct s as [|d s]; [reflexivity|]. destruct (Ascii.eqb c d); [apply IH | reflexivity].
Qed.

Lemma strip_same (a r : string) : strip a (a ++ r) = Some r.
Proof. now apply strip_iff. Qed.

Lemma rmatch_Lit (w : string) (cap : option ascii) (s : string)
    (k : option ascii -> string -> option string) :
  rmatch (Lit w) cap s k = match strip w s with Some r => k cap r | None => None end.
Proof.
  revert s; induction w as [|c w IH]; intros s; simpl; [reflexivity|].
  destruct s as [|d s]; [reflexivity|]. destruct (Ascii.eqb c d); [apply IH | reflexivity].
Qed.

(** The expression of the braces matches the text of the placeholder. *)
Lemma matchAt_curly (nm s : string) :
  matchAt (Seqs [Lit "{{"; Lit nm; Lit "}}"]) s = strip ("{{" ++ nm ++ "}}") s.
Proof.
  unfold matchAt. cbn [Seqs rmatch]. rewrite rmatch_Lit, (strip_app "{{" (nm ++ "}}") s).
  destruct (strip "{{" s) as [r1|]; [|reflexivity].
  rewrite rmatch_Lit, (strip_app nm "}}" r1).
  destruct (strip nm r1) as [r2|]; [|reflexivity]. rewrite rmatch_Lit.
  now destruct (strip "}}" r2).
Qed.

(** The expressions of the quoted forms match a quote, the name, the
    ending and the same quote again. *)
Lemma matchAt_quoted (nm ending s : string) :
  matchAt (Seqs [Cap isQuote; Lit nm; Lit ending; Back]) s =
  match s with
  | String q s' => if isQuote q then strip (nm ++ ending ++ str1 q) s' else None
  | EmptyString => None
  end.
Proof.
  unfold matchAt. cbn [Seqs rmatch]. destruct s as [|q s]; [reflexivity|].
  destruct (isQuote q); [|reflexivity].
  rewrite rmatch_Lit, (strip_app nm (ending ++ str1 q) s).
  destruct (strip nm s) as [r1|]; [|reflexivity].
  rewrite rmatch_Lit, (strip_app ending (str1 q) r1).
  destruct (strip ending r1) as [r2|]; [|reflexivity].
  cbn [rmatch strip str1]. destruct r2 as [|c r2]; [reflexivity|].
  now destruct (Ascii.eqb q c).
Qed.

Lemma matchAt_quoted_bare (nm s : string) :
  matchAt (Seqs [Cap isQuote; Lit nm; Back]) s =
  matchAt (Seqs [Cap isQuote; Lit nm; Lit EmptyString; Back]) s.
Proof. reflexivity. Qed.

Lemma replaceFrom_skip (r : re) (repl m rest : string) :
  replaceFrom r repl (length m) (m ++ rest) = replaceFrom r repl 0 rest.
Proof. induction m as [|c m IH]; [reflexivity | exact IH]. Qed.

(** A match at the head is replaced and the scan goes on after it. *)
Lemma replaceAll_hit (r : re) (repl : string) (c : ascii) (m rest : string) :
  matchAt r (String c m ++ rest) = Some rest ->
  replaceAll r repl (String c m ++ rest) = repl ++ replaceAll r repl rest.
Proof.
  intros H. unfold replaceAll. cbn [append replaceFrom]. unfold matchLen.
  cbn [append] in H. rewrite H. cbn [length]. rewrite length_append.
  replace (S (length m + length rest) - length rest - 1) with (length m) by lia.
  now rewrite replaceFrom_skip.
Qed.

(** Without a match at the head the character is kept. *)
Lemma replaceAll_miss (r : re) (repl : string) (c : ascii) (s : string) :
  matchAt r (String c s) = None ->
  replaceAll r repl (String c s) = String c (replaceAll r repl s).
Proof.
  intros H. unfold replaceAll. cbn [replaceFrom]. unfold matchLen. now rewrite H.
Qed.

End RegexFacts.

(** ** The references the executor finds *)

Section References.
Import Js Regex Placeholder Model Executor Reference.

Lemma spaces_back (k : string -> option string) (s : string) :
  k s <> None -> spaces k s <> None.
Proof.
  intros H. destruct s as [|c1 [|c2 [|c3 s3]]]; cbn [spaces];
    repeat match goal with
           | |- context [if ?b then _ else _] => destruct b
           | |- context [match ?x with Some _ => _ | None => _ end] => destruct x eqn:?
           end; try assumption; try discriminate; congruence.
Qed.

Lemma spaces_some (k : string -> option string) (rest : string) :
  k rest <> None ->
  forall n sp, length sp <= n -> trimStart sp = EmptyString ->
    spaces k (sp ++ rest) <> None.
Proof.
  intros H. induction n as [|n IH]; intros sp Hn Hs.
  - destruct sp; [|simpl in Hn; lia]. now apply spaces_back.
  - destruct sp as [|c1 s1]; [now apply spaces_back|].
    cbn [trimStart] in Hs. cbn [append spaces]. simpl in Hn.
    destruct (isAsciiSpace c1).
    { specialize (IH s1 ltac:(lia) Hs). now destruct (spaces k (s1 ++ rest)). }
    destruct s1 as [|c2 s2]; [discriminate|]. cbn [append]. simpl in Hn.
    destruct (space2 c1 c2).
    { specialize (IH s2 ltac:(lia) Hs). now destruct (spaces k (s2 ++ rest)). }
    destruct s2 as [|c3 s3]; [discriminate|]. cbn [append]. simpl in Hn.
    destruct (space3 c1 c2 c3); [|discriminate].
    specialize (IH s3 ltac:(lia) Hs). now destruct (spaces k (s3 ++ rest)).
Qed.

Lemma spaceAt_white (sp rest : string) :
  isWhite sp = true ->
  exists sp', spaceAt (sp ++ rest) = Some (sp' ++ rest) /\ trimStart sp' = EmptyString.
Proof.
  unfold isWhite. destruct sp as [|c1 s1]; [discriminate|].
  cbn [trimStart append spaceAt]. destruct (isAsciiSpace c1).
  { intros H. exists s1. split; [reflexivity|]. now destruct (trimStart s1). }
  destruct s1 as [|c2 s2]; [discriminate|]. cbn [append]. destruct (space2 c1 c2).
  { intros H. exists s2. split; [reflexivity|]. now destruct (trimStart s2). }
  destruct s2 as [|c3 s3]; [discriminate|]. cbn [append].
  destruct (space3 c1 c2 c3); [|discriminate].
  intros H. exists s3. split; [reflexivity|]. now destruct (trimStart s3).
Qed.

(** [\s+] takes a run of white space, or more of it. *)
Lemma rmatch_SpacePlus (sp rest : string) (cap : option ascii)
    (k : option ascii -> string -> option string) :
  isWhite sp = true -> k cap rest <> None ->
  rmatch SpacePlus cap (sp ++ rest) k <> None.
Proof.
  intros Hs Hk. unfold SpacePlus. cbn [rmatch].
  destruct (spaceAt_white sp rest Hs) as (sp' & E & Ht). rewrite E.
  now apply (spaces_some (k cap) rest Hk (length sp')).
Qed.

Lemma star_some (p : ascii -> bool) (k : string -> option string) (a rest : string) :
  allb p a = true -> k rest <> None -> star p k (a ++ rest) <> None.
Proof.
  intros Ha Hk. induction a as [|c a IH]; cbn [append].
  - destruct rest as [|c r]; cbn [star]; [assumption|].
    destruct (p c); [|assumption]. now destruct (star p k r).
  - cbn [allb] in Ha. apply andb_true_iff in Ha as [Hc Ha]. cbn [star]. rewrite Hc.
    specialize (IH Ha). now destruct (star p k (a ++ rest)).
Qed.

Lemma rmatch_Plus (p : ascii -> bool) (a rest : string) (cap : option ascii)
    (k : option ascii -> string -> option string) :
  a <> EmptyString -> allb p a = true -> k cap rest <> None ->
  rmatch (Plus p) cap (a ++ rest) k <> None.
Proof.
  intros Hn Ha Hk. destruct a as [|c a]; [contradiction|].
  cbn [allb] in Ha. apply andb_true_iff in Ha as [Hc Ha].
  unfold Plus. cbn [rmatch append]. rewrite Hc. now apply star_some.
Qed.

Lemma rmatch_LitI (w : string) (cap : option ascii) (s : string)
    (k : option ascii -> string -> option string) :
  rmatch (LitI w) cap s k = match stripI w s with Some r => k cap r | None => None end.
Proof.
  revert s; induction w as [|c w IH]; intros s; simpl; [reflexivity|].
  destruct s as [|d s]; [reflexivity|].
  destruct (Ascii.eqb (lower c) (lower d)); [apply IH | reflexivity].
Qed.

Lemma stripI_same (w r : string) : stripI w (w ++ r) = Some r.
Proof.
  induction w as [|c w IH]; [reflexivity|]. cbn [append stripI].
  now rewrite Ascii.eqb_refl.
Qed.

Lemma stripI_app (a b s : string) :
  stripI (a ++ b) s = match stripI a s with Some r => stripI b r | None => None end.
Proof.
  revert s; induction a as [|c a IH]; intros s; simpl; [reflexivity|].
  destruct s as [|d s]; [reflexivity|].
  destruct (Ascii.eqb (lower c) (lower d)); [apply IH | reflexivity].
Qed.

(** A word without a full stop that starts a name followed by a full
    stop starts the name. *)
Lemma stripI_name (w name rest : string) :
  allb (fun c => negb (Ascii.eqb (lower c) "."%char)) w = true ->
  stripI w (name ++ String "."%char rest) <> None -> stripI w name <> None.
Proof.
  revert name. induction w as [|c w IH]; intros name Hw; [intros _; cbn; discriminate|].
  cbn [allb] in Hw. apply andb_true_iff in Hw as [Hc Hw].
  destruct name as [|d name]; cbn [append stripI].
  - change (lower "."%char) with "."%char. apply negb_true_iff in Hc. now rewrite Hc.
  - destruct (Ascii.eqb (lower c) (lower d)); [now apply IH | trivial].
Qed.

Lemma strip_stripI (w s r : string) : strip w s = Some r -> stripI w s = Some r.
Proof. intros H. apply strip_iff in H. subst s. apply stripI_same. Qed.

(** The address of a name that is not on the network passes the test of
    the expressions. *)
Lemma network_ahead (name rest : string) (cap : option ascii) :
  isNetwork name = false ->
  rmatch (Seqs [LitI "http"; Opt (LitI "s"); Lit "://"]) cap
    (name ++ String "."%char rest) (fun _ s' => Some s') = None.
Proof.
  intros H. unfold isNetwork, startsI in H. apply orb_false_iff in H as [H1 H2].
  set (s := name ++ String "."%char rest).
  assert (N1 : stripI "http://" s = None).
  { destruct (stripI "http://" s) eqn:E; [|reflexivity]. exfalso.
    apply (stripI_name "http://" name rest eq_refl); [fold s; congruence|].
    now destruct (stripI "http://" name). }
  assert (N2 : stripI "https://" s = None).
  { destruct (stripI "https://" s) eqn:E; [|reflexivity]. exfalso.
    apply (stripI_name "https://" name rest eq_refl); [fold s; congruence|].
    now destruct (stripI "https://" name). }
  change "http://" with ("http" ++ "://") in N1.
  change "https://" with ("http" ++ "s" ++ "://") in N2.
  rewrite stripI_app in N1. rewrite stripI_app in N2.
  unfold Opt. cbn [Seqs rmatch]. rewrite rmatch_LitI.
  destruct (stripI "http" s) as [r1|]; [|reflexivity].
  rewrite stripI_app in N2.
  rewrite rmatch_LitI, !rmatch_Lit.
  destruct (stripI "s" r1) as [r2|].
  - rewrite rmatch_Lit.
    destruct (strip "://" r2) eqn:E2; [apply strip_stripI in E2; congruence|].
    destruct (strip "://" r1) eqn:E1; [apply strip_stripI in E1; congruence|].
    reflexivity.
  - destruct (strip "://" r1) eqn:E1; [apply strip_stripI in E1; congruence|].
    reflexivity.
Qed.

Lemma data_ahead (name rest : string) (cap : option ascii) :
  isData name = false ->
  rmatch (LitI "data:") cap (name ++ String "."%char rest) (fun _ s' => Some s') = None.
Proof.
  intros H. unfold isData, startsI in H. rewrite rmatch_LitI.
  destruct (stripI "data:" (name ++ String "."%char rest)) eqn:E; [|reflexivity].
  exfalso. apply (stripI_name "data:" name rest eq_refl); [congruence|].
  now destruct (stripI "data:" name).
Qed.

Lemma isQuote_cases (q : ascii) : isQuote q = true -> q = dq \/ q = sq.
Proof.
  unfold isQuote. intros H. apply orb_true_iff in H as [H|H];
    apply Ascii.eqb_eq in H; auto.
Qed.

(** A match somewhere in a text is found by the scan. *)
Lemma matchAll_found (r : re) (t : string) :
  t <> EmptyString -> matchAt r t <> None ->
  forall pre, matchAll r (pre ++ t) <> [].
Proof.
  intros Ht Hm pre. unfold matchAll. induction pre as [|c pre IH]; cbn [append].
  - destruct t as [|c t]; [contradiction|]. cbn [matchesFrom]. unfold matchLen.
    destruct (matchAt r (String c t)); [discriminate | contradiction].
  - cbn [matchesFrom]. destruct (matchLen r (String c (pre ++ t))); [discriminate | exact IH].
Qed.

Lemma script_matched (sp : string) (q1 q2 : ascii) (name post : string) :
  isWhite sp = true -> isQuote q1 = true -> isQuote q2 = true ->
  localFile ScriptFile name = true ->
  matchAt (Seqs [LitI "<script"; SpacePlus; LitI "src="; Chr isQuote; notNetwork;
                 Plus notQuote; LitI ".js"; Chr isQuote])
    ("<script" ++ sp ++ "src=" ++ String q1 (name ++ ".js" ++ String q2 post)) <> None.
Proof.
  intros Hs H1 H2 Hn. unfold localFile in Hn.
  repeat (apply andb_true_iff in Hn as [Hn ?]).
  unfold matchAt. cbn [Seqs rmatch]. rewrite rmatch_LitI, stripI_same.
  apply rmatch_SpacePlus; [exact Hs|]. cbv beta.
  rewrite rmatch_LitI, stripI_same, H1.
  unfold notNetwork. cbn [rmatch].
  change (".js" ++ String q2 post) with (String "."%char ("js" ++ String q2 post)).
  rewrite network_ahead by now apply negb_true_iff.
  apply rmatch_Plus; [now destruct name | assumption |]. cbv beta.
  destruct (isQuote_cases q2 H2) as [-> | ->]; cbn; discriminate.
Qed.

Lemma style_matched (sp attrs : string) (q1 q2 : ascii) (name post : string) :
  isWhite sp = true -> allb notGt attrs = true ->
  isQuote q1 = true -> isQuote q2 = true ->
  localFile StyleFile name = true ->
  matchAt (Seqs [LitI "<link"; SpacePlus; Star notGt; LitI "href="; Chr isQuote; notNetwork;
                 Plus notQuote; LitI ".css"; Chr isQuote])
    ("<link" ++ sp ++ attrs ++ "href=" ++ String q1 (name ++ ".css" ++ String q2 post))
  <> None.
Proof.
  intros Hs Ha H1 H2 Hn. unfold localFile in Hn.
  repeat (apply andb_true_iff in Hn as [Hn ?]).
  unfold matchAt. cbn [Seqs rmatch]. rewrite rmatch_LitI, stripI_same.
  apply rmatch_SpacePlus; [exact Hs|]. cbv beta.
  apply star_some; [exact Ha|].
  rewrite rmatch_LitI, stripI_same, H1.
  unfold notNetwork. cbn [rmatch].
  change (".css" ++ String q2 post) with (String "."%char ("css" ++ String q2 post)).
  rewrite network_ahead by now apply negb_true_iff.
  apply rmatch_Plus; [now destruct name | assumption |]. cbv beta.
  destruct (isQuote_cases q2 H2) as [-> | ->]; cbn; discriminate.
Qed.

Lemma image_matched (sp attrs : string) (q1 q2 : ascii) (name ext post : string) :
  isWhite sp = true -> allb notGt attrs = true ->
  isQuote q1 = true -> isQuote q2 = true ->
  localFile ImageFile name = true -> In ext (extensionsOf ImageFile) ->
  matchAt (Seqs [LitI "<img"; SpacePlus; Star notGt; LitI "src="; Chr isQuote;
                 notNetworkNorData; Plus notQuote; Lit ".";
                 Alt (LitI "png")
                   (Alt (LitI "jpg") (Alt (LitI "jpeg") (Alt (LitI "gif") (LitI "svg"))));
                 Chr isQuote])
    ("<img" ++ sp ++ attrs ++ "src=" ++ String q1 (name ++ ext ++ String q2 post))
  <> None.
Proof.
  intros Hs Ha H1 H2 Hn He. unfold localFile in Hn.
  repeat (apply andb_true_iff in Hn as [Hn ?]).
  assert (Hd : exists e', ext = String "."%char e'
                          /\ In e' ["png"; "jpg"; "jpeg"; "gif"; "svg"]).
  { cbn in He. decompose [or] He; try contradiction; subst ext;
      eexists; (split; [reflexivity|]); cbn; tauto. }
  destruct Hd as (e' & -> & He').
  unfold matchAt. cbn [Seqs rmatch]. rewrite rmatch_LitI, stripI_same.
  apply rmatch_SpacePlus; [exact Hs|]. cbv beta.
  apply star_some; [exact Ha|].
  rewrite rmatch_LitI, stripI_same, H1.
  unfold notNetworkNorData. cbn [rmatch append].
  rewrite network_ahead, data_ahead by now apply negb_true_iff.
  change (String "."%char (e' ++ String q2 post))
    with (String "."%char EmptyString ++ e' ++ String q2 post).
  apply rmatch_Plus; [now destruct name | assumption |]. cbv beta.
  destruct (isQuote_cases q2 H2) as [-> | ->];
    cbn in He'; decompose [or] He'; try contradiction; subst e'; cbn; discriminate.
Qed.

Lemma findExternalRef_some (refs : list ExternalRef) (body : string) (ref : ExternalRef) :
  In ref refs -> matchAll (pattern ref) body <> [] ->
  exists message, findExternalRef refs body = Some message.
Proof.
  induction refs as [|ref' refs IH]; intros Hin Hm; [contradiction|].
  cbn [findExternalRef]. destruct (matchAll (pattern ref') body) as [|m ms] eqn:E;
    [|eexists; reflexivity].
  destruct Hin as [->|Hin]; [contradiction | now apply IH].
Qed.

(** A text that holds a reference is refused by [findExternalRef]. *)
Lemma holdsReference_found (body : string) :
  holdsReference body -> exists message, findExternalRef externalRefs body = Some message.
Proof.
  intros (k & pre & sp & attrs & q1 & name & ext & q2 & post & -> & Hw).
  destruct Hw as (Hs & Ha & H1 & Hn & He & H2).
  unfold referenceText. rewrite !append_assoc. cbn [str1 append].
  destruct k; cbn [tagOf attributeOf].
  - apply (findExternalRef_some _ _ (nth 0 externalRefs (mkExternalRef Eps EmptyString)));
      [cbn; tauto|].
    cbn [nth externalRefs pattern]. subst attrs. cbn in He. destruct He as [<-|[]].
    cbn [append]. apply matchAll_found; [discriminate|].
    now apply (script_matched sp q1 q2 name post).
  - apply (findExternalRef_some _ _ (nth 1 externalRefs (mkExternalRef Eps EmptyString)));
      [cbn; tauto|].
    cbn [nth externalRefs pattern]. cbn in He. destruct He as [<-|[]].
    apply matchAll_found; [discriminate|].
    now apply (style_matched sp attrs q1 q2 name post).
  - apply (findExternalRef_some _ _ (nth 2 externalRefs (mkExternalRef Eps EmptyString)));
      [cbn; tauto|].
    cbn [nth externalRefs pattern].
    apply matchAll_found; [discriminate|].
    now apply (image_matched sp attrs q1 q2 name ext post).
Qed.

Lemma holdsReference_writes (tc : ToolCall) :
  isTool "write_file" tc = true ->
  mapFilePath (str (field file_path tc)) = "html" ->
  holdsReference (str (field content tc)) ->
  writesExternalRef tc = true.
Proof.
  intros Ht Hp Hr. destruct (holdsReference_found _ Hr) as (m & Hm).
  unfold writesExternalRef. rewrite Ht, Hp, Hm. cbn [andb String.eqb Ascii.eqb Bool.eqb].
  destruct (field file_path tc) as [[|c path]|]; try discriminate Hp.
  destruct (field content tc) as [[|c' body]|]; try discriminate Hm.
  reflexivity.
Qed.




End References.

Section PlaceholderFacts.
Import Js Regex Placeholder.

Lemma append_eq_append (a b c d : string) :
  a ++ b = c ++ d ->
  exists m, (a = c ++ m /\ d = m ++ b) \/ (c = a ++ m /\ b = m ++ d).
Proof.
  revert c; induction a as [|x a IH]; intros c H.
  - exists c. right. now split.
  - destruct c as [|y c].
    + exists (String x a). left. now split.
    + cbn [append] in H. injection H as -> H.
      destruct (IH c H) as (m & [[-> ->] | [-> ->]]); exists m; [left | right]; now split.
Qed.

Lemma allb_app (p : ascii -> bool) (a b : string) :
  allb p (a ++ b) = allb p a && allb p b.
Proof.
  induction a as [|c a IH]; [reflexivity|]. cbn [append allb].
  now rewrite IH, andb_assoc.
Qed.

Lemma allb_impl (p q : ascii -> bool) (s : string) :
  (forall c, p c = true -> q c = true) -> allb p s = true -> allb q s = true.
Proof.
  intros Hpq. induction s as [|c s IH]; [reflexivity|]. cbn [allb].
  intros H. apply andb_true_iff in H as [H1 H2]. now rewrite (Hpq c H1), IH.
Qed.

Lemma isPlain_cases (c : ascii) :
  isPlain c = true ->
  isQuote c = false /\ isEnd c = false /\ c <> "{"%char /\ c <> "("%char /\ c <> ")"%char.
Proof.
  destruct c as [[] [] [] [] [] [] [] []]; cbv; intuition discriminate.
Qed.

Lemma plain_notQuote (s : string) : allb isPlain s = true -> allb notQuote s = true.
Proof.
  apply allb_impl. intros c H. unfold notQuote.
  now destruct (isPlain_cases c H) as (-> & _).
Qed.

(** Two texts without quotes that are followed by a quote. *)
Lemma quote_free_eq (a b x y : string) (q q' : ascii) :
  allb notQuote a = true -> allb notQuote b = true ->
  isQuote q = true -> isQuote q' = true ->
  a ++ String q x = b ++ String q' y -> a = b.
Proof.
  intros Ha Hb Hq Hq'. revert b Hb; induction a as [|c a IH]; intros b Hb H.
  - destruct b as [|d b]; [reflexivity|].
    cbn [append] in H. injection H as -> _.
    cbn [allb] in Hb. apply andb_true_iff in Hb as [Hd _].
    unfold notQuote in Hd. now rewrite Hq in Hd.
  - cbn [allb] in Ha. apply andb_true_iff in Ha as [Hc Ha].
    destruct b as [|d b].
    + cbn [append] in H. injection H as -> _.
      unfold notQuote in Hc. now rewrite Hq' in Hc.
    + cbn [append] in H. injection H as -> H.
      cbn [allb] in Hb. apply andb_true_iff in Hb as [_ Hb].
      f_equal. now apply IH.
Qed.

Lemma guarded_empty : guarded EmptyString.
Proof.
  split; [discriminate|]. intros m c r Hm _ H. destruct m; [congruence | discriminate].
Qed.

(** A rest that starts with a character that is no character of a name,
    and with no brace before a character of a name, is guarded. *)
Lemma guarded_not_plain (c0 : ascii) (rest : string) :
  isPlain c0 = false ->
  (c0 = "{"%char -> forall c r, rest = String c r -> isPlain c = false) ->
  guarded (String c0 rest).
Proof.
  intros Hc0 Hbrace. split.
  - intros c r H. injection H as -> ->. now apply (Hbrace eq_refl c r).
  - intros m c r Hm Hp H. destruct m as [|x m]; [congruence|].
    cbn [append] in H. injection H as -> _.
    cbn [allb] in Hp. apply andb_true_iff in Hp as [Hx _]. congruence.
Qed.

Lemma guarded_formText (nm : string) (f : Form) (rest : string) :
  guarded (formText nm f ++ rest).
Proof.
  destruct f as [|q|q]; cbn [formText append].
  - apply guarded_not_plain; [reflexivity|]. intros _ c r [= <- _]. reflexivity.
  - apply guarded_not_plain; [now destruct q|]. destruct q; discriminate.
  - apply guarded_not_plain; [now destruct q|]. destruct q; discriminate.
Qed.

Lemma guarded_quotedUrl (url rest : string) : guarded (quotedUrl url ++ rest).
Proof.
  unfold quotedUrl. cbn [append]. apply guarded_not_plain; [reflexivity | discriminate].
Qed.

Lemma guarded_cssUrl (url rest : string) : guarded (cssUrl url ++ rest).
Proof.
  unfold cssUrl. cbn [append]. split; [discriminate|].
  intros m c r Hm Hp H.
  destruct m as [|c1 m]; [congruence|]. cbn [append] in H. injection H as <- H.
  destruct m as [|c2 m]; [cbn [append] in H; now injection H as <- _|].
  cbn [append] in H. injection H as <- H.
  destruct m as [|c3 m]; [cbn [append] in H; now injection H as <- _|].
  cbn [append] in H. injection H as <- H.
  destruct m as [|c4 m]; [cbn [append] in H; now injection H as <- _|].
  cbn [append] in H. injection H as <- H.
  cbn [allb] in Hp. repeat (apply andb_true_iff in Hp as [? Hp]). discriminate.
Qed.

Section Name.
Variable nm : string.
Hypothesis nm_plain : plainName nm = true.

Lemma nm_all_plain : allb isPlain nm = true.
Proof. unfold plainName in nm_plain. now destruct nm. Qed.

Lemma nm_head : exists n0 nm', nm = String n0 nm' /\ isPlain n0 = true.
Proof.
  pose proof nm_all_plain as H. unfold plainName in nm_plain.
  destruct nm as [|n0 nm']; [discriminate|].
  exists n0, nm'. split; [reflexivity|].
  cbn [allb] in H. now apply andb_true_iff in H as [H _].
Qed.

(** When the name and a character that ends it stand at the head of a text
    followed by a guarded rest, the name lies within the text. *)
Lemma name_no_straddle (b rest : string) (c0 : ascii) (z : string) :
  guarded rest -> isEnd c0 = true ->
  b ++ rest = nm ++ String c0 z ->
  exists m, b = nm ++ m.
Proof.
  intros [_ G] Hc0 H.
  destruct (append_eq_append _ _ _ _ H) as (m & [[-> _] | [Hn Hr]]).
  - now exists m.
  - destruct m as [|x m].
    + exists EmptyString. rewrite append_nil_r in Hn. now rewrite append_nil_r.
    + exfalso. pose proof nm_all_plain as Hp. rewrite Hn, allb_app in Hp.
      apply andb_true_iff in Hp as [_ Hm].
      assert (Hne : String x m <> EmptyString) by discriminate.
      rewrite (G (String x m) c0 z Hne Hm Hr) in Hc0. discriminate.
Qed.

End Name.

End PlaceholderFacts.

Section Passes.
Import Js Regex Placeholder.

Variable nm : string.
Hypothesis nm_plain : plainName nm = true.


(** A text no position of which starts a match is kept. *)
Lemma replaceAll_skip (P : re) (Rn t rest : string) :
  (forall a c b, t = a ++ String c b -> matchAt P (String c (b ++ rest)) = None) ->
  replaceAll P Rn (t ++ rest) = t ++ replaceAll P Rn rest.
Proof.
  induction t as [|c t IH]; intros H; [reflexivity|].
  cbn [append]. rewrite replaceAll_miss by (apply (H EmptyString c t); reflexivity).
  f_equal. apply IH. intros a c' b E. apply (H (String c a)). now rewrite E.
Qed.

Lemma replaceAll_skip_chars (P : re) (starter : ascii -> bool) (Rn w rest : string) :
  (forall c s, starter c = false -> matchAt P (String c s) = None) ->
  allb (fun c => negb (starter c)) w = true ->
  replaceAll P Rn (w ++ rest) = w ++ replaceAll P Rn rest.
Proof.
  intros Hs Hw. apply replaceAll_skip. intros a c b E. apply Hs.
  rewrite E, allb_app in Hw. apply andb_true_iff in Hw as [_ Hw].
  cbn [allb] in Hw. apply andb_true_iff in Hw as [Hc _]. now apply negb_true_iff.
Qed.

Lemma quoted_nonstarter (ending : string) (c : ascii) (s : string) :
  isQuote c = false -> matchAt (quotedRe nm ending) (String c s) = None.
Proof. intros H. unfold quotedRe. rewrite matchAt_quoted. now rewrite H. Qed.

Lemma curly_nonstarter (c : ascii) (s : string) :
  Ascii.eqb c "{"%char = false -> matchAt (curlyRe nm) (String c s) = None.
Proof.
  intros H. unfold curlyRe. rewrite matchAt_curly. cbn [append strip].
  now rewrite Ascii.eqb_sym, H.
Qed.

Lemma ending_head (ending : string) (q : ascii) (r : string) :
  isEnding ending -> isQuote q = true ->
  exists c0 z, (ending ++ str1 q) ++ r = String c0 z /\ isEnd c0 = true.
Proof.
  intros [-> | ->] Hq.
  - exists q, r. split; [reflexivity|]. unfold isEnd. now rewrite Hq, !orb_true_r.
  - eexists _, _. split; reflexivity.
Qed.

Lemma ending_notQuote (ending : string) :
  isEnding ending -> allb notQuote (nm ++ ending) = true.
Proof.
  intros H. rewrite allb_app, (plain_notQuote nm (nm_all_plain nm nm_plain)).
  now destruct H as [-> | ->].
Qed.

Lemma inert_parts (t : string) :
  inert nm t = true ->
  prefix nm t = false /\ includes ("{{" ++ nm) t = false /\
  forall q, isQuote q = true -> includes (String q nm) t = false.
Proof.
  unfold inert. intros H.
  repeat (apply andb_true_iff in H as [H ?]).
  repeat match goal with X : negb _ = true |- _ => apply negb_true_iff in X end.
  repeat split; try assumption.
  intros q Hq. unfold isQuote in Hq. apply orb_true_iff in Hq as [Hq | Hq];
    apply Ascii.eqb_eq in Hq; now subst q.
Qed.

(** After a quote, the name and its ending do not stand at the head of an
    inert text followed by a guarded rest. *)
Lemma closing_quote_miss (ending : string) (q : ascii) (t y : string) :
  isEnding ending -> isQuote q = true -> inert nm t = true -> guarded y ->
  matchAt (quotedRe nm ending) (String q (t ++ y)) = None.
Proof.
  intros He Hq Ht Hy. unfold quotedRe. rewrite matchAt_quoted, Hq.
  destruct (strip (nm ++ ending ++ str1 q) (t ++ y)) as [r|] eqn:E; [|reflexivity].
  exfalso. apply strip_iff in E. rewrite append_assoc in E.
  destruct (ending_head ending q r He Hq) as (c0 & z & Hz & Hc0).
  rewrite Hz in E.
  destruct (name_no_straddle nm nm_plain t y c0 z Hy Hc0 E) as (m & ->).
  destruct (inert_parts _ Ht) as (Hp & _). now rewrite prefix_app in Hp.
Qed.

(** No match of a quoted form starts inside an inert text. *)
Lemma text_skip_quoted (ending Rn t rest : string) :
  isEnding ending -> inert nm t = true -> guarded rest ->
  replaceAll (quotedRe nm ending) Rn (t ++ rest) = t ++ replaceAll (quotedRe nm ending) Rn rest.
Proof.
  intros He Ht Hr. apply replaceAll_skip. intros a c b E.
  unfold quotedRe. rewrite matchAt_quoted.
  destruct (isQuote c) eqn:Hc; [|reflexivity].
  destruct (strip (nm ++ ending ++ str1 c) (b ++ rest)) as [r|] eqn:Es; [|reflexivity].
  exfalso. apply strip_iff in Es. rewrite append_assoc in Es.
  destruct (ending_head ending c r He Hc) as (c0 & z & Hz & Hc0).
  rewrite Hz in Es.
  destruct (name_no_straddle nm nm_plain b rest c0 z Hr Hc0 Es) as (m & ->).
  destruct (inert_parts _ Ht) as (_ & _ & Hq).
  specialize (Hq c Hc).
  assert (Hin : includes (String c nm) t = true).
  { apply includes_iff. exists a, m. rewrite E. reflexivity. }
  congruence.
Qed.

(** No match of the braces form starts inside an inert text. *)
Lemma text_skip_curly (Rn t rest : string) :
  inert nm t = true -> guarded rest ->
  replaceAll (curlyRe nm) Rn (t ++ rest) = t ++ replaceAll (curlyRe nm) Rn rest.
Proof.
  intros Ht Hr. apply replaceAll_skip. intros a c b E.
  unfold curlyRe. rewrite matchAt_curly.
  destruct (strip ("{{" ++ nm ++ "}}") (String c (b ++ rest))) as [r|] eqn:Es; [|reflexivity].
  exfalso. apply strip_iff in Es. cbn [append] in Es. injection Es as -> Es.
  destruct b as [|c2 b].
  - cbn [append] in Es. destruct (nm_head nm nm_plain) as (n0 & nm' & Hn & Hn0).
    rewrite Hn in Es. cbn [append] in Es.
    destruct Hr as [G _]. rewrite (G n0 _ Es) in Hn0. discriminate.
  - cbn [append] in Es. injection Es as -> Es.
    assert (Hend : isEnd "}"%char = true) by reflexivity.
    rewrite append_assoc in Es. cbn [append] in Es.
    destruct (name_no_straddle nm nm_plain b rest "}"%char ("}" ++ r) Hr Hend Es) as (m & ->).
    destruct (inert_parts _ Ht) as (_ & Hc & _).
    assert (Hin : includes ("{{" ++ nm) t = true).
    { apply includes_iff. exists a, m. rewrite E. reflexivity. }
    congruence.
Qed.

(** *** The placeholders themselves *)

Lemma hit_curly (Rn rest : string) :
  replaceAll (curlyRe nm) Rn (formText nm Curly ++ rest) = Rn ++ replaceAll (curlyRe nm) Rn rest.
Proof.
  change (formText nm Curly ++ rest) with (String "{" (String "{" (nm ++ "}}")) ++ rest).
  apply replaceAll_hit. unfold curlyRe. rewrite matchAt_curly. apply strip_iff.
  reflexivity.
Qed.

Lemma hit_quoted (ending : string) (q : Quote) (Rn rest : string) :
  replaceAll (quotedRe nm ending) Rn
    (String (quoteChar q) (nm ++ ending ++ str1 (quoteChar q)) ++ rest)
  = Rn ++ replaceAll (quotedRe nm ending) Rn rest.
Proof.
  apply replaceAll_hit. unfold quotedRe. rewrite matchAt_quoted. cbn [append].
  replace (isQuote (quoteChar q)) with true by (now destruct q).
  apply strip_iff. now rewrite !append_assoc.
Qed.

Lemma formText_no_brace (q : Quote) (ending : string) :
  isEnding ending ->
  allb (fun c => negb (Ascii.eqb c "{"%char))
       (String (quoteChar q) (nm ++ ending ++ str1 (quoteChar q))) = true.
Proof.
  intros He. cbn [allb]. rewrite !allb_app.
  assert (Hn : allb (fun c => negb (Ascii.eqb c "{"%char)) nm = true).
  { apply (allb_impl isPlain); [|apply nm_all_plain; exact nm_plain].
    intros c Hc. destruct (isPlain_cases c Hc) as (_ & _ & Hb & _).
    apply negb_true_iff, Ascii.eqb_neq. exact Hb. }
  rewrite Hn. destruct He as [-> | ->]; now destruct q.
Qed.

(** The braces expression passes over a quoted placeholder. *)
Lemma skip_quoted_by_curly (q : Quote) (ending Rn rest : string) :
  isEnding ending ->
  replaceAll (curlyRe nm) Rn (String (quoteChar q) (nm ++ ending ++ str1 (quoteChar q)) ++ rest)
  = String (quoteChar q) (nm ++ ending ++ str1 (quoteChar q)) ++ replaceAll (curlyRe nm) Rn rest.
Proof.
  intros He.
  apply (replaceAll_skip_chars (curlyRe nm) (fun c => Ascii.eqb c "{"%char)).
  - intros c s Hc. now apply curly_nonstarter.
  - now apply formText_no_brace.
Qed.

(** The expression of the [.png] form passes over a quoted bare name. *)
Lemma skip_bare_by_png (q : Quote) (Rn t y : string) :
  inert nm t = true -> guarded y ->
  replaceAll (quotedRe nm ".png") Rn (formText nm (Quoted q) ++ t ++ y)
  = formText nm (Quoted q) ++ replaceAll (quotedRe nm ".png") Rn (t ++ y).
Proof.
  intros Ht Hy. cbn [formText]. cbn [append]. rewrite !append_assoc. cbn [str1 append].
  rewrite replaceAll_miss.
  - f_equal.
    rewrite (replaceAll_skip_chars (quotedRe nm ".png") isQuote).
    + f_equal. rewrite replaceAll_miss; [reflexivity|].
      apply closing_quote_miss; [now right | now destruct q | assumption | assumption].
    + intros c s Hc. now apply quoted_nonstarter.
    + apply plain_notQuote, nm_all_plain, nm_plain.
  - unfold quotedRe. rewrite matchAt_quoted.
    replace (isQuote (quoteChar q)) with true by (now destruct q).
    rewrite strip_app, strip_same. now destruct q.
Qed.

(** *** The texts the executor wrote *)

Variable url : string.
Hypothesis url_ok : urlOk nm url = true.

Lemma url_notQuote : allb notQuote url = true.
Proof. unfold urlOk in url_ok. now repeat (apply andb_true_iff in url_ok as [url_ok ?]). Qed.

Lemma url_not_name (ending : string) : isEnding ending -> url <> nm ++ ending.
Proof.
  unfold urlOk in url_ok. repeat (apply andb_true_iff in url_ok as [url_ok ?]).
  repeat match goal with X : negb _ = true |- _ => apply negb_true_iff in X end.
  intros [-> | ->]; [rewrite append_nil_r|]; now apply String.eqb_neq.
Qed.

(** At the quote that opens a written URL nothing matches. *)
Lemma url_quote_miss (ending x : string) :
  isEnding ending -> matchAt (quotedRe nm ending) (String sq (url ++ String sq x)) = None.
Proof.
  intros He. unfold quotedRe. rewrite matchAt_quoted.
  replace (isQuote sq) with true by reflexivity.
  destruct (strip (nm ++ ending ++ str1 sq) (url ++ String sq x)) as [r|] eqn:E;
    [|reflexivity].
  exfalso. apply strip_iff in E.
  replace ((nm ++ ending ++ str1 sq) ++ r) with ((nm ++ ending) ++ String sq r) in E
    by (now rewrite !append_assoc).
  apply quote_free_eq in E; try reflexivity;
    [now apply (url_not_name ending) | apply url_notQuote | now apply ending_notQuote].
Qed.

Lemma quotedUrl_app (r : string) : quotedUrl url ++ r = String sq (url ++ String sq r).
Proof. unfold quotedUrl. cbn [append]. now rewrite append_assoc. Qed.

Lemma cssUrl_app (r : string) :
  cssUrl url ++ r = "url(" ++ String sq (url ++ String sq (String ")" r)).
Proof. unfold cssUrl. cbn [append]. now rewrite append_assoc. Qed.

Lemma skip_quotedUrl (ending Rn t y : string) :
  isEnding ending -> inert nm t = true -> guarded y ->
  replaceAll (quotedRe nm ending) Rn (quotedUrl url ++ t ++ y)
  = quotedUrl url ++ replaceAll (quotedRe nm ending) Rn (t ++ y).
Proof.
  intros He Ht Hy. rewrite !quotedUrl_app.
  rewrite replaceAll_miss by (now apply url_quote_miss). f_equal.
  rewrite (replaceAll_skip_chars (quotedRe nm ending) isQuote).
  - f_equal. rewrite replaceAll_miss; [reflexivity|].
    now apply closing_quote_miss.
  - intros c s Hc. now apply quoted_nonstarter.
  - apply url_notQuote.
Qed.

Lemma skip_cssUrl (ending Rn t y : string) :
  isEnding ending -> inert nm t = true -> guarded y ->
  replaceAll (quotedRe nm ending) Rn (cssUrl url ++ t ++ y)
  = cssUrl url ++ replaceAll (quotedRe nm ending) Rn (t ++ y).
Proof.
  intros He Ht Hy. rewrite !cssUrl_app.
  rewrite (replaceAll_skip_chars (quotedRe nm ending) isQuote);
    [|intros c s Hc; now apply quoted_nonstarter | reflexivity].
  f_equal.
  rewrite replaceAll_miss by (now apply url_quote_miss). f_equal.
  rewrite (replaceAll_skip_chars (quotedRe nm ending) isQuote);
    [|intros c s Hc; now apply quoted_nonstarter | apply url_notQuote].
  f_equal. rewrite replaceAll_miss.
  - reflexivity.
  - unfold quotedRe. rewrite matchAt_quoted. replace (isQuote sq) with true by reflexivity.
    destruct (nm_head nm nm_plain) as (n0 & nm' & -> & Hn0).
    cbn [append strip]. destruct (isPlain_cases n0 Hn0) as (_ & _ & _ & _ & Hp).
    apply Ascii.eqb_neq in Hp. now rewrite Hp.
Qed.

End Passes.

Section Substitution.
Import Js Regex Placeholder Executor.

Variables nm url : string.
Hypothesis nm_plain : plainName nm = true.
Hypothesis url_ok : urlOk nm url = true.

Lemma renderFrom_split (tok : Form -> string) (cs : list (string * Form)) (last : string) :
  (forall f rest, guarded (tok f ++ rest)) ->
  forallb (fun tf => inert nm (fst tf)) cs = true -> inert nm last = true ->
  exists t y, renderFrom tok cs last = t ++ y /\ inert nm t = true /\ guarded y.
Proof.
  intros Hg Hcs Hl. destruct cs as [|[t f] cs].
  - exists last, EmptyString. cbn [renderFrom]. rewrite append_nil_r.
    split; [reflexivity | split; [assumption | apply guarded_empty]].
  - cbn [forallb fst] in Hcs. apply andb_true_iff in Hcs as [Ht _].
    exists t, (tok f ++ renderFrom tok cs last).
    split; [reflexivity | split; [assumption | apply Hg]].
Qed.

(** One expression over a fragment: the texts are kept, and each
    placeholder is handled as the expression handles it alone. *)
Lemma pass_generic (P : re) (Rn : string) (before after : Form -> string) :
  (forall t rest, inert nm t = true -> guarded rest ->
     replaceAll P Rn (t ++ rest) = t ++ replaceAll P Rn rest) ->
  (forall f t y, inert nm t = true -> guarded y ->
     replaceAll P Rn (before f ++ t ++ y) = after f ++ replaceAll P Rn (t ++ y)) ->
  (forall f rest, guarded (before f ++ rest)) ->
  forall cs last,
    forallb (fun tf => inert nm (fst tf)) cs = true -> inert nm last = true ->
    replaceAll P Rn (renderFrom before cs last) = renderFrom after cs last.
Proof.
  intros Htext Hpiece Hg cs last. induction cs as [|[t f] cs IH]; intros Hcs Hl.
  - cbn [renderFrom]. rewrite <- (append_nil_r last) at 1.
    rewrite Htext by (assumption || apply guarded_empty). apply append_nil_r.
  - cbn [forallb fst] in Hcs. apply andb_true_iff in Hcs as [Ht Hcs].
    cbn [renderFrom]. rewrite Htext by (assumption || apply Hg). f_equal.
    destruct (renderFrom_split before cs last Hg Hcs Hl) as (t' & y & E & Ht' & Hy).
    rewrite E, Hpiece by assumption. rewrite <- E. f_equal. now apply IH.
Qed.

Section Replacement.

(** The text written for a placeholder: the quoted URL, or the [url(...)]
    of the style fragment. *)
Variable R : string.
Hypothesis R_guarded : forall rest, guarded (R ++ rest).
Hypothesis R_skipped :
  forall ending t y, isEnding ending -> inert nm t = true -> guarded y ->
    replaceAll (Seqs [Cap isQuote; Lit nm; Lit ending; Back]) R (R ++ t ++ y)
    = R ++ replaceAll (Seqs [Cap isQuote; Lit nm; Lit ending; Back]) R (t ++ y).

Lemma pass_curly (cs : list (string * Form)) (last : string) :
  forallb (fun tf => inert nm (fst tf)) cs = true -> inert nm last = true ->
  replaceAll (Seqs [Lit "{{"; Lit nm; Lit "}}"]) R (renderFrom (formText nm) cs last)
  = renderFrom (afterCurly nm R) cs last.
Proof.
  apply pass_generic.
  - intros t rest. now apply text_skip_curly.
  - intros [|q|q] t y Ht Hy; cbn [afterCurly].
    + now apply hit_curly.
    + apply (skip_quoted_by_curly nm nm_plain q ".png"). now right.
    + apply (skip_quoted_by_curly nm nm_plain q EmptyString). now left.
  - apply guarded_formText.
Qed.

Lemma guarded_afterCurly (f : Form) (rest : string) : guarded (afterCurly nm R f ++ rest).
Proof. destruct f; cbn [afterCurly]; [apply R_guarded | apply guarded_formText ..]. Qed.

Lemma guarded_afterPng (f : Form) (rest : string) : guarded (afterPng nm R f ++ rest).
Proof. destruct f; cbn [afterPng]; [apply R_guarded .. | apply guarded_formText]. Qed.

Lemma pass_png (cs : list (string * Form)) (last : string) :
  forallb (fun tf => inert nm (fst tf)) cs = true -> inert nm last = true ->
  replaceAll (Seqs [Cap isQuote; Lit nm; Lit ".png"; Back]) R
             (renderFrom (afterCurly nm R) cs last)
  = renderFrom (afterPng nm R) cs last.
Proof.
  apply pass_generic.
  - intros t rest. apply text_skip_quoted; [assumption | now right].
  - intros [|q|q] t y Ht Hy; cbn [afterCurly afterPng].
    + apply R_skipped; [now right | assumption | assumption].
    + apply (hit_quoted nm ".png" q).
    + now apply skip_bare_by_png.
  - apply guarded_afterCurly.
Qed.

Lemma pass_bare (cs : list (string * Form)) (last : string) :
  forallb (fun tf => inert nm (fst tf)) cs = true -> inert nm last = true ->
  replaceAll (Seqs [Cap isQuote; Lit nm; Lit EmptyString; Back]) R
             (renderFrom (afterPng nm R) cs last)
  = renderFrom (fun _ => R) cs last.
Proof.
  apply pass_generic.
  - intros t rest. apply text_skip_quoted; [assumption | now left].
  - intros [|q|q] t y Ht Hy; cbn [afterPng].
    + apply R_skipped; [now left | assumption | assumption].
    + apply R_skipped; [now left | assumption | assumption].
    + apply (hit_quoted nm EmptyString q).
  - apply guarded_afterPng.
Qed.

Lemma replaceFrom_ext (r1 r2 : re) (repl : string) :
  (forall s, matchAt r1 s = matchAt r2 s) ->
  forall s skip, replaceFrom r1 repl skip s = replaceFrom r2 repl skip s.
Proof.
  intros H. induction s as [|c s IH]; intros skip; [reflexivity|].
  cbn [replaceFrom]. destruct skip as [|n]; [|apply IH].
  unfold matchLen. rewrite H. destruct (matchAt r2 (String c s)); now rewrite IH.
Qed.

(** The three expressions of a name, one after the other, over a fragment. *)
Lemma three_passes (c : Chunks) :
  inertAll nm c = true ->
  fold_left (fun code pat => replaceAll pat R code) (Executor.namePatterns nm)
            (render (formText nm) c)
  = render (fun _ => R) c.
Proof.
  unfold inertAll, render. intros H. apply andb_true_iff in H as [Hcs Hl].
  cbn [Executor.namePatterns fold_left].
  rewrite (pass_curly _ _ Hcs Hl), (pass_png _ _ Hcs Hl).
  unfold replaceAll.
  rewrite (replaceFrom_ext _ (Seqs [Cap isQuote; Lit nm; Lit EmptyString; Back]) R
             (matchAt_quoted_bare nm)).
  exact (pass_bare _ _ Hcs Hl).
Qed.

End Replacement.

Lemma replaceIn_Some (pat : re) (repl code : string) :
  replaceIn pat repl (Some code) = Some (replaceAll pat repl code).
Proof. now destruct code. Qed.

Lemma three_passes_quoted (c : Chunks) :
  inertAll nm c = true ->
  fold_left (fun code pat => replaceAll pat (quotedUrl url) code) (Executor.namePatterns nm)
            (render (formText nm) c)
  = render (fun _ => quotedUrl url) c.
Proof.
  apply three_passes.
  - apply guarded_quotedUrl.
  - intros ending t y. now apply skip_quotedUrl.
Qed.

Lemma three_passes_css (c : Chunks) :
  inertAll nm c = true ->
  fold_left (fun code pat => replaceAll pat (cssUrl url) code) (Executor.namePatterns nm)
            (render (formText nm) c)
  = render (fun _ => cssUrl url) c.
Proof.
  apply three_passes.
  - apply guarded_cssUrl.
  - intros ending t y. now apply skip_cssUrl.
Qed.

End Substitution.

Section SubstImage.
Import Js Regex Placeholder Model Executor.

Lemma fold_replaceIn (repl : string) (pats : list re) (code : string) :
  fold_left (fun c pat => replaceIn pat repl c) pats (Some code)
  = Some (fold_left (fun c pat => replaceAll pat repl c) pats code).
Proof.
  revert code; induction pats as [|pat pats IH]; intros code; [reflexivity|].
  cbn [fold_left]. now rewrite replaceIn_Some, IH.
Qed.

Lemma fold_substPattern (url : string) (pats : list re) (w : Work) :
  fold_left (substPattern url) pats w
  = mkWork (fold_left (fun c pat => replaceIn pat (quotedUrl url) c) pats (html w))
           (fold_left (fun c pat => replaceIn pat (cssUrl url) c) pats (css w))
           (fold_left (fun c pat => replaceIn pat (quotedUrl url) c) pats (js w))
           (assets w) (imageUrlMap w) (actionsSummary w).
Proof.
  revert w; induction pats as [|pat pats IH]; intros w; [now destruct w|].
  cbn [fold_left]. now rewrite IH.
Qed.

Lemma fold_replaceIn_any (repl : string) (pats : list re) (code : option string) :
  fold_left (fun c pat => replaceIn pat repl c) pats code
  = option_map (fold_left (fun c pat => replaceAll pat repl c) pats) code.
Proof.
  destruct code as [code|]; [apply fold_replaceIn|].
  induction pats as [|pat pats IH]; [reflexivity | exact IH].
Qed.

Lemma literal_plain (nm url : string) :
  plainName nm = true -> urlOk nm url = true -> literal nm url = true.
Proof.
  unfold plainName, urlOk, literal. intros Hn Hu.
  repeat (apply andb_true_iff in Hu as [Hu ?]).
  apply andb_true_iff. split; [now destruct nm | assumption].
Qed.

(** The images with names that stand for themselves are handled one
    after the other, and nothing is thrown. *)
Lemma substAll_literal (env : Env) (entries : list (string * string)) :
  (forall nm url, In (nm, url) entries -> literal nm url = true) ->
  forall w, substAll env entries w = inl (fold_left substLiteral entries w).
Proof.
  induction entries as [|[nm url] entries IH]; intros Hl w; [reflexivity|].
  cbn [substAll fold_left]. unfold substImage. cbn [fst snd].
  rewrite (Hl nm url (or_introl eq_refl)). apply IH.
  intros nm' url' Hin. apply Hl. now right.
Qed.

(** The substitution of one image in fragments whose placeholders stand
    apart. *)
Lemma substLiteral_rendered (nm url : string) (H C J : option Chunks) (w : Work) :
  plainName nm = true ->
  urlOk nm url = true ->
  inertAny nm H = true -> inertAny nm C = true -> inertAny nm J = true ->
  html w = option_map (render (formText nm)) H ->
  css w = option_map (render (formText nm)) C ->
  js w = option_map (render (formText nm)) J ->
  substLiteral w (nm, url)
  = mkWork (option_map (render (fun _ => quotedUrl url)) H)
           (option_map (render (fun _ => cssUrl url)) C)
           (option_map (render (fun _ => quotedUrl url)) J)
           (assets w) (imageUrlMap w) (actionsSummary w).
Proof.
  intros Hn Hu HH HC HJ Eh Ec Ej.
  unfold substLiteral. cbn [fst snd]. rewrite fold_substPattern, Eh, Ec, Ej.
  rewrite !fold_replaceIn_any.
  destruct H as [H|], C as [C|], J as [J|]; cbn [option_map inertAny] in *;
    rewrite ?(three_passes_quoted nm url Hn Hu H HH),
            ?(three_passes_css nm url Hn Hu C HC),
            ?(three_passes_quoted nm url Hn Hu J HJ);
    reflexivity.
Qed.




End SubstImage.

(** ** The model at work *)

Section Examples.
Import Js Lines Model Executor.

Example validateHTML_document :
  validateHTML "<!DOCTYPE html><html><head></head><body><br/><p>a</p></body></html>"
  = mkValidation true [].
Proof. reflexivity. Qed.

Example validateHTML_unclosed :
  errors (validateHTML "<!DOCTYPE html><html><head></head><body><p>a</body></html>")
  = ["Possible unclosed tags: 4 open tags vs 3 close tags"].
Proof. reflexivity. Qed.

Example network_script_allowed :
  findExternalRef externalRefs "<script src='https://cdn.example/three.js'></script>" = None.
Proof. reflexivity. Qed.

Example data_image_allowed :
  findExternalRef externalRefs "<img alt='s' src='data:image/png;base64,AAAA.png'>" = None.
Proof. reflexivity. Qed.

Example stylesheet_refused :
  findExternalRef externalRefs "<link rel='stylesheet' href='style.css'>"
  = Some "HTML contains references to external CSS files (e.g., <link rel='stylesheet' href='style.css'). All code must be inline. Use <style> tags for CSS, inline <script> tags for JS, and data URLs or generate_image for images.".
Proof. reflexivity. Qed.

Example mapFilePath_cases :
  mapFilePath "Index.HTML" = "html" /\ mapFilePath "game.js" = "js"
  /\ mapFilePath "styles.css" = "styles.css"
  /\ Orchestrator.normalizeFilePath "styles.css" = "css_code"
  /\ Orchestrator.normalizeFilePath "sprites/ship.js" = "sprites/ship.js".
Proof. repeat split. Qed.

Example replaceLines_errors :
  error (replaceLines ("a" ++ str1 nl ++ "b") 0 1 "x" "js")
    = Some "Invalid line numbers: start=0, end=1. Line numbers must be >= 1."
  /\ error (replaceLines ("a" ++ str1 nl ++ "b") 2 3 "x" "js")
    = Some "Line numbers out of range: start=2, end=3, but file only has 2 lines."
  /\ error (replaceLines ("a" ++ str1 nl ++ "b") 2 1 "x" "js")
    = Some "Invalid range: start (2) is greater than end (1).".
Proof. repeat split. Qed.

(** Two calls on different fragments both apply after a call that was
    skipped. *)
Example skipped_call_does_not_stop_the_batch :
  runStages Sample.env (Sample.session None (Some "a {}") (Some "let x;"))
    [ replace_lines "css_code" 4 9 "b {}";
      write_file "js_code" "let y;";
      write_file "html_code" "<p id='p'></p>" ]
  = inl (mkWork (Some "<p id='p'></p>") (Some "a {}") (Some "let y;") None []
           [ "ERROR replacing lines in css: Line numbers out of range: start=4, end=9, but file only has 1 lines.";
             "Wrote content to js.";
             "Wrote content to html." ]).
Proof. reflexivity. Qed.

End Examples.

(** * Further properties of the code *)

(** ** The lenient mapping of paths *)

Section Paths.
Import Js Model Executor Orchestrator Observe.

Lemma lower_idem (c : ascii) : lower (lower c) = lower c.
Proof. destruct c as [[] [] [] [] [] [] [] []]; reflexivity. Qed.

Lemma toLowerCase_idem (s : string) : toLowerCase (toLowerCase s) = toLowerCase s.
Proof. induction s as [|c s IH]; [reflexivity|]. cbn [toLowerCase]. now rewrite lower_idem, IH. Qed.

Lemma mapFilePath_eq (p : string) : mapFilePath p = mapLowered (toLowerCase p).
Proof. destruct p; reflexivity. Qed.

Lemma normalizeFilePath_eq (p : string) :
  normalizeFilePath p = normalizeLowered (toLowerCase p).
Proof. destruct p; reflexivity. Qed.

Ltac split_tests :=
  repeat match goal with
         | |- context [String.eqb ?a ?b] => destruct (String.eqb a b) eqn:?
         end.

Lemma mapLowered_fixed (lp : string) :
  toLowerCase lp = lp -> mapFilePath (mapLowered lp) = mapLowered lp.
Proof.
  intros Hl. unfold mapLowered.
  destruct ((lp =? "html") || (lp =? "html_code") || (lp =? "index.html")) eqn:E1;
    [reflexivity|].
  destruct ((lp =? "css") || (lp =? "css_code") || (lp =? "style.css")) eqn:E2;
    [reflexivity|].
  destruct ((lp =? "js") || (lp =? "js_code") || (lp =? "script.js") || (lp =? "game.js"))
    eqn:E3; [reflexivity|].
  rewrite mapFilePath_eq, Hl. unfold mapLowered. now rewrite E1, E2, E3.
Qed.

Lemma normalizeLowered_fixed (lp : string) :
  toLowerCase lp = lp -> normalizeFilePath (normalizeLowered lp) = normalizeLowered lp.
Proof.
  intros Hl. unfold normalizeLowered.
  destruct ((lp =? "html") || (lp =? "html_code") || (lp =? "index.html")) eqn:E1;
    [reflexivity|].
  destruct ((lp =? "css") || (lp =? "css_code") || (lp =? "style.css")
            || (lp =? "styles.css")) eqn:E2; [reflexivity|].
  destruct ((lp =? "js") || (lp =? "js_code") || (lp =? "script.js") || (lp =? "game.js")
            || (lp =? "main.js")) eqn:E3; [reflexivity|].
  rewrite normalizeFilePath_eq, Hl. unfold normalizeLowered. now rewrite E1, E2, E3.
Qed.

(** X1. The lenient mappings of the executor and of the orchestrator do
    not look at the case of a path, and mapping a mapped path changes
    nothing. *)
Theorem path_mapping_stable (p : string) :
  mapFilePath (toLowerCase p) = mapFilePath p /\
  mapFilePath (mapFilePath p) = mapFilePath p /\
  normalizeFilePath (toLowerCase p) = normalizeFilePath p /\
  normalizeFilePath (normalizeFilePath p) = normalizeFilePath p.
Proof.
  repeat split.
  - now rewrite !mapFilePath_eq, toLowerCase_idem.
  - rewrite (mapFilePath_eq p). apply mapLowered_fixed, toLowerCase_idem.
  - now rewrite !normalizeFilePath_eq, toLowerCase_idem.
  - rewrite (normalizeFilePath_eq p). apply normalizeLowered_fixed, toLowerCase_idem.
Qed.

Lemma validPaths_mapped (path : string) :
  existsb (String.eqb path) validPaths = true ->
  validTarget path = true /\ normalizeFilePath path = path.
Proof.
  unfold validPaths. cbn [existsb]. rewrite orb_false_r. intros H.
  apply orb_true_iff in H as [H | H]; [|apply orb_true_iff in H as [H | H]];
    apply String.eqb_eq in H; subst path; split; reflexivity.
Qed.

(** The executor accepts what the orchestrator accepted. *)
Lemma normalized_valid (path : string) :
  existsb (String.eqb (normalizeFilePath path)) validPaths = true ->
  validTarget (normalizeFilePath path) = true.
Proof. intros H. now apply validPaths_mapped. Qed.

End Paths.

(** ** What the orchestrator hands to the executor *)

Section Contract.
Import Js Model Executor Orchestrator Observe.

Lemma validPaths_truthy (path : string) :
  existsb (String.eqb path) validPaths = true -> truthy (Some path) = true.
Proof.
  intros H. destruct path; [discriminate H | reflexivity].
Qed.

Lemma validPaths_In (path : string) :
  existsb (String.eqb path) validPaths = true -> In path validPaths.
Proof.
  intros H. apply existsb_exists in H as (x & Hin & Hx).
  apply String.eqb_eq in Hx. now subst x.
Qed.

(** X2. The operations the orchestrator lets through are as many as it was
    given, with the same tools in the same order, and every code operation
    among them that names a target names one of the three valid paths,
    which the executor maps to a fragment. *)
Theorem validated_operations_accepted (i : nat) (ops out : list ToolCall) :
  validateOperations i ops = inl out ->
  map tool_name out = map tool_name ops /\
  Forall (fun op =>
            isCodeTool (tool_name op) = true ->
            truthy (field file_path op) = true ->
            In (str (field file_path op)) validPaths /\
            validTarget (str (field file_path op)) = true) out.
Proof.
  revert i out. induction ops as [|op rest IH]; intros i out H.
  - injection H as <-. split; [reflexivity | constructor].
  - cbn [validateOperations] in H.
    destruct (truthy (tool_name op)) eqn:Ht; [|discriminate H].
    destruct (parameters op) as [p|] eqn:Hp; [|discriminate H].
    destruct (isCodeTool (tool_name op) && truthy (file_path p)) eqn:Hc.
    + destruct (existsb _ validPaths) eqn:Hv in H; [|discriminate H].
      destruct (validateOperations (S i) rest) as [rest'|] eqn:Hr; [|discriminate H].
      injection H as <-. destruct (IH _ _ Hr) as [Hn Hf]. split.
      * cbn [map]. now rewrite Hn.
      * constructor; [|exact Hf]. intros _ _.
        unfold field, resolveParams, setPath. cbn.
        split; [now apply validPaths_In | now apply validPaths_mapped].
    + destruct (validateOperations (S i) rest) as [rest'|] eqn:Hr; [|discriminate H].
      injection H as <-. destruct (IH _ _ Hr) as [Hn Hf]. split.
      * cbn [map]. now rewrite Hn.
      * constructor; [|exact Hf]. intros Hc1 Hc2. exfalso.
        unfold field, resolveParams in Hc2. rewrite Hp in Hc2.
        rewrite Hc1, Hc2 in Hc. discriminate Hc.
Qed.

Lemma validated_operations_accepted_witness :
  validateOperations 0 [write_file "Index.HTML" "<p>x</p>"; generate_image "hero" "a knight"]
  = inl [write_file "html_code" "<p>x</p>"; generate_image "hero" "a knight"] /\
  map tool_name [write_file "html_code" "<p>x</p>"; generate_image "hero" "a knight"]
  = map tool_name [write_file "Index.HTML" "<p>x</p>"; generate_image "hero" "a knight"].
Proof.
  split; [reflexivity|].
  exact (proj1 (validated_operations_accepted 0
                  [write_file "Index.HTML" "<p>x</p>"; generate_image "hero" "a knight"]
                  [write_file "html_code" "<p>x</p>"; generate_image "hero" "a knight"]
                  eq_refl)).
Defined.

(** X3. Validating again what the orchestrator has validated changes
    nothing, whatever the index the loop starts from. *)
Theorem validateOperations_idempotent (i j : nat) (ops out : list ToolCall) :
  validateOperations i ops = inl out -> validateOperations j out = inl out.
Proof.
  revert i j out. induction ops as [|op rest IH]; intros i j out H.
  - injection H as <-. reflexivity.
  - cbn [validateOperations] in H.
    destruct (truthy (tool_name op)) eqn:Ht; [|discriminate H].
    destruct (parameters op) as [p|] eqn:Hp; [|discriminate H].
    destruct (isCodeTool (tool_name op) && truthy (file_path p)) eqn:Hc.
    + destruct (existsb _ validPaths) eqn:Hv in H; [|discriminate H].
      destruct (validateOperations (S i) rest) as [rest'|] eqn:Hr; [|discriminate H].
      injection H as <-. cbn [validateOperations setPath tool_name parameters file_path].
      rewrite Ht. apply andb_true_iff in Hc as [Hc1 Hc2]. rewrite Hc1.
      rewrite (validPaths_truthy _ Hv). cbn [andb].
      rewrite (proj2 (validPaths_mapped _ Hv)), Hv, (IH _ (S j) _ Hr).
      reflexivity.
    + destruct (validateOperations (S i) rest) as [rest'|] eqn:Hr; [|discriminate H].
      injection H as <-. cbn [validateOperations]. rewrite Ht, Hp, Hc, (IH _ (S j) _ Hr).
      reflexivity.
Qed.

Lemma validateOperations_idempotent_witness :
  validateOperations 7 [write_file "html_code" "<p>x</p>"]
  = inl [write_file "html_code" "<p>x</p>"].
Proof.
  exact (validateOperations_idempotent 0 7 [write_file "Index.HTML" "<p>x</p>"] _ eq_refl).
Defined.

(** X4. The loop stops at the first operation without a tool name or
    without parameters and names its position in the list; the operations
    after it are not looked at. *)
Theorem validateOperations_first_malformed (i : nat) (pre post out : list ToolCall)
    (op : ToolCall) :
  validateOperations i pre = inl out ->
  wellFormed op = false ->
  validateOperations i (pre ++ op :: post)%list = inr (missingField (i + List.length pre)).
Proof.
  revert i out. induction pre as [|a pre IH]; intros i out H Hop.
  - cbn [List.app List.length validateOperations]. rewrite Nat.add_0_r.
    unfold wellFormed in Hop.
    destruct (truthy (tool_name op)); [|reflexivity].
    destruct (parameters op); [discriminate Hop | reflexivity].
  - cbn [List.app List.length validateOperations] in *.
    destruct (truthy (tool_name a)); [|discriminate H].
    destruct (parameters a) as [p|]; [|discriminate H].
    replace (i + S (List.length pre)) with (S i + List.length pre) by lia.
    destruct (isCodeTool (tool_name a) && truthy (file_path p)).
    + destruct (existsb _ validPaths); [|discriminate H].
      destruct (validateOperations (S i) pre) as [pre'|] eqn:Hr; [|discriminate H].
      now rewrite (IH _ _ Hr Hop).
    + destruct (validateOperations (S i) pre) as [pre'|] eqn:Hr; [|discriminate H].
      now rewrite (IH _ _ Hr Hop).
Qed.

Lemma validateOperations_first_malformed_witness :
  validateOperations 0
    ([write_file "html" "<p>x</p>"] ++ mkToolCall None (Some noParams) None None None
       :: [write_file "nowhere.txt" "x"])%list
  = inr (missingField 1).
Proof.
  exact (validateOperations_first_malformed 0 [write_file "html" "<p>x</p>"]
           [write_file "nowhere.txt" "x"] _ (mkToolCall None (Some noParams) None None None)
           eq_refl eq_refl).
Defined.

End Contract.

(** ** Line replacements, one after the other *)

Section Replacements.
Import Js Lines Observe.

Lemma lines_ok_split (s : string) : lines_ok (split_nl s).
Proof. apply split_nl_nl_free. Qed.

Lemma lines_ok_app (a b : list string) : lines_ok (a ++ b) <-> lines_ok a /\ lines_ok b.
Proof. apply Forall_app. Qed.

(** The helper on a text whose lines are [A], then the lines [M] of the
    range, then [C]. *)
Lemma replaceLines_parts (code body fp : string) (A M C : list string) :
  split_nl code = (A ++ M ++ C)%list -> M <> [] ->
  replaceLines code (Z.of_nat (List.length A) + 1) (Z.of_nat (List.length A + List.length M))
               body fp
  = mkReplaceResult (join_nl (A ++ split_nl body ++ C)%list) None.
Proof.
  intros Hs HM.
  assert (0 < List.length M)%nat by (destruct M; [congruence | simpl; lia]).
  rewrite replaceLines_ok_lines.
  - rewrite Hs. f_equal. f_equal.
    replace (Z.to_nat (Z.of_nat (List.length A) + 1 - 1)) with (List.length A + 0)%nat by lia.
    rewrite firstn_app_2, firstn_O, app_nil_r. f_equal. f_equal.
    replace (Z.to_nat (Z.of_nat (List.length A + List.length M)))
      with (List.length A + List.length M)%nat by lia.
    rewrite skipn_app, skipn_all2 by lia.
    replace (List.length A + List.length M - List.length A)%nat
      with (List.length M + 0)%nat by lia.
    rewrite skipn_app, skipn_all2 by lia.
    replace (List.length M + 0 - List.length M)%nat with 0%nat by lia.
    reflexivity.
  - lia.
  - lia.
  - unfold lineCount. rewrite Hs, !length_app. lia.
Qed.

Lemma split_result_parts (A N C : list string) :
  lines_ok A -> lines_ok C -> N <> [] -> lines_ok N ->
  split_nl (join_nl (A ++ N ++ C)%list) = (A ++ N ++ C)%list.
Proof.
  intros HA HC HN HNok. apply split_join_nl.
  - intros E. apply app_eq_nil in E as [_ E]. apply app_eq_nil in E as [E _]. congruence.
  - apply lines_ok_app; split; [assumption|]. apply lines_ok_app; split; assumption.
Qed.

(** The lines of a text cut at a range [s..e]. *)
Lemma range_parts (ls : list string) (s e : Z) :
  (1 <= s)%Z -> (s <= e)%Z -> (e <= Z.of_nat (List.length ls))%Z ->
  let A := firstn (Z.to_nat (s - 1)) ls in
  let M := firstn (Z.to_nat (e - s + 1)) (skipn (Z.to_nat (s - 1)) ls) in
  let C := skipn (Z.to_nat e) ls in
  ls = (A ++ M ++ C)%list /\
  List.length A = Z.to_nat (s - 1) /\ List.length M = Z.to_nat (e - s + 1).
Proof.
  intros H1 H2 H3 A M C.
  assert (HA : List.length A = Z.to_nat (s - 1)) by (apply firstn_length_le; lia).
  assert (HM : List.length M = Z.to_nat (e - s + 1)).
  { apply firstn_length_le. rewrite length_skipn. lia. }
  split; [|split; assumption].
  unfold A, M, C.
  replace (Z.to_nat e) with (Z.to_nat (e - s + 1) + Z.to_nat (s - 1))%nat by lia.
  rewrite <- skipn_skipn, firstn_skipn, firstn_skipn. reflexivity.
Qed.

Lemma range_parts_ok (code : string) (s e : Z) :
  (1 <= s)%Z -> (s <= e)%Z -> (e <= Z.of_nat (lineCount code))%Z ->
  exists A M C,
    split_nl code = (A ++ M ++ C)%list /\ M <> [] /\
    lines_ok A /\ lines_ok M /\ lines_ok C /\
    s = (Z.of_nat (List.length A) + 1)%Z /\
    e = Z.of_nat (List.length A + List.length M) /\
    linesOf code s e = join_nl M /\
    C = skipn (Z.to_nat e) (split_nl code).
Proof.
  intros H1 H2 H3.
  destruct (range_parts (split_nl code) s e H1 H2 H3) as (Hs & HA & HM).
  pose proof (lines_ok_split code) as Hok. rewrite Hs in Hok.
  apply lines_ok_app in Hok as [HAok Hok]. apply lines_ok_app in Hok as [HMok HCok].
  eexists _, _, _. split; [exact Hs|].
  split; [intros E; rewrite E in HM; simpl in HM; lia|].
  repeat (split; [assumption|]).
  split; [lia|]. split; [lia|]. split; reflexivity.
Qed.

(** X5. A replacement is undone by a replacement: after an in-range
    replacement by a text of [n] lines, putting the old text of the range
    back at the lines [s] to [s + n - 1] gives the code as it was. *)
Theorem replaceLines_undo (code body fp : string) (s e : Z) :
  (1 <= s)%Z -> (s <= e)%Z -> (e <= Z.of_nat (lineCount code))%Z ->
  replaceLines (result (replaceLines code s e body fp))
               s (s + Z.of_nat (lineCount body) - 1) (linesOf code s e) fp
  = mkReplaceResult code None.
Proof.
  intros H1 H2 H3.
  destruct (range_parts_ok code s e H1 H2 H3)
    as (A & M & C & Hs & HM & HA & HMok & HC & Es & Ee & Hl & _).
  rewrite Hl. rewrite Es at 1. rewrite Ee.
  rewrite (replaceLines_parts code body fp A M C Hs HM). cbn [result].
  replace (s + Z.of_nat (lineCount body) - 1)%Z
    with (Z.of_nat (List.length A + List.length (split_nl body))) by (unfold lineCount; lia).
  rewrite Es.
  rewrite (replaceLines_parts _ (join_nl M) fp A (split_nl body) C).
  - rewrite (split_join_nl M HM HMok), <- Hs, join_split_nl. reflexivity.
  - apply split_result_parts; auto using split_nl_nonempty, lines_ok_split.
  - apply split_nl_nonempty.
Qed.

Lemma replaceLines_undo_witness :
  replaceLines
    (result (replaceLines ("a" ++ str1 nl ++ "b" ++ str1 nl ++ "c") 2 2
                          ("x" ++ str1 nl ++ "y") "js"))
    2 3 "b" "js"
  = mkReplaceResult ("a" ++ str1 nl ++ "b" ++ str1 nl ++ "c") None.
Proof.
  exact (replaceLines_undo ("a" ++ str1 nl ++ "b" ++ str1 nl ++ "c")
           ("x" ++ str1 nl ++ "y") "js" 2 2
           ltac:(lia) ltac:(lia) ltac:(vm_compute; discriminate)).
Defined.

(** X6. Replacing all the lines of a text is writing the new text, and
    replacing a range by the text it holds changes nothing. *)
Theorem replaceLines_whole_and_same (code body fp : string) (s e : Z) :
  (1 <= s)%Z -> (s <= e)%Z -> (e <= Z.of_nat (lineCount code))%Z ->
  replaceLines code 1 (Z.of_nat (lineCount code)) body fp = mkReplaceResult body None /\
  replaceLines code s e (linesOf code s e) fp = mkReplaceResult code None.
Proof.
  intros H1 H2 H3. split.
  - pose proof (replaceLines_parts code body fp [] (split_nl code) []) as H.
    rewrite app_nil_r in H. specialize (H eq_refl (split_nl_nonempty code)).
    cbn [List.length List.app Nat.add Z.of_nat Z.add] in H. unfold lineCount.
    rewrite H, app_nil_r, join_split_nl. reflexivity.
  - destruct (range_parts_ok code s e H1 H2 H3)
      as (A & M & C & Hs & HM & HA & HMok & HC & Es & Ee & Hl & _).
    rewrite Hl. rewrite Es at 1. rewrite Ee.
    rewrite (replaceLines_parts code _ fp A M C Hs HM).
    rewrite (split_join_nl M HM HMok), <- Hs, join_split_nl. reflexivity.
Qed.

Lemma replaceLines_whole_and_same_witness :
  replaceLines ("a" ++ str1 nl ++ "b") 1 (Z.of_nat (lineCount ("a" ++ str1 nl ++ "b"))) "z" "css"
  = mkReplaceResult "z" None.
Proof.
  exact (proj1 (replaceLines_whole_and_same ("a" ++ str1 nl ++ "b") "z" "css" 2 2
                  ltac:(lia) ltac:(lia) ltac:(vm_compute; discriminate))).
Defined.

(** X7. Two replacements on ranges that do not meet can be done in either
    order, when the line numbers of the later range are shifted by what the
    earlier replacement adds or removes. *)
Theorem replaceLines_disjoint_commute (code c1 c2 fp : string) (s1 e1 s2 e2 : Z) :
  (1 <= s1)%Z -> (s1 <= e1)%Z -> (e1 < s2)%Z -> (s2 <= e2)%Z ->
  (e2 <= Z.of_nat (lineCount code))%Z ->
  let d := (Z.of_nat (lineCount c1) - (e1 - s1 + 1))%Z in
  replaceLines (result (replaceLines code s1 e1 c1 fp)) (s2 + d) (e2 + d) c2 fp
  = replaceLines (result (replaceLines code s2 e2 c2 fp)) s1 e1 c1 fp.
Proof.
  intros H1 H2 H3 H4 H5 d.
  destruct (range_parts_ok code s1 e1 H1 H2 ltac:(lia))
    as (A & M1 & C1 & Hs & HM1 & HA & HM1ok & HC1 & Es1 & Ee1 & _ & EC1).
  assert (Hlen : List.length C1 = (lineCount code - Z.to_nat e1)%nat)
    by (rewrite EC1, length_skipn; reflexivity).
  destruct (range_parts C1 (s2 - e1) (e2 - e1) ltac:(lia) ltac:(lia) ltac:(lia))
    as (HC & HB & HM2).
  set (B := firstn (Z.to_nat (s2 - e1 - 1)) C1) in *.
  set (M2 := firstn (Z.to_nat (e2 - e1 - (s2 - e1) + 1)) (skipn (Z.to_nat (s2 - e1 - 1)) C1)) in *.
  set (C := skipn (Z.to_nat (e2 - e1)) C1) in *.
  assert (HM2ne : M2 <> []) by (intros E; rewrite E in HM2; simpl in HM2; lia).
  rewrite HC in HC1. apply lines_ok_app in HC1 as [HBok HC1].
  apply lines_ok_app in HC1 as [HM2ok HCok].
  rewrite HC in Hs. clear EC1 HC Hlen.
  set (N1 := split_nl c1). set (N2 := split_nl c2).
  assert (HN1 : N1 <> []) by apply split_nl_nonempty.
  assert (HN2 : N2 <> []) by apply split_nl_nonempty.
  assert (HN1ok : lines_ok N1) by apply lines_ok_split.
  assert (HN2ok : lines_ok N2) by apply lines_ok_split.
  (* the earlier range first *)
  assert (L1 : replaceLines code s1 e1 c1 fp
               = mkReplaceResult (join_nl (A ++ N1 ++ B ++ M2 ++ C)%list) None).
  { rewrite Es1 at 1. rewrite Ee1. now apply replaceLines_parts. }
  assert (L2 : split_nl (join_nl (A ++ N1 ++ B ++ M2 ++ C)%list)
               = ((A ++ N1 ++ B) ++ M2 ++ C)%list).
  { rewrite split_result_parts; auto.
    - now rewrite <- !app_assoc.
    - apply lines_ok_app; split; [assumption|]. apply lines_ok_app; split; assumption. }
  (* the later range first *)
  assert (R1 : replaceLines code s2 e2 c2 fp
               = mkReplaceResult (join_nl ((A ++ M1 ++ B) ++ N2 ++ C)%list) None).
  { replace s2 with (Z.of_nat (List.length (A ++ M1 ++ B)%list) + 1)%Z
      by (rewrite !length_app; lia).
    replace e2 with (Z.of_nat (List.length (A ++ M1 ++ B)%list + List.length M2))
      by (rewrite !length_app; lia).
    apply replaceLines_parts; [|assumption]. now rewrite Hs, <- !app_assoc. }
  assert (R2 : split_nl (join_nl ((A ++ M1 ++ B) ++ N2 ++ C)%list)
               = (A ++ M1 ++ B ++ N2 ++ C)%list).
  { rewrite <- !app_assoc. rewrite (split_result_parts A M1 (B ++ N2 ++ C)%list); auto.
    apply lines_ok_app; split; [assumption|]. apply lines_ok_app; split; assumption. }
  rewrite L1, R1. cbn [result].
  rewrite Es1 at 1. rewrite Ee1.
  rewrite (replaceLines_parts _ c1 fp A M1 (B ++ N2 ++ C)%list R2 HM1).
  replace (s2 + d)%Z with (Z.of_nat (List.length (A ++ N1 ++ B)%list) + 1)%Z
    by (unfold d, lineCount; fold N1; rewrite !length_app; lia).
  replace (e2 + d)%Z with (Z.of_nat (List.length (A ++ N1 ++ B)%list + List.length M2))
    by (unfold d, lineCount; fold N1; rewrite !length_app; lia).
  rewrite (replaceLines_parts _ c2 fp (A ++ N1 ++ B)%list M2 C L2 HM2ne).
  fold N1 N2. now rewrite <- !app_assoc.
Qed.

Lemma replaceLines_disjoint_commute_witness :
  replaceLines
    (result (replaceLines ("a" ++ str1 nl ++ "b" ++ str1 nl ++ "c") 1 1
                          ("x" ++ str1 nl ++ "y") "js"))
    4 4 "z" "js"
  = replaceLines
      (result (replaceLines ("a" ++ str1 nl ++ "b" ++ str1 nl ++ "c") 3 3 "z" "js"))
      1 1 ("x" ++ str1 nl ++ "y") "js".
Proof.
  exact (replaceLines_disjoint_commute ("a" ++ str1 nl ++ "b" ++ str1 nl ++ "c")
           ("x" ++ str1 nl ++ "y") "z" "js" 1 1 3 3
           ltac:(lia) ltac:(lia) ltac:(lia) ltac:(lia) ltac:(vm_compute; discriminate)).
Defined.

End Replacements.

(** ** The executor: what a batch can and cannot do *)

Section Batches.
Import Js Lines Model Executor Observe.

Lemma existsb_filter_false {A} (f g : A -> bool) (l : list A) :
  existsb f l = false -> existsb f (filter g l) = false.
Proof.
  induction l as [|x l IH]; [reflexivity|]. cbn [existsb filter]. intros H.
  apply orb_false_iff in H as [Hx Hl]. destruct (g x); [cbn [existsb]; rewrite Hx|]; auto.
Qed.

Lemma codeCall_goes_on (backup : option string) (tc : ToolCall) (w : Work) :
  writesExternalRef tc = false -> exists w', codeCall backup tc w = inl w'.
Proof.
  unfold writesExternalRef, codeCall, writeFile. intros H.
  destruct (isTool "write_file" tc); [|destruct (isTool "replace_lines" tc); eexists; reflexivity].
  destruct (truthy (field file_path tc)); [|eexists; reflexivity].
  destruct (truthy (field content tc)); [|eexists; reflexivity].
  cbn [negb orb andb] in *.
  destruct (mapFilePath (str (field file_path tc)) =? "html"); [|eexists; reflexivity].
  destruct (findExternalRef externalRefs (str (field content tc))); [discriminate H|].
  eexists; reflexivity.
Qed.

Lemma stage3_goes_on (backup : option string) (calls : list ToolCall) :
  existsb writesExternalRef calls = false ->
  forall w, exists w', stage3 backup calls w = inl w'.
Proof.
  induction calls as [|tc rest IH]; intros H w; [eexists; reflexivity|].
  cbn [existsb] in H. apply orb_false_iff in H as [Htc Hrest].
  destruct (codeCall_goes_on backup tc w Htc) as [w1 Hw1].
  cbn [stage3]. rewrite Hw1. now apply IH.
Qed.

Lemma mapSet_In (m : list (string * string)) (k v a b : string) :
  In (a, b) (mapSet m k v) -> In (a, b) m \/ (a = k /\ b = v).
Proof.
  induction m as [|[k' v'] m IH]; cbn [mapSet].
  - intros [[= <- <-]|[]]. now right.
  - destruct (k' =? k).
    + intros [[= <- <-]|H]; [now right | left; now right].
    + intros [H|H]; [left; now left|]. destruct (IH H) as [H'|H']; [left; now right | now right].
Qed.

(** The images of the map after the image stage are the ones it held
    and the ones the helper has generated for a call of the list. *)
Lemma stage1_images (env : Env) (calls : list ToolCall) :
  forall n w nm url,
    In (nm, url) (imageUrlMap (stage1 env calls n w)) ->
    In (nm, url) (imageUrlMap w) \/
    exists tc k, In tc calls /\ nm = str (field name tc) /\
      generateAndStoreImage env k nm (str (field prompt tc)) = inl url.
Proof.
  induction calls as [|tc rest IH]; intros n w nm url; cbn [stage1]; [now left|].
  destruct (negb (truthy (field name tc)) || negb (truthy (field prompt tc))).
  { intros H. destruct (IH _ _ _ _ H) as [H'|(tc' & k & Hin & E & G)]; [now left|].
    right. exists tc', k. repeat split; auto. now right. }
  destruct (generateAndStoreImage env n (str (field name tc)) (str (field prompt tc)))
    as [publicUrl|message] eqn:Hg; intros H;
    (destruct (IH _ _ _ _ H) as [H'|(tc' & k & Hin & E & G)];
     [|right; exists tc', k; repeat split; auto; now right]).
  - cbn [push recordImage imageUrlMap] in H'.
    destruct (mapSet_In _ _ _ _ _ H') as [H''|[-> ->]]; [now left|].
    right. exists tc, n. repeat split; auto. now left.
  - now left.
Qed.

Lemma compileAll_goes_on (env : Env) (sources : list string) :
  (forall source, In source sources -> exists r, regExp env source = inl r) ->
  exists rs, compileAll env sources = inl rs.
Proof.
  induction sources as [|source rest IH]; intros H; [eexists; reflexivity|].
  cbn [compileAll]. destruct (H source (or_introl eq_refl)) as [r ->].
  destruct IH as [rs ->]; [intros x Hx; apply H; now right|]. eexists; reflexivity.
Qed.

Lemma substImage_goes_on (env : Env) (w : Work) (entry : string * string) :
  accepted env (fst entry) (snd entry) -> exists w', substImage env w entry = inl w'.
Proof.
  unfold substImage. intros [H|H].
  - rewrite H. eexists; reflexivity.
  - destruct (literal _ _); [eexists; reflexivity|].
    destruct (compileAll_goes_on env _ H) as [rs ->]. eexists; reflexivity.
Qed.

Lemma substAll_goes_on (env : Env) (entries : list (string * string)) :
  (forall nm url, In (nm, url) entries -> accepted env nm url) ->
  forall w, exists w', substAll env entries w = inl w'.
Proof.
  induction entries as [|[nm url] rest IH]; intros H w; [eexists; reflexivity|].
  cbn [substAll].
  destruct (substImage_goes_on env w (nm, url) (H nm url (or_introl eq_refl))) as [w1 ->].
  apply IH. intros nm' url' Hin. apply H. now right.
Qed.

Lemma stage2_goes_on (env : Env) (w : Work) :
  (forall nm url, In (nm, url) (imageUrlMap w) -> accepted env nm url) ->
  exists w', stage2 env w = inl w'.
Proof.
  intros H. unfold stage2. destruct (imageUrlMap w) as [|en entries] eqn:E;
    [eexists; reflexivity|].
  destruct (substAll_goes_on env (en :: entries) H w) as [w1 ->]. eexists; reflexivity.
Qed.

(** X8. Only an external reference in a structure write, an image whose
    name makes no regular expression, or a failure of the final update,
    makes the executor fail. A batch without a structure write that one of
    the three expressions of the executor matches, and whose generated
    images have names of letters, digits, spaces, [_] and [-] and URLs
    without [$], or names whose three expressions compile, is committed
    when the update succeeds, whatever else it holds (unknown tools,
    missing parameters, ranges out of bounds, images that cannot be
    generated): one assistant turn is added to the history and the status
    is set to [coding_complete]. *)
Theorem batch_without_external_reference_commits (env : Env) (session : Session)
    (toolCalls : list ToolCall) :
  existsb writesExternalRef toolCalls = false ->
  (forall tc n url,
     In tc toolCalls -> isImageCall tc = true ->
     generateAndStoreImage env n (str (field name tc)) (str (field prompt tc)) = inl url ->
     accepted env (str (field name tc)) url) ->
  updateError env = None ->
  exists reply,
    snd (execute env session toolCalls) = Ok200 reply /\
    status (fst (execute env session toolCalls)) = "coding_complete" /\
    chat_history (fst (execute env session toolCalls))
      = (chat_history session ++ [mkChat "assistant" reply])%list.
Proof.
  intros Hx Hi Hu. unfold execute, runStages.
  destruct (stage2_goes_on env
              (stage1 env (filter isImageCall toolCalls) 0 (startWork session)))
    as [w2 H2].
  { intros nm url Hin. apply stage1_images in Hin as [[]|(tc & k & Hin & -> & G)].
    apply filter_In in Hin as [Hin Him]. exact (Hi tc k url Hin Him G). }
  rewrite H2.
  destruct (stage3_goes_on (html_code session)
              (filter (fun c => negb (isImageCall c)) toolCalls)
              (existsb_filter_false _ _ _ Hx) w2)
    as [w Hw].
  rewrite Hw, Hu. eexists. repeat split.
Qed.

(** The theorem at a batch with an unknown tool, a range out of bounds,
    an empty write, an image with a plain name and an image whose name is
    no text of an expression, with a [regExp] that compiles it. *)
Lemma batch_without_external_reference_commits_witness :
  let env := mkEnv (generateAndStoreImage Sample.env)
                   (fun _ => inl (fun _ code => code)) (summarize Sample.env) None in
  exists reply,
    snd (execute env (Sample.session None None (Some "let y = 1;"))
           [ call "delete_file" noParams; replace_lines "js_code" 7 9 "x";
             generate_image "ship" "a ship"; generate_image "a+b" "a sum";
             write_file "js_code" EmptyString ])
    = Ok200 reply.
Proof.
  intros env.
  destruct (batch_without_external_reference_commits env
              (Sample.session None None (Some "let y = 1;"))
              [ call "delete_file" noParams; replace_lines "js_code" 7 9 "x";
                generate_image "ship" "a ship"; generate_image "a+b" "a sum";
                write_file "js_code" EmptyString ]
              eq_refl) as (reply & H & _).
  - intros tc n url _ _ _. right. intros source _. eexists; reflexivity.
  - reflexivity.
  - exists reply. exact H.
Defined.

Lemma fragment_but_html (fp : string) (w w' : Work) :
  fp <> "html" -> css w' = css w -> js w' = js w -> fragment fp w' = fragment fp w.
Proof.
  intros H Hc Hj. unfold fragment. apply String.eqb_neq in H. now rewrite H, Hc, Hj.
Qed.

Lemma fragment_but_css (fp : string) (w w' : Work) :
  fp <> "css" -> html w' = html w -> js w' = js w -> fragment fp w' = fragment fp w.
Proof.
  intros H Hh Hj. unfold fragment. apply String.eqb_neq in H. now rewrite H, Hh, Hj.
Qed.

Lemma fragment_but_js (fp : string) (w w' : Work) :
  fp <> "js" -> html w' = html w -> css w' = css w -> fragment fp w' = fragment fp w.
Proof.
  intros H Hh Hc. unfold fragment. apply String.eqb_neq in H. now rewrite H, Hh, Hc.
Qed.

Lemma fragment_push (fp line : string) (w : Work) : fragment fp (push w line) = fragment fp w.
Proof. reflexivity. Qed.

Lemma keeps_refl (fp fp' : string) (w : Work) : keeps fp fp' w w.
Proof. repeat split. Qed.

Lemma keeps_push (fp fp' line : string) (w w' : Work) :
  keeps fp fp' w w' -> keeps fp fp' w (push w' line).
Proof. intros (A & B & C). repeat split; cbn [push assets imageUrlMap]; auto. Qed.

Lemma keeps_trans (fp fp' : string) (w1 w2 w3 : Work) :
  keeps fp fp' w1 w2 -> keeps fp fp' w2 w3 -> keeps fp fp' w1 w3.
Proof.
  intros (A & B & C) (A' & B' & C'). repeat split; try congruence.
  intros H. rewrite C', C; auto.
Qed.

Lemma htmlBlock_keeps (backup : option string) (fp fp' body : string) (s e : Z) (w : Work) :
  keeps fp fp' w (flowWork (htmlBlock backup fp' s e body w)).
Proof.
  unfold htmlBlock.
  destruct (fp' =? "html") eqn:E; [|apply keeps_refl].
  apply String.eqb_eq in E. subst fp'.
  destruct (html w) as [[|c code]|]; [apply keeps_refl| |apply keeps_refl].
  destruct (error (replaceLines (String c code) s e body "html"));
    [apply keeps_push, keeps_refl|].
  destruct (valid _); cbn [flowWork]; repeat split; intros H;
    apply fragment_but_html; auto.
Qed.

Lemma cssBlock_keeps (fp fp' body : string) (s e : Z) (w : Work) :
  keeps fp fp' w (flowWork (cssBlock fp' s e body w)).
Proof.
  unfold cssBlock.
  destruct (fp' =? "css") eqn:E; [|apply keeps_refl].
  apply String.eqb_eq in E. subst fp'.
  destruct (css w) as [[|c code]|]; [apply keeps_refl| |apply keeps_refl].
  destruct (error (replaceLines (String c code) s e body "css"));
    [apply keeps_push, keeps_refl|].
  cbn [flowWork]; repeat split; intros H; apply fragment_but_css; auto.
Qed.

Lemma jsBlock_keeps (fp fp' body : string) (s e : Z) (w : Work) :
  keeps fp fp' w (flowWork (jsBlock fp' s e body w)).
Proof.
  unfold jsBlock.
  destruct (fp' =? "js") eqn:E; [|apply keeps_refl].
  apply String.eqb_eq in E. subst fp'.
  destruct (js w) as [[|c code]|]; [apply keeps_refl| |apply keeps_refl].
  destruct (error (replaceLines (String c code) s e body "js"));
    [apply keeps_push, keeps_refl|].
  cbn [flowWork]; repeat split; intros H; apply fragment_but_js; auto.
Qed.

Lemma replaceLinesCall_keeps (backup : option string) (tc : ToolCall) (fp : string)
    (w : Work) :
  keeps fp (targetOf tc) w (replaceLinesCall backup tc w).
Proof.
  unfold replaceLinesCall. fold (targetOf tc).
  destruct (truthy (field file_path tc)); [|apply keeps_push, keeps_refl].
  destruct (field start_line tc) as [s|]; [|apply keeps_push, keeps_refl].
  destruct (field end_line tc) as [e|]; [|apply keeps_push, keeps_refl].
  destruct (field content tc) as [body|]; [|apply keeps_push, keeps_refl].
  pose proof (htmlBlock_keeps backup fp (targetOf tc) body s e w) as H1.
  destruct (htmlBlock backup (targetOf tc) s e body w) as [w1|w1]; cbn [flowWork] in H1;
    [exact H1|].
  pose proof (cssBlock_keeps fp (targetOf tc) body s e w1) as H2.
  destruct (cssBlock (targetOf tc) s e body w1) as [w2|w2]; cbn [flowWork] in H2;
    [exact (keeps_trans _ _ _ _ _ H1 H2)|].
  pose proof (jsBlock_keeps fp (targetOf tc) body s e w2) as H3.
  destruct (jsBlock (targetOf tc) s e body w2) as [w3|w3]; cbn [flowWork] in H3.
  - exact (keeps_trans _ _ _ _ _ H1 (keeps_trans _ _ _ _ _ H2 H3)).
  - apply keeps_push. exact (keeps_trans _ _ _ _ _ H1 (keeps_trans _ _ _ _ _ H2 H3)).
Qed.

Lemma assign_store (fp body : string) (w : Work) :
  assets (assign fp body w) = assets w /\ imageUrlMap (assign fp body w) = imageUrlMap w.
Proof.
  unfold assign. destruct (fp =? "html"), (fp =? "css"), (fp =? "js"); split; reflexivity.
Qed.

Lemma codeCall_keeps (backup : option string) (tc : ToolCall) (fp : string) (w w' : Work) :
  codeCall backup tc w = inl w' -> keeps fp (targetOf tc) w w'.
Proof.
  unfold codeCall. intros H.
  destruct (isTool "write_file" tc).
  - unfold writeFile in H.
    destruct (negb (truthy (field file_path tc)) || negb (truthy (field content tc))).
    + injection H as <-. apply keeps_push, keeps_refl.
    + fold (targetOf tc) in H.
      destruct (if targetOf tc =? "html" then _ else None); [discriminate H|].
      injection H as <-. apply keeps_push.
      destruct (assign_store (targetOf tc) (str (field content tc)) w) as [A1 A2].
      repeat split; try assumption.
      intros Hne. apply fragment_assign_other. congruence.
  - destruct (isTool "replace_lines" tc); injection H as <-.
    + apply replaceLinesCall_keeps.
    + apply keeps_push, keeps_refl.
Qed.

Lemma stage3_keeps (backup : option string) (fp : string) (calls : list ToolCall) :
  forall w w',
    stage3 backup calls w = inl w' ->
    assets w' = assets w /\ imageUrlMap w' = imageUrlMap w /\
    (Forall (fun tc => targetOf tc <> fp) calls -> fragment fp w' = fragment fp w).
Proof.
  induction calls as [|tc rest IH]; intros w w' H.
  - injection H as <-. repeat split.
  - cbn [stage3] in H. destruct (codeCall backup tc w) as [w1|] eqn:Hc; [|discriminate H].
    destruct (codeCall_keeps backup tc fp w w1 Hc) as (A & B & C).
    destruct (IH _ _ H) as (A' & B' & C').
    repeat split; try congruence.
    intros HF. inversion HF as [|? ? H1 H2]; subst. rewrite C', C; auto.
Qed.

Lemma stage1_noImage (env : Env) (calls : list ToolCall) :
  noImage env calls ->
  Forall (fun tc => isImageCall tc = true) calls ->
  forall n w,
    let w' := stage1 env calls n w in
    fragments w' = fragments w /\ assets w' = assets w /\ imageUrlMap w' = imageUrlMap w.
Proof.
  induction calls as [|tc rest IH]; intros Hno Hall n w; [repeat split|].
  inversion Hall as [|? ? Htc Hrest]; subst.
  assert (Hno' : noImage env rest) by (intros t k Hin; apply Hno; now right).
  cbn [stage1].
  destruct (negb (truthy (field name tc)) || negb (truthy (field prompt tc))).
  - exact (IH Hno' Hrest n (push w _)).
  - destruct (Hno tc n (or_introl eq_refl) Htc) as [message Hm]. rewrite Hm.
    exact (IH Hno' Hrest (S n) (push w _)).
Qed.

Lemma stage3_fragments (backup : option string) (calls : list ToolCall) (w w' : Work)
    (fp : string) :
  stage3 backup calls w = inl w' ->
  Forall (fun tc => targetOf tc <> fp) calls -> fragment fp w' = fragment fp w.
Proof. intros H. apply (stage3_keeps backup fp calls w w' H). Qed.

Lemma Forall_filter {A} (P : A -> Prop) (f : A -> bool) (l : list A) :
  Forall P l -> Forall P (filter f l).
Proof.
  induction 1 as [|x l Hx Hl IH]; [constructor|].
  cbn [filter]. destruct (f x); [constructor|]; assumption.
Qed.

Lemma Forall_filter_true {A} (f : A -> bool) (l : list A) :
  Forall (fun x => f x = true) (filter f l).
Proof.
  induction l as [|x l IH]; [constructor|].
  cbn [filter]. destruct (f x) eqn:E; [constructor|]; assumption.
Qed.

(** X9. A batch in which no image is generated changes only the fragments
    its operations name: a fragment no operation is mapped to is stored as
    it was, and so are the assets. *)
Theorem batch_keeps_other_fragments (env : Env) (session : Session)
    (toolCalls : list ToolCall) (fp : string) (w : Work) :
  noImage env toolCalls ->
  Forall (fun tc => targetOf tc <> fp) toolCalls ->
  runStages env session toolCalls = inl w ->
  fragment fp w = fragment fp (startWork session) /\ assets w = asset_urls session.
Proof.
  intros Hno Hfp H. unfold runStages in H.
  assert (Hno' : noImage env (filter isImageCall toolCalls)).
  { intros tc n Hin. apply Hno. now apply filter_In in Hin as [Hin _]. }
  destruct (stage1_noImage env _ Hno' (Forall_filter_true _ _) 0 (startWork session))
    as (F & A & M).
  set (w1 := stage1 env (filter isImageCall toolCalls) 0 (startWork session)) in *.
  rewrite (stage2_nothing env w1 M) in H.
  destruct (stage3_keeps _ fp _ _ _ H) as (A' & _ & C).
  split; [|now rewrite A', A].
  rewrite C by now apply Forall_filter.
  unfold fragments in F. unfold fragment. now injection F as -> -> ->.
Qed.

Lemma batch_keeps_other_fragments_witness :
  fragment "css"
    (mkWork (Some "<p>new</p>") (Some "p { }") None None [] ["Wrote content to html."])
  = fragment "css" (startWork (Sample.session (Some "<p>old</p>") (Some "p { }") None)).
Proof.
  refine (proj1 (batch_keeps_other_fragments Sample.env
                   (Sample.session (Some "<p>old</p>") (Some "p { }") None)
                   [write_file "index.html" "<p>new</p>"] "css" _ _ _ eq_refl)).
  - intros tc n [<-|[]] H. discriminate H.
  - repeat constructor. discriminate.
Defined.

Lemma existsb_eqb_In (url : string) (l : list string) :
  existsb (String.eqb url) l = false -> ~ In url l.
Proof.
  intros H Hin. rewrite (proj2 (existsb_exists _ _)) in H; [discriminate H|].
  exists url. split; [assumption | apply String.eqb_refl].
Qed.

Lemma stage1_assets (env : Env) (calls : list ToolCall) :
  forall n w,
  exists added,
    assetList (assets (stage1 env calls n w)) = (assetList (assets w) ++ added)%list /\
    NoDup added /\
    Forall (fun url => ~ In url (assetList (assets w))) added /\
    Forall (generated env) added /\
    List.length added <= List.length calls.
Proof.
  induction calls as [|tc rest IH]; intros n w.
  - exists []. cbn [stage1 List.length]. rewrite app_nil_r.
    repeat split; constructor.
  - cbn [stage1].
    destruct (negb (truthy (field name tc)) || negb (truthy (field prompt tc))).
    { destruct (IH n (push w "Skipped an image generation call due to missing parameters"))
        as (added & E & N & D & G & L).
      exists added. cbn [List.length]. repeat split; auto. }
    destruct (generateAndStoreImage env n (str (field name tc)) (str (field prompt tc)))
      as [url|message] eqn:Hg.
    + match goal with |- context [stage1 env rest (S n) ?w1] =>
        destruct (IH (S n) w1) as (added & E & N & D & G & L)
      end.
      cbn [push recordImage assets] in E, D.
      unfold addAsset in E, D. fold (assetList (assets w)) in E, D.
      destruct (existsb (String.eqb url) (assetList (assets w))) eqn:Hin;
        cbn [assetList] in E, D.
      * exists added. cbn [List.length]. repeat split; auto.
      * exists (url :: added). rewrite E, <- app_assoc. cbn [List.app List.length].
        assert (D' : Forall (fun u => ~ In u (assetList (assets w)) /\ u <> url) added).
        { eapply Forall_impl; [|exact D]. cbn beta. intros u Hu. split.
          - intros Hi. apply Hu, in_or_app. now left.
          - intros ->. apply Hu, in_or_app. right. now left. }
        repeat split.
        -- constructor; [|assumption]. intros Hi.
           rewrite Forall_forall in D'. now destruct (D' _ Hi).
        -- constructor; [now apply existsb_eqb_In|].
           eapply Forall_impl; [|exact D']. now intros u [Hu _].
        -- constructor; [|assumption]. now exists n, (str (field name tc)), (str (field prompt tc)).
        -- lia.
    + match goal with |- context [stage1 env rest (S n) ?w1] =>
        destruct (IH (S n) w1) as (added & E & N & D & G & L)
      end.
      exists added. cbn [List.length]. repeat split; auto.
Qed.

(** X10. The list of assets only grows: whatever the batch and however it
    ends, the stored list is the old one followed by URLs the image helper
    returned, none twice, none that the list already held, and at most one
    for each image call. *)
Theorem assets_only_grow (env : Env) (session : Session) (toolCalls : list ToolCall) :
  exists added,
    assetList (asset_urls (fst (execute env session toolCalls)))
      = (assetList (asset_urls session) ++ added)%list /\
    NoDup added /\
    Forall (fun url => ~ In url (assetList (asset_urls session))) added /\
    Forall (generated env) added /\
    List.length added <= List.length (filter isImageCall toolCalls).
Proof.
  assert (Hnone : exists added : list string,
             assetList (asset_urls session) = (assetList (asset_urls session) ++ added)%list /\
             NoDup added /\
             Forall (fun url => ~ In url (assetList (asset_urls session))) added /\
             Forall (generated env) added /\
             List.length added <= List.length (filter isImageCall toolCalls)).
  { exists []. rewrite app_nil_r. repeat split; try constructor. cbn [List.length]. lia. }
  unfold execute.
  destruct (runStages env session toolCalls) as [w|message] eqn:H; [|exact Hnone].
  destruct (updateError env); [exact Hnone|]. cbn [fst asset_urls].
  unfold runStages in H.
  destruct (stage2 env _) as [w2|] eqn:H2; [|discriminate H].
  destruct (stage3_keeps _ "html" _ _ _ H) as (A & _ & _).
  destruct (stage2_frame _ _ _ H2) as (A2 & _).
  rewrite A, A2.
  apply (stage1_assets env (filter isImageCall toolCalls) 0 (startWork session)).
Qed.

Lemma writeFile_html (backup : option string) (path body : string) (w : Work) :
  mapFilePath path = "html" ->
  truthy (Some body) = true ->
  findExternalRef externalRefs body = None ->
  codeCall backup (write_file path body) w
  = inl (push (set_html w (Some body)) "Wrote content to html.").
Proof.
  intros Hp Hb Hx. rewrite codeCall_write_file. unfold writeFile, write_file.
  rewrite !field_call. cbn [file_path content str].
  assert (Ht : truthy (Some path) = true) by (destruct path; [discriminate Hp | reflexivity]).
  rewrite Ht, Hb, Hp, Hx. reflexivity.
Qed.

(** X11. A rollback goes back to the start of the batch, not to the
    fragment as the call found it: when a write of the structure fragment
    is followed by a line replacement that fails the validation, the
    written text is lost and the stored fragment is the one from before the
    batch, while the summary still says that the content was written. *)
Theorem rollback_discards_earlier_write (env : Env) (session : Session)
    (path1 path2 written body : string) (s e : Z) :
  mapFilePath path1 = "html" -> mapFilePath path2 = "html" ->
  truthy (Some written) = true ->
  findExternalRef externalRefs written = None ->
  outOfRange (Z.of_nat (lineCount written)) s e = false ->
  valid (validateHTML (result (replaceLines written s e body "html"))) = false ->
  exists w,
    runStages env session [write_file path1 written; replace_lines path2 s e body] = inl w /\
    html w = html_code session /\
    css w = css_code session /\ js w = js_code session /\
    In "Wrote content to html." (actionsSummary w) /\
    In "Rolled back HTML to previous version due to validation failure" (actionsSummary w).
Proof.
  intros Hp1 Hp2 Hw Hx Hr Hv.
  assert (E : runStages env session [write_file path1 written; replace_lines path2 s e body]
              = stage3 (html_code session)
                  [write_file path1 written; replace_lines path2 s e body]
                  (startWork session)) by reflexivity.
  rewrite E. cbn [stage3]. rewrite (writeFile_html _ _ _ _ Hp1 Hw Hx).
  rewrite codeCall_replace_lines. eexists. split; [reflexivity|].
  destruct written as [|c code]; [discriminate Hw|].
  destruct (replaceLinesCall_rollback (html_code session) path2 body s e
              (push (set_html (startWork session) (Some (String c code)))
                    "Wrote content to html.")
              c code Hp2 eq_refl Hr Hv) as (H1 & H2 & H3 & warning & H4).
  split; [exact H1|]. split; [exact H2|]. split; [exact H3|].
  rewrite H4. cbn [push actionsSummary startWork set_html List.app].
  split; [now left | right; right; now left].
Qed.

Lemma rollback_discards_earlier_write_witness :
  exists w,
    runStages Sample.env (Sample.session (Some "<p>old</p>") None None)
      [write_file "html" "<p>new</p>"; replace_lines "html" 1 1 "<p>newer</p>"] = inl w /\
    html w = Some "<p>old</p>".
Proof.
  destruct (rollback_discards_earlier_write Sample.env
              (Sample.session (Some "<p>old</p>") None None)
              "html" "html" "<p>new</p>" "<p>newer</p>" 1 1
              eq_refl eq_refl eq_refl eq_refl eq_refl eq_refl) as (w & H & Hh & _).
  exists w. split; [exact H | exact Hh].
Defined.

Lemma stage1_ext (env env' : Env) (calls : list ToolCall) :
  (forall n a b, generateAndStoreImage env' n a b = generateAndStoreImage env n a b) ->
  forall n w, stage1 env' calls n w = stage1 env calls n w.
Proof.
  intros Hg. induction calls as [|tc rest IH]; intros n w; [reflexivity|].
  cbn [stage1]. rewrite Hg.
  destruct (negb (truthy (field name tc)) || negb (truthy (field prompt tc))); [apply IH|].
  destruct (generateAndStoreImage env n _ _); apply IH.
Qed.

Lemma substAll_ext (env env' : Env) (entries : list (string * string)) :
  regExp env' = regExp env ->
  forall w, substAll env' entries w = substAll env entries w.
Proof.
  intros Hr. induction entries as [|entry rest IH]; intros w; [reflexivity|].
  cbn [substAll].
  assert (E : substImage env' w entry = substImage env w entry).
  { unfold substImage. destruct (literal _ _); [reflexivity|].
    assert (C : forall sources, compileAll env' sources = compileAll env sources).
    { induction sources as [|source sources IHs]; [reflexivity|].
      cbn [compileAll]. now rewrite Hr, IHs. }
    now rewrite C. }
  rewrite E. destruct (substImage env w entry); [apply IH | reflexivity].
Qed.

Lemma stage2_ext (env env' : Env) (w : Work) :
  regExp env' = regExp env -> stage2 env' w = stage2 env w.
Proof. intros Hr. unfold stage2. now rewrite (substAll_ext env env' _ Hr). Qed.

Lemma chatResponseOf_nonempty (env : Env) (w : Work) :
  Executor.chatResponseOf env w <> EmptyString.
Proof.
  unfold Executor.chatResponseOf.
  destruct (summarize env (actionsSummary w)) as [[|c a]|]; discriminate.
Qed.

(** X12. The summarizer gives words only: with any other summarizer, or
    with none that answers, the same batch ends with the same answer kind,
    the same fragments, assets and status and as many turns of history,
    and the reply of a committed batch is never the empty text. *)
Theorem summarizer_gives_words_only (env : Env) (session : Session)
    (toolCalls : list ToolCall) (other : list string -> option string) :
  let env' := mkEnv (generateAndStoreImage env) (regExp env) other (updateError env) in
  let s := fst (execute env session toolCalls) in
  let s' := fst (execute env' session toolCalls) in
  html_code s' = html_code s /\ css_code s' = css_code s /\ js_code s' = js_code s /\
  asset_urls s' = asset_urls s /\ status s' = status s /\
  List.length (chat_history s') = List.length (chat_history s) /\
  (forall reply, snd (execute env session toolCalls) = Ok200 reply ->
     reply <> EmptyString /\
     exists reply', snd (execute env' session toolCalls) = Ok200 reply') /\
  (forall code message, snd (execute env session toolCalls) = Error code message ->
     snd (execute env' session toolCalls) = Error code message).
Proof.
  intros env' s s'. unfold s, s', execute.
  assert (E : runStages env' session toolCalls = runStages env session toolCalls).
  { unfold runStages. rewrite (stage1_ext env env') by reflexivity.
    now rewrite (stage2_ext env env') by reflexivity. }
  rewrite E. cbn [updateError env'].
  destruct (runStages env session toolCalls) as [w|message].
  - destruct (updateError env) as [u|]; cbn [fst snd].
    + repeat split; try discriminate. intros code message H. exact H.
    + cbn [html_code css_code js_code asset_urls status chat_history].
      rewrite !length_app. repeat split; try discriminate.
      * injection H as <-. apply chatResponseOf_nonempty.
      * eexists; reflexivity.
  - cbn [fst snd]. repeat split; try discriminate. intros code m H. exact H.
Qed.

End Batches.

(** ** One cycle: what is stored and what is answered *)

Section Cycles.
Import Js Model Executor Orchestrator Cycle Observe.

(** X13. What a cycle stores and answers follows from how far it went.
    When the orchestrator refuses the operations, the row is untouched
    (even the user's message is not stored) and the answer is the error of
    the refusal. When it accepts them, it stores the user's message and
    its interim reply with the status [orchestrating], or nothing when its
    update fails, which it does not look at, and the executor runs on that
    row: when a stage throws, or when the update of the executor fails,
    the row stays as the orchestrator left it, with the fragments and the
    assets from before the cycle, and the answer is the error with the
    status 500; when neither happens, the answer is the final reply, the
    row has the fragments and the assets of the batch, the final reply
    after the history the orchestrator left, and the status
    [coding_complete]. *)
Theorem cycle_outcomes (stored : bool) (env : Env) (session : Session)
    (userPrompt : string) (ai : Plan) :
  let after := fst (runOrchestrationCycle stored env session userPrompt ai) in
  let answer := snd (runOrchestrationCycle stored env session userPrompt ai) in
  let asked := mkChat "user" userPrompt in
  let interim := mkChat "assistant" (Orchestrator.chatResponseOf ai) in
  let planned :=
    if stored then
      mkSession (html_code session) (css_code session) (js_code session)
                (asset_urls session)
                (chat_history session ++ [asked; interim]) "orchestrating"
    else session in
  (forall message,
     validateOperations 0 (operations ai) = inr message ->
     after = session /\ answer = errorResponse message) /\
  (forall toolCalls,
     validateOperations 0 (operations ai) = inl toolCalls ->
     (forall message,
        runStages env planned toolCalls = inr message ->
        after = planned /\ answer = Error 500 message) /\
     (forall w message,
        runStages env planned toolCalls = inl w -> updateError env = Some message ->
        after = planned /\ answer = Error 500 message) /\
     (forall w,
        runStages env planned toolCalls = inl w -> updateError env = None ->
        answer = Ok200 (Executor.chatResponseOf env w) /\
        after = mkSession (html w) (css w) (js w) (assets w)
                  (chat_history planned
                   ++ [mkChat "assistant" (Executor.chatResponseOf env w)])
                  "coding_complete")).
Proof.
  cbv zeta. unfold runOrchestrationCycle, orchestrate.
  destruct (validateOperations 0 (operations ai)) as [toolCalls|message].
  - split; [discriminate|]. intros ? [= <-]. unfold execute.
    rewrite <- !app_assoc. cbn [List.app].
    set (planned := if stored then _ else session).
    destruct (runStages env planned toolCalls) as [w|message].
    + split; [discriminate|]. split.
      * intros w' message [= <-] Hu. rewrite Hu. split; reflexivity.
      * intros w' [= <-] Hu. rewrite Hu. split; reflexivity.
    + split; [intros ? [= <-]; split; reflexivity|].
      split; discriminate.
  - split; [|discriminate]. intros ? [= <-]. split; reflexivity.
Qed.

Lemma beforeDot_first (first rest : string) :
  dotFree first = true -> beforeDot (first ++ String "."%char rest) = first.
Proof.
  induction first as [|c first IH]; [reflexivity|].
  cbn [dotFree append beforeDot]. intros H. apply andb_true_iff in H as [Hc Hf].
  apply negb_true_iff in Hc. now rewrite Hc, IH.
Qed.

(** X14. The interim reply of the orchestrator holds the first sentence of
    the thought and the first two steps of the plan, and nothing of what
    follows them. *)
Theorem interim_reply_is_short (first rest step1 step2 : string) (more : list string)
    (ops : list ToolCall) :
  dotFree first = true ->
  Orchestrator.chatResponseOf
    (mkPlan (Some (first ++ String "."%char rest)) (Some (step1 :: step2 :: more)) ops)
  = "Working on it! " ++ first ++ ". Making these changes: " ++ step1 ++ ", " ++ step2 ++ ".".
Proof.
  intros H. unfold Orchestrator.chatResponseOf. cbn [thought plan firstn].
  assert (E : exists c t, first ++ String "."%char rest = String c t)
    by (destruct first; eexists _, _; reflexivity).
  destruct E as (c & t & E). rewrite E, <- E, (beforeDot_first _ _ H).
  unfold join. cbn [concat]. rewrite !append_assoc. reflexivity.
Qed.

Lemma interim_reply_is_short_witness :
  Orchestrator.chatResponseOf
    (mkPlan (Some "Add a ship. Then make it move.") (Some ["draw"; "move"; "shoot"]) [])
  = "Working on it! Add a ship. Making these changes: draw, move.".
Proof.
  exact (interim_reply_is_short "Add a ship" " Then make it move." "draw" "move" ["shoot"] []
           eq_refl).
Defined.

End Cycles.

(** ** The first version of the sandbox *)

Section OldSandbox.
Import Js Regex SandboxOld.

Lemma indexOfFrom_range (needle hay : string) :
  forall i, (0 <= i)%Z ->
    (includes needle hay = false /\ indexOfFrom needle hay i = (-1)%Z) \/
    (includes needle hay = true /\ (i <= indexOfFrom needle hay i)%Z).
Proof.
  induction hay as [|c hay IH]; intros i Hi.
  - cbn [includes indexOfFrom]. destruct (prefix needle EmptyString).
    + right. split; [reflexivity | lia].
    + left. split; reflexivity.
  - cbn [includes indexOfFrom]. destruct (prefix needle (String c hay)).
    + right. split; [reflexivity | lia].
    + cbn [orb]. destruct (IH (i + 1)%Z ltac:(lia)) as [[H1 H2]|[H1 H2]].
      * left. now split.
      * right. split; [assumption | lia].
Qed.

Lemma indexOf_absent (needle hay : string) :
  includes needle hay = false -> indexOf needle hay = (-1)%Z.
Proof.
  intros H. destruct (indexOfFrom_range needle hay 0 ltac:(lia)) as [[_ E]|[E _]];
    [exact E | congruence].
Qed.

Lemma indexOf_present (needle hay : string) :
  includes needle hay = true -> (0 <= indexOf needle hay)%Z.
Proof.
  intros H. destruct (indexOfFrom_range needle hay 0 ltac:(lia)) as [[E _]|[_ E]];
    [congruence | exact E].
Qed.

Lemma indexOf_least (needle hay : string) : (-1 <= indexOf needle hay)%Z.
Proof.
  destruct (indexOfFrom_range needle hay 0 ltac:(lia)) as [[_ E]|[_ E]];
    unfold indexOf; lia.
Qed.

(** X15. The first version of the sandbox reports every body-only
    fragment: html_code without a doctype and without an html tag, which
    is what the fragment check of the later version asks for, always gets
    the finding that the document structure is missing, first in the
    list, whenever a callback is given. *)
Theorem fragment_reported_by_first_version (htmlCode cssCode jsCode : string) :
  htmlCode <> EmptyString ->
  Sandbox.validateFragment htmlCode = [] ->
  exists others,
    snd (SandboxOld.constructedHtml htmlCode cssCode jsCode true)
    = missingStructure :: others.
Proof.
  intros Hne Hf. unfold SandboxOld.constructedHtml.
  destruct htmlCode as [|c h]; [congruence|]. cbn [snd Sandbox.report].
  unfold Sandbox.validateFragment in Hf.
  destruct (includes "<!DOCTYPE html>" (String c h)) eqn:E1; [discriminate Hf|].
  destruct (includes "<html" (String c h)) eqn:E2; [discriminate Hf|].
  unfold validateStructure. rewrite E1, E2. cbn [negb andb List.app].
  eexists. reflexivity.
Qed.

Lemma fragment_reported_by_first_version_witness :
  exists others,
    snd (SandboxOld.constructedHtml "<canvas id='game'></canvas>" EmptyString EmptyString true)
    = missingStructure :: others.
Proof.
  apply (fragment_reported_by_first_version "<canvas id='game'></canvas>" EmptyString EmptyString).
  - discriminate.
  - reflexivity.
Defined.

Lemma In_findings (x : string) (e1 e2 e3 e4 : list string) :
  In x (e1 ++ e2 ++ e3 ++ e4)%list <-> In x e1 \/ In x e2 \/ In x e3 \/ In x e4.
Proof. rewrite !in_app_iff. tauto. Qed.

Lemma not_in_first (x html : string) :
  x <> missingStructure ->
  ~ In x (if negb (includes "<!DOCTYPE html>" html) && negb (includes "<html" html)
          then [missingStructure] else []).
Proof.
  intros Hx. destruct (negb _ && negb _); [|intros []].
  intros [H|[]]. congruence.
Qed.

Lemma not_in_divs (x : string) (a b : nat) :
  prefix "STRUCTURAL: U" x = false ->
  ~ In x (if (a =? b)%nat then []
          else ["STRUCTURAL: Unclosed div tags (" ++ showNat a ++ " open, "
                ++ showNat b ++ " close)"]).
Proof.
  intros Hx. destruct (a =? b)%nat; [intros []|].
  intros [H|[]]. subst x. discriminate Hx.
Qed.

(** X16. A text that is absent stands at position -1 in the comparisons of
    the first version: for html_code without any script tag, the warning
    about a script in the head is given exactly when the text of a closing
    head tag occurs in it. *)
Theorem script_warning_without_script (html : string) :
  includes "<script>" html = false ->
  (In scriptInHead (validateStructure html) <-> includes "</head>" html = true).
Proof.
  intros Hs. unfold validateStructure. rewrite In_findings.
  rewrite (indexOf_absent _ _ Hs).
  split.
  - intros [H|[H|[H|H]]].
    + now apply not_in_first in H.
    + now apply not_in_divs in H.
    + destruct (includes "<style>" html && _); [|destruct H].
      destruct H as [H|[]]. discriminate H.
    + destruct (includes "</head>" html) eqn:E; [reflexivity|].
      rewrite (indexOf_absent _ _ E) in H. destruct H.
  - intros E. right; right; right.
    pose proof (indexOf_present _ _ E) as Hp.
    replace (-1 <? indexOf "</head>" html)%Z with true by (symmetry; apply Z.ltb_lt; lia).
    now left.
Qed.

Lemma script_warning_without_script_witness :
  In scriptInHead (validateStructure "<head><title>t</title></head><p>x</p>").
Proof.
  apply (script_warning_without_script "<head><title>t</title></head><p>x</p>");
    reflexivity.
Defined.

(** X17. Likewise for the style check: for html_code without the text of
    a body tag, as a fragment is, the finding that a style tag stands in
    the body is given exactly when a style tag occurs in it. *)
Theorem style_reported_without_body (html : string) :
  includes "<body>" html = false ->
  (In styleInBody (validateStructure html) <-> includes "<style>" html = true).
Proof.
  intros Hb. unfold validateStructure. rewrite In_findings.
  rewrite (indexOf_absent _ _ Hb).
  split.
  - intros [H|[H|[H|H]]].
    + now apply not_in_first in H.
    + now apply not_in_divs in H.
    + destruct (includes "<style>" html); [reflexivity | destruct H].
    + destruct (_ <? _)%Z; [|destruct H]. destruct H as [H|[]]. discriminate H.
  - intros E. right; right; left. rewrite E.
    pose proof (indexOf_present _ _ E) as Hp.
    replace (indexOf "<style>" html >? -1)%Z with true
      by (symmetry; rewrite Z.gtb_ltb; apply Z.ltb_lt; lia).
    now left.
Qed.

Lemma style_reported_without_body_witness :
  In styleInBody (validateStructure "<style>p { }</style><p>x</p>").
Proof.
  apply (style_reported_without_body "<style>p { }</style><p>x</p>"); reflexivity.
Defined.

End OldSandbox.

(** ** The structure summary and the line numbers of the executor *)

Section Summary.
Import Js Lines Regex Structure.

Lemma sections_notes (line : string) (n : nat) (st : Scan) :
  structure (sections line n st) = structure st \/
  exists what, structure (sections line n st) = (structure st ++ [entry n what])%list.
Proof.
  unfold sections, note.
  repeat match goal with
         | |- context [if ?b then _ else _] =>
             destruct b; [right; eexists; reflexivity|]
         end.
  now left.
Qed.

Lemma divs_notes (line : string) (n : nat) (st : Scan) :
  structure (divs line n st) = structure st \/
  exists what, structure (divs line n st) = (structure st ++ [entry n what])%list.
Proof.
  unfold divs, note.
  destruct (firstCapture (divWith "id=") line); [right; eexists; reflexivity|].
  destruct (firstCapture (divWith "class=") line); [right; eexists; reflexivity|].
  destruct ((line =? "</div>") || prefix "</div>" line);
    [right; eexists; reflexivity | now left].
Qed.

Lemma noted_step (i k n : nat) (l : list string) (what : string) :
  1 <= n <= i -> noted i k l -> noted i (S k) (l ++ [entry n what]).
Proof.
  intros Hn (entries & E & F & L). exists (entries ++ [(n, what)])%list.
  split; [|split].
  - rewrite E. unfold render. now rewrite map_app.
  - apply Forall_app. split; [assumption | now repeat constructor].
  - rewrite length_app. cbn [List.length]. lia.
Qed.

Lemma noted_weaken (i i' k k' : nat) (l : list string) :
  i <= i' -> k <= k' -> noted i k l -> noted i' k' l.
Proof.
  intros Hi Hk (entries & E & F & L). exists entries. split; [assumption|].
  split; [|lia]. eapply Forall_impl; [|exact F]. cbn beta. intros e He. lia.
Qed.

Lemma scan_noted (lines : list string) :
  forall i k st,
    noted i k (structure st) ->
    noted (i + List.length lines) (k + 2 * List.length lines) (structure (scan lines i st)).
Proof.
  induction lines as [|raw rest IH]; intros i k st H.
  - cbn [scan List.length]. now rewrite Nat.add_0_r, Nat.mul_0_r, Nat.add_0_r.
  - cbn [scan List.length].
    replace (i + S (List.length rest)) with (S i + List.length rest) by lia.
    replace (k + 2 * S (List.length rest)) with (S (S k) + 2 * List.length rest) by lia.
    apply IH.
    assert (H1 : noted (S i) (S k) (structure (sections (trim raw) (i + 1) st))).
    { destruct (sections_notes (trim raw) (i + 1) st) as [E|[what E]]; rewrite E.
      - now apply (noted_weaken i (S i) k (S k)); try lia.
      - apply noted_step; [lia|]. now apply (noted_weaken i (S i) k k); try lia. }
    destruct (divs_notes (trim raw) (i + 1) (sections (trim raw) (i + 1) st))
      as [E|[what E]]; rewrite E.
    + now apply (noted_weaken (S i) (S i) (S k) (S (S k))); try lia.
    + apply noted_step; [lia | assumption].
Qed.

(** X18. The structure summary the orchestrator gives to the model counts
    lines as the executor does: it is the header, at most two entries for
    each line, and the total, which is the line count of [replaceLines];
    and every line number in an entry is a line that [replaceLines] accepts
    on the same text. *)
Theorem summary_names_valid_lines (html : string) :
  html <> EmptyString ->
  exists entries,
    analyzeHTMLStructure html
      = join_nl (render entries ++ [total (lineCount html)])%list /\
    List.length entries <= 2 * lineCount html /\
    Forall (fun e =>
              forall body fp,
                error (replaceLines html (Z.of_nat (fst e)) (Z.of_nat (fst e)) body fp) = None)
           entries.
Proof.
  intros Hne. destruct html as [|c h]; [congruence|].
  unfold analyzeHTMLStructure, lineCount.
  destruct (scan_noted (split_nl (String c h)) 0 0
              (mkScan [header] false false false false 0)) as (entries & E & F & L).
  { exists []. repeat split; [constructor | cbn [List.length]; lia]. }
  exists entries. rewrite E. split; [reflexivity|]. split; [lia|].
  eapply Forall_impl; [|exact F]. cbn beta. intros e He body fp.
  rewrite replaceLines_ok_lines; [reflexivity | lia | lia | unfold lineCount; lia].
Qed.

Lemma summary_names_valid_lines_witness :
  exists entries,
    analyzeHTMLStructure ("<div id='game'>" ++ str1 nl ++ "</div>")
      = join_nl (render entries
                 ++ [total (lineCount ("<div id='game'>" ++ str1 nl ++ "</div>"))])%list /\
    List.length entries <= 4.
Proof.
  destruct (summary_names_valid_lines ("<div id='game'>" ++ str1 nl ++ "</div>"))
    as (entries & E & L & _).
  - discriminate.
  - exists entries. split; [exact E | exact L].
Defined.

End Summary.

(** ** The fenced block of an answer *)

Section Answers.
Import Js Regex Model Structure Fence Placeholder.

Lemma substring_prefix (a b : string) : substring 0 (length a) (a ++ b) = a.
Proof.
  induction a as [|c a IH]; cbn [length append substring].
  - destruct b; reflexivity.
  - now rewrite IH.
Qed.

Lemma substring_taken (a b : string) :
  substring 0 (length (a ++ b) - length b) (a ++ b) = a.
Proof.
  rewrite length_append. replace (length a + length b - length b) with (length a) by lia.
  apply substring_prefix.
Qed.

(** The closing fence does not start inside a text that does not hold it. *)
Lemma fence_not_inside (c : ascii) (b post : string) :
  includes fenceEnd (String c b) = false ->
  strip fenceEnd (String c b ++ fenceEnd ++ post) = None.
Proof.
  intros H. destruct (strip fenceEnd (String c b ++ fenceEnd ++ post)) as [r|] eqn:E;
    [|reflexivity].
  exfalso. apply strip_iff in E. unfold fenceEnd in *.
  destruct b as [|c2 [|c3 [|c4 b]]]; cbn [append str1] in E; unfold nl in E.
  - congruence.
  - congruence.
  - congruence.
  - injection E as -> -> -> -> _.
    assert (T : includes (str1 "010" ++ "```") (String "010" (String "`" (String "`" (String "`" b))))
                = true) by (apply includes_iff; exists EmptyString, b; reflexivity).
    unfold nl in H. congruence.
Qed.

Lemma lazyAny_first (g : string -> string) (body post : string) :
  includes fenceEnd body = false ->
  lazyAny (fun s2 => rmatch (Lit fenceEnd) None s2 (fun _ _ => Some (g s2)))
          (body ++ fenceEnd ++ post)
  = Some (g (fenceEnd ++ post)).
Proof.
  induction body as [|c b IH]; intros H.
  - cbn [append]. unfold fenceEnd at 2. cbn [append str1 lazyAny].
    rewrite rmatch_Lit.
    replace (strip fenceEnd (String nl ("```" ++ post))) with (Some post); [reflexivity|].
    symmetry. apply strip_iff. reflexivity.
  - change (String c b ++ fenceEnd ++ post) with (String c (b ++ fenceEnd ++ post)).
    cbn [lazyAny].
    change (String c (b ++ fenceEnd ++ post)) with (String c b ++ fenceEnd ++ post).
    rewrite rmatch_Lit, (fence_not_inside c b post H).
    apply IH. cbn [includes] in H. now apply orb_false_iff in H as [_ H].
Qed.

Lemma strip_app_same (w r : string) : strip w (w ++ r) = Some r.
Proof. now apply strip_iff. Qed.

(** White space, and then what [k] reads after more of it: [\s*] takes
    it all. *)
Lemma spaces_takes (k : string -> option string) (tail r : string) :
  spaces k tail = Some r ->
  forall n ws, length ws <= n -> trimStart ws = EmptyString ->
    spaces k (ws ++ tail) = Some r.
Proof.
  intros H. induction n as [|n IH]; intros ws Hn Hs.
  - destruct ws; [exact H | simpl in Hn; lia].
  - destruct ws as [|c1 s1]; [exact H|].
    cbn [trimStart] in Hs. cbn [append spaces]. simpl in Hn.
    destruct (isAsciiSpace c1); [now rewrite (IH s1 ltac:(lia) Hs)|].
    destruct s1 as [|c2 s2]; [discriminate|]. cbn [append]. simpl in Hn.
    destruct (space2 c1 c2); [now rewrite (IH s2 ltac:(lia) Hs)|].
    destruct s2 as [|c3 s3]; [discriminate|]. cbn [append]. simpl in Hn.
    destruct (space3 c1 c2 c3); [|discriminate].
    now rewrite (IH s3 ltac:(lia) Hs).
Qed.

Lemma spaces_stop (k : string -> option string) (s : string) :
  spaceAt s = None -> spaces k s = k s.
Proof.
  destruct s as [|c1 [|c2 [|c3 s3]]]; cbn [spaceAt spaces]; try reflexivity;
    destruct (isAsciiSpace c1); try discriminate; try reflexivity;
    destruct (space2 c1 c2); try discriminate; try reflexivity.
  destruct (space3 c1 c2 c3); [discriminate | reflexivity].
Qed.

Lemma trimStart_length (n : nat) :
  forall s, length s <= n -> length (trimStart s) <= length s.
Proof.
  induction n as [|n IH]; intros s Hn.
  - destruct s; [reflexivity | simpl in Hn; lia].
  - destruct s as [|c1 s1]; [reflexivity|]. cbn [trimStart]. simpl in Hn.
    destruct (isAsciiSpace c1); [specialize (IH s1 ltac:(lia)); simpl; lia|].
    destruct s1 as [|c2 s2]; [reflexivity|]. simpl in Hn.
    destruct (space2 c1 c2); [specialize (IH s2 ltac:(lia)); simpl; lia|].
    destruct s2 as [|c3 s3]; [reflexivity|]. simpl in Hn.
    destruct (space3 c1 c2 c3); [specialize (IH s3 ltac:(lia)); simpl; lia | reflexivity].
Qed.

Lemma trimStart_shorter (c : ascii) (s : string) : trimStart s <> String c s.
Proof.
  intros E. pose proof (trimStart_length (length s) s (le_n _)) as H.
  rewrite E in H. simpl in H. lia.
Qed.

Lemma space2_nl (c : ascii) : space2 c nl = false.
Proof. unfold space2. apply andb_false_r. Qed.

Lemma space3_nl (c1 c3 : ascii) : space3 c1 nl c3 = false.
Proof.
  unfold space3. cbv zeta.
  replace (nat_of_ascii nl =? 154)%nat with false by reflexivity.
  replace (nat_of_ascii nl =? 128)%nat with false by reflexivity.
  replace (nat_of_ascii nl =? 129)%nat with false by reflexivity.
  replace (nat_of_ascii nl =? 187)%nat with false by reflexivity.
  now rewrite !andb_false_r.
Qed.

Lemma space3_then_nl (c1 c2 : ascii) : space3 c1 c2 nl = false.
Proof.
  unfold space3. cbv zeta.
  replace (nat_of_ascii nl =? 128)%nat with false by reflexivity.
  replace (nat_of_ascii nl =? 159)%nat with false by reflexivity.
  replace (nat_of_ascii nl =? 191)%nat with false by reflexivity.
  replace (nat_of_ascii nl =? 168)%nat with false by reflexivity.
  replace (nat_of_ascii nl =? 169)%nat with false by reflexivity.
  replace (nat_of_ascii nl =? 175)%nat with false by reflexivity.
  replace (128 <=? nat_of_ascii nl)%nat with false by reflexivity.
  now rewrite !andb_false_r.
Qed.

(** A text that does not start with white space does not either when a
    newline follows it. *)
Lemma spaceAt_text (body rest : string) :
  body <> EmptyString -> trimStart body = body ->
  spaceAt (body ++ String nl rest) = None.
Proof.
  intros Hn Ht. destruct body as [|c1 b1]; [contradiction|].
  cbn [trimStart] in Ht. cbn [append spaceAt].
  destruct (isAsciiSpace c1); [now apply trimStart_shorter in Ht|].
  destruct b1 as [|c2 b2]; cbn [append].
  { rewrite space2_nl. destruct rest; [reflexivity|]. now rewrite space3_nl. }
  destruct (space2 c1 c2).
  { exfalso. pose proof (trimStart_length (length b2) b2 (le_n _)) as H.
    rewrite Ht in H. simpl in H. lia. }
  destruct b2 as [|c3 b3]; cbn [append]; [now rewrite space3_then_nl|].
  destruct (space3 c1 c2 c3); [|reflexivity].
  exfalso. pose proof (trimStart_length (length b3) b3 (le_n _)) as H.
  rewrite Ht in H. simpl in H. lia.
Qed.

Lemma text_not_nl (body : string) :
  body <> EmptyString -> trimStart body = body ->
  exists c b, body = String c b /\ Ascii.eqb nl c = false.
Proof.
  intros Hn Ht. destruct body as [|c b]; [contradiction|]. exists c, b.
  split; [reflexivity|]. destruct (Ascii.eqb nl c) eqn:E; [|reflexivity].
  apply Ascii.eqb_eq in E. subst c. cbn [trimStart] in Ht.
  change (isAsciiSpace nl) with true in Ht. cbv iota in Ht.
  now apply trimStart_shorter in Ht.
Qed.

(** The opening of the orchestrator gives the white space back up to the
    last newline before the text. *)
Lemma orchestratorOpening_at (ws body rest r : string)
    (K : option ascii -> string -> option string) :
  trimStart ws = EmptyString ->
  body <> EmptyString -> trimStart body = body ->
  K None (body ++ String nl rest) = Some r ->
  rmatch orchestratorOpening None
    ("```json" ++ ws ++ str1 nl ++ body ++ String nl rest) K = Some r.
Proof.
  intros Hw Hn Hb HK. unfold orchestratorOpening. cbn [Seqs rmatch].
  rewrite rmatch_Lit, strip_app_same.
  apply (spaces_takes _ _ _) with (n := length ws); [|apply le_n | exact Hw].
  cbn [str1 append spaces]. change (isAsciiSpace nl) with true. cbv iota.
  rewrite (spaces_stop _ _ (spaceAt_text body rest Hn Hb)).
  destruct (text_not_nl body Hn Hb) as (c & b & -> & Hc).
  rewrite !rmatch_Lit. cbn [append str1 strip]. rewrite Hc, Ascii.eqb_refl.
  cbn [rmatch]. exact HK.
Qed.

Lemma plannerOpening_at (body r : string) (K : option ascii -> string -> option string) :
  K None body = Some r ->
  rmatch plannerOpening None ("```json" ++ str1 nl ++ body) K = Some r.
Proof.
  intros HK. unfold plannerOpening. rewrite rmatch_Lit.
  change ("```json" ++ str1 nl ++ body) with (("```json" ++ str1 nl) ++ body).
  now rewrite strip_app_same.
Qed.

Lemma strip_not_fence (w s : string) (c : ascii) :
  notBacktick c = true -> strip (String "`"%char w) (String c s) = None.
Proof.
  unfold notBacktick. intros H. cbn [strip].
  rewrite Ascii.eqb_sym. apply negb_true_iff in H. now rewrite H.
Qed.

Lemma orchestrator_not_fence (c : ascii) (s : string) :
  notBacktick c = true -> blockAt orchestratorOpening (String c s) = None.
Proof.
  intros H. unfold blockAt, orchestratorOpening. cbn [Seqs rmatch].
  now rewrite rmatch_Lit, strip_not_fence.
Qed.

Lemma planner_not_fence (c : ascii) (s : string) :
  notBacktick c = true -> blockAt plannerOpening (String c s) = None.
Proof.
  intros H. unfold blockAt, plannerOpening.
  rewrite rmatch_Lit. cbn [append]. now rewrite strip_not_fence.
Qed.

Lemma firstBlock_skip (opening : re) (pre s : string) :
  (forall c t, notBacktick c = true -> blockAt opening (String c t) = None) ->
  allb notBacktick pre = true ->
  firstBlock opening (pre ++ s) = firstBlock opening s.
Proof.
  intros Ho. induction pre as [|c pre IH]; intros H; [reflexivity|].
  cbn [allb] in H. apply andb_true_iff in H as [Hc Hp].
  cbn [append firstBlock]. now rewrite (Ho c _ Hc), IH.
Qed.

Lemma firstBlock_here (opening : re) (s block : string) :
  blockAt opening s = Some block -> firstBlock opening s = Some block.
Proof. intros H. destruct s; cbn [firstBlock]; now rewrite H. Qed.

(** X19. A fenced answer is read back: when nothing before the fence
    holds a backtick, only white space (of any kind that [\s] takes, or
    none) stands between the language and the newline, and the text in
    the fence is not empty, does not start with white space and does not
    hold the closing fence, the orchestrator gives that text, with the
    white space at its end removed, to the parser, whatever follows the
    fence. *)
Theorem fenced_answer_is_read (pre ws body post : string) :
  allb notBacktick pre = true ->
  trimStart ws = EmptyString ->
  body <> EmptyString -> trimStart body = body ->
  includes fenceEnd body = false ->
  jsonString (pre ++ "```json" ++ ws ++ str1 nl ++ body ++ fenceEnd ++ post)
  = trimEnd body.
Proof.
  intros Hp Hw Hn Hs Hb. unfold jsonString.
  rewrite (firstBlock_skip _ _ _ orchestrator_not_fence Hp).
  rewrite (firstBlock_here _ _ body); [unfold trim; now rewrite Hs|].
  unfold blockAt.
  apply (orchestratorOpening_at ws body ("```" ++ post));
    [assumption | assumption | assumption |].
  cbv beta. change (String nl ("```" ++ post)) with (fenceEnd ++ post).
  rewrite (lazyAny_first
             (fun s2 => substring 0 (length (body ++ fenceEnd ++ post) - length s2)
                          (body ++ fenceEnd ++ post))
             body post Hb).
  now rewrite substring_taken.
Qed.

(** The theorem at an answer with a no-break space after the language
    and one before the closing fence. *)
Lemma fenced_answer_is_read_witness :
  let nbsp := String (ascii_of_nat 194) (String (ascii_of_nat 160) EmptyString) in
  jsonString ("Here is the plan:" ++ str1 nl ++ "```json " ++ nbsp ++ str1 nl
              ++ ("{}  " ++ nbsp) ++ fenceEnd ++ " done")
  = "{}".
Proof.
  intros nbsp.
  exact (fenced_answer_is_read ("Here is the plan:" ++ str1 nl) (" " ++ nbsp)
           ("{}  " ++ nbsp) " done"
           eq_refl eq_refl ltac:(discriminate) eq_refl eq_refl).
Defined.

(** X20. [initialize-game] reads a fenced game plan back as it stands:
    when nothing before the fence holds a backtick and the plan is not
    empty and does not hold the closing fence, the text given to the
    parser is the plan, whatever follows the fence. *)
Theorem game_plan_is_read (pre body post : string) (c : ascii) :
  allb notBacktick pre = true ->
  includes fenceEnd (String c body) = false ->
  gamePlanString (pre ++ "```json" ++ str1 nl ++ String c body ++ fenceEnd ++ post)
  = inl (String c body).
Proof.
  intros Hp Hb. unfold gamePlanString.
  rewrite (firstBlock_skip _ _ _ planner_not_fence Hp).
  rewrite (firstBlock_here _ _ (String c body)); [reflexivity|].
  unfold blockAt. apply plannerOpening_at.
  rewrite (lazyAny_first
             (fun s2 => substring 0 (length (String c body ++ fenceEnd ++ post) - length s2)
                          (String c body ++ fenceEnd ++ post))
             (String c body) post Hb).
  now rewrite substring_taken.
Qed.

Lemma game_plan_is_read_witness :
  gamePlanString ("Plan:" ++ str1 nl ++ "```json" ++ str1 nl ++ " {}" ++ fenceEnd ++ " bye")
  = inl " {}".
Proof.
  exact (game_plan_is_read ("Plan:" ++ str1 nl) "{}" " bye" " " eq_refl eq_refl).
Defined.

Lemma parseFailure_response (message json : string) :
  let text := parseFailure message json in
  Orchestrator.errorResponse text
  = if includes "429" text || includes "rate limit" text
    then Error 429 "Rate limit exceeded. Please wait a moment and try again."
    else Error 400 "Failed to parse AI response. The AI returned invalid JSON.".
Proof.
  intros text.
  assert (P : includes "parse" text = true)
    by (unfold text, parseFailure; apply includes_app_l; reflexivity).
  unfold Orchestrator.errorResponse.
  destruct (includes "429" _ || includes "rate limit" _); [reflexivity|].
  now rewrite P.
Qed.

(** X21. An answer that is no JSON object, or that the parser refuses,
    never reaches the operations: the row is left as it was, and the
    request is answered with status 429 and the text about the rate limit
    when the text of the error, which holds the message of the check or
    of the parser and the first 200 characters of the text that was to be
    parsed, holds [429] or [rate limit]; with status 400 and the fixed
    text about invalid JSON when it does not; never with status 500. *)
Theorem unparsable_answer_is_refused (parse : string -> Parsed + string) (stored : bool)
    (session : Session) (userPrompt responseContent message : string) :
  parseError parse responseContent = Some message ->
  let text := parseFailure message (jsonString responseContent) in
  handleAnswer parse stored session userPrompt responseContent
  = (session,
     Orchestrator.Failed
       (if includes "429" text || includes "rate limit" text
        then Error 429 "Rate limit exceeded. Please wait a moment and try again."
        else Error 400 "Failed to parse AI response. The AI returned invalid JSON.")).
Proof.
  intros H. cbv zeta. unfold parseError in H. unfold handleAnswer.
  destruct (toParse responseContent) as [json|message'] eqn:E.
  - assert (Ej : json = jsonString responseContent).
    { unfold toParse in E. destruct (prefix "{" _); [now injection E | discriminate E]. }
    destruct (parse json) as [parsed|message']; [discriminate H|].
    injection H as ->. rewrite Ej. now rewrite parseFailure_response.
  - injection H as ->. now rewrite parseFailure_response.
Qed.

(** The theorem at an answer that is no object and names the status 429,
    at an object behind a byte order mark that the parser refuses, and at
    a text that is no object. *)
Lemma unparsable_answer_is_refused_witness :
  let bom := String (ascii_of_nat 239) (String (ascii_of_nat 187)
               (String (ascii_of_nat 191) EmptyString)) in
  let refuse := fun _ : string => inr "Unexpected end of JSON input" : Parsed + string in
  handleAnswer refuse true (Sample.session None None None) "add a ship"
    "I cannot do that (error 429)."
  = (Sample.session None None None,
     Orchestrator.Failed (Error 429 "Rate limit exceeded. Please wait a moment and try again."))
  /\ handleAnswer refuse true (Sample.session None None None) "add a ship" (bom ++ "{")
     = (Sample.session None None None,
        Orchestrator.Failed
          (Error 400 "Failed to parse AI response. The AI returned invalid JSON.")).
Proof.
  intros bom refuse. split.
  - exact (unparsable_answer_is_refused refuse true (Sample.session None None None)
             "add a ship" "I cannot do that (error 429)."
             "Response does not start with a JSON object" eq_refl).
  - exact (unparsable_answer_is_refused refuse true (Sample.session None None None)
             "add a ship" (bom ++ "{") "Unexpected end of JSON input" eq_refl).
Defined.

End Answers.

(** ** The executor: writes *)

Section Writes.
Import Js Lines Model Executor Observe.

Lemma writeFile_sets (backup : option string) (path body : string) (w w' : Work) :
  validTarget path = true -> truthy (Some body) = true ->
  codeCall backup (write_file path body) w = inl w' ->
  fragment (mapFilePath path) w' = Some body.
Proof.
  intros Hv Hb H. rewrite codeCall_write_file in H.
  assert (Hp : truthy (Some path) = true) by now apply validTarget_truthy.
  unfold writeFile, write_file in H. rewrite !field_call in H.
  cbn [content file_path str] in H. rewrite Hp, Hb in H. cbn [negb orb] in H.
  destruct (if mapFilePath path =? "html" then _ else None); [discriminate H|].
  injection H as <-. rewrite fragment_push. now apply fragment_assign.
Qed.

Lemma filter_code_app (pre post : list ToolCall) (path body : string) :
  filter (fun c => negb (isImageCall c)) (pre ++ write_file path body :: post)
  = (filter (fun c => negb (isImageCall c)) pre
     ++ [write_file path body] ++ filter (fun c => negb (isImageCall c)) post)%list.
Proof. rewrite filter_app. reflexivity. Qed.

(** X22. The last write to a fragment decides it: when a batch succeeds,
    a write_file with a valid target and a content that is not empty,
    after which no operation of the batch is mapped to the same fragment,
    leaves the fragment equal to its content, whatever came before it, and
    whatever images the batch generates: placeholders in a content written
    in the batch are not replaced. *)
Theorem last_write_decides (env : Env) (session : Session) (pre post : list ToolCall)
    (path body : string) (w : Work) :
  validTarget path = true ->
  truthy (Some body) = true ->
  Forall (fun tc => targetOf tc <> mapFilePath path) post ->
  runStages env session (pre ++ write_file path body :: post) = inl w ->
  fragment (mapFilePath path) w = Some body.
Proof.
  intros Hv Hb Hpost H. unfold runStages in H.
  destruct (stage2 env _) as [w2|]; [|discriminate H].
  rewrite filter_code_app, !stage3_app in H.
  destruct (stage3 _ (filter _ pre) _) as [w3|] eqn:H3; [|discriminate H].
  cbn [List.app stage3] in H.
  destruct (codeCall (html_code session) (write_file path body) w3) as [w4|] eqn:H4;
    [|discriminate H].
  rewrite (stage3_fragments _ _ _ _ _ H (Forall_filter _ _ _ Hpost)).
  exact (writeFile_sets _ _ _ _ _ Hv Hb H4).
Qed.

Lemma last_write_decides_witness :
  fragment (mapFilePath "script.js")
    (mkWork None None (Some "img.src = 'ship.png';") (Some ["https://x/ship.png"])
            [("ship", "https://x/ship.png")]
            [ "Generated image 'ship' at https://x/ship.png";
              "Replaced 1 image placeholders in code with generated URLs.";
              "Wrote content to js."; "Wrote content to js." ])
  = Some "img.src = 'ship.png';".
Proof.
  refine (last_write_decides Sample.env (Sample.session None None (Some "old();"))
            [write_file "js" "first();"] [generate_image "ship" "a ship"]
            "script.js" "img.src = 'ship.png';" _ eq_refl eq_refl _ eq_refl).
  repeat constructor. discriminate.
Defined.

(** X23. A write to a path that is mapped to no fragment changes nothing
    and is still reported as written: the call goes on with the fragments,
    assets and images as they were and the summary line says that the
    content was written to the path. *)
Theorem write_to_unknown_path_is_lost (backup : option string) (path body : string)
    (w : Work) :
  validTarget path = false ->
  truthy (Some path) = true ->
  truthy (Some body) = true ->
  codeCall backup (write_file path body) w
  = inl (push w ("Wrote content to " ++ mapFilePath path ++ ".")).
Proof.
  intros Hv Hp Hb. rewrite codeCall_write_file.
  unfold writeFile, write_file. rewrite !field_call.
  cbn [content file_path str]. rewrite Hp, Hb. cbn [negb orb].
  unfold validTarget in Hv. apply orb_false_iff in Hv as [Hv Hj].
  apply orb_false_iff in Hv as [Hh Hc].
  rewrite Hh. unfold assign. now rewrite Hh, Hc, Hj.
Qed.

Lemma write_to_unknown_path_is_lost_witness :
  codeCall None (write_file "main.js" "start();")
           (startWork (Sample.session None None (Some "old();")))
  = inl (push (startWork (Sample.session None None (Some "old();")))
              "Wrote content to main.js.").
Proof.
  exact (write_to_unknown_path_is_lost None "main.js" "start();" _ eq_refl eq_refl eq_refl).
Defined.

End Writes.

(** ** The two versions of the executor *)

Section Versions.
Import Js Lines Model Executor.

(** X24. The first version of the executor writes without a guard: a
    write_file with one of the three paths stores its content as the
    fragment whatever the content is, the empty text and a text with
    references to external files included, and the request succeeds. *)
Theorem legacy_write_is_unconditional (env : Env) (session : Session) (path body : string) :
  In path Orchestrator.validPaths ->
  updateError env = None ->
  Legacy.column path (fst (Legacy.execute env session [write_file path body])) = Some body /\
  exists reply, snd (Legacy.execute env session [write_file path body]) = Ok200 reply.
Proof.
  intros Hp Hu. unfold Legacy.execute.
  destruct Hp as [<-|[<-|[<-|[]]]]; cbn; rewrite Hu; cbn; (split; [reflexivity|]);
    eexists; reflexivity.
Qed.

Lemma legacy_write_is_unconditional_witness :
  Legacy.column "html_code"
    (fst (Legacy.execute Sample.env (Sample.session (Some "<p>old</p>") None None)
            [write_file "html_code" EmptyString]))
  = Some EmptyString.
Proof.
  exact (proj1 (legacy_write_is_unconditional Sample.env
                  (Sample.session (Some "<p>old</p>") None None) "html_code" EmptyString
                  (or_introl eq_refl) eq_refl)).
Defined.

Lemma legacy_replaceLines_numbers (code body fp fp' : string) (s e : Z) :
  Legacy.replaceLines code (Some s) (Some e) (Some body) fp
  = inl (Lines.replaceLines code s e body fp').
Proof.
  unfold Legacy.replaceLines, Lines.replaceLines, Legacy.lt, Legacy.gt, Legacy.showNum.
  destruct ((s <? 1)%Z || (e <? 1)%Z); [reflexivity|].
  destruct ((s >? _)%Z || (e >? _)%Z); [reflexivity|].
  destruct (s >? e)%Z; reflexivity.
Qed.

Lemma same_push (w : Work) (v : Legacy.Vars) (l l' : string) :
  Legacy.same w v -> Legacy.same (push w l) (Legacy.push v l').
Proof. intros H. exact H. Qed.

Lemma same_write (backup : option string) (tc : ToolCall) (w : Work) (v : Legacy.Vars)
    (p body : string) :
  isTool "write_file" tc = true ->
  field file_path tc = Some p ->
  In p Orchestrator.validPaths ->
  field content tc = Some body -> truthy (Some body) = true ->
  writesExternalRef tc = false ->
  Legacy.same w v ->
  exists w' v',
    codeCall backup tc w = inl w' /\ Legacy.codeCall tc v = inl v' /\ Legacy.same w' v'.
Proof.
  intros Ht Hp Hin Hc Hb Hx (Sh & Sc & Sj & Sa & Sm).
  unfold codeCall, Legacy.codeCall, writeFile, Legacy.writeFile, writesExternalRef in *.
  rewrite Ht, Hp, Hc in *. cbn [str] in *. rewrite Hb in *.
  assert (Hpt : truthy (Some p) = true)
    by (destruct Hin as [<-|[<-|[<-|[]]]]; reflexivity).
  rewrite Hpt in *. cbn [negb orb andb] in *.
  destruct Hin as [<-|[<-|[<-|[]]]].
  - change (mapFilePath "html_code") with "html" in *.
    change ("html" =? "html") with true in *. cbv iota in *.
    destruct (findExternalRef externalRefs body); [discriminate Hx|].
    eexists _, _. split; [reflexivity|]. split; [reflexivity|].
    repeat split; cbn; assumption.
  - change (mapFilePath "css_code") with "css" in *.
    change ("css" =? "html") with false in *. cbv iota.
    eexists _, _. split; [reflexivity|]. split; [reflexivity|].
    repeat split; cbn; assumption.
  - change (mapFilePath "js_code") with "js" in *.
    change ("js" =? "html") with false in *. cbv iota.
    eexists _, _. split; [reflexivity|]. split; [reflexivity|].
    repeat split; cbn; assumption.
Qed.

Ltac same_done :=
  repeat split;
  cbn [Legacy.html Legacy.css Legacy.js Legacy.assets Legacy.imageUrlMap Legacy.push
       Legacy.set_css Legacy.set_js html css js assets imageUrlMap push set_css set_js];
  first [assumption | reflexivity | congruence].

Lemma same_replace (backup : option string) (tc : ToolCall) (w : Work) (v : Legacy.Vars)
    (p body : string) (s e : Z) :
  isTool "write_file" tc = false ->
  isTool "replace_lines" tc = true ->
  field file_path tc = Some p ->
  p = "css_code" \/ p = "js_code" ->
  field start_line tc = Some s -> field end_line tc = Some e ->
  field content tc = Some body ->
  Legacy.same w v ->
  exists w' v',
    codeCall backup tc w = inl w' /\ Legacy.codeCall tc v = inl v' /\ Legacy.same w' v'.
Proof.
  intros Hw Hr Hp Hin Hs He Hc (Sh & Sc & Sj & Sa & Sm).
  unfold codeCall, Legacy.codeCall, replaceLinesCall, Legacy.replaceLinesCall, Legacy.block.
  rewrite Hw, Hr, Hp, Hs, He, Hc. cbn [str].
  destruct Hin as [-> | ->].
  - change (truthy (Some "css_code")) with true. cbv iota.
    change (mapFilePath "css_code") with "css".
    unfold htmlBlock, cssBlock, jsBlock.
    change ("css" =? "html") with false. change ("css" =? "css") with true.
    change ("css" =? "js") with false.
    change (Legacy.isPath (Some "css_code") "html_code") with false.
    change (Legacy.isPath (Some "css_code") "css_code") with true.
    change (Legacy.isPath (Some "css_code") "js_code") with false.
    cbv iota. rewrite Sc.
    destruct (css w) as [[|c code]|] eqn:E; cbn [Legacy.text].
    + eexists _, _. split; [reflexivity|]. split; [reflexivity|]. same_done.
    + rewrite (legacy_replaceLines_numbers (String c code) body "css_code" "css" s e).
      destruct (error (Lines.replaceLines (String c code) s e body "css")).
      * eexists _, _. split; [reflexivity|]. split; [reflexivity|]. same_done.
      * eexists _, _. split; [reflexivity|]. split; [reflexivity|]. same_done.
    + eexists _, _. split; [reflexivity|]. split; [reflexivity|]. same_done.
  - change (truthy (Some "js_code")) with true. cbv iota.
    change (mapFilePath "js_code") with "js".
    unfold htmlBlock, cssBlock, jsBlock.
    change ("js" =? "html") with false. change ("js" =? "css") with false.
    change ("js" =? "js") with true.
    change (Legacy.isPath (Some "js_code") "html_code") with false.
    change (Legacy.isPath (Some "js_code") "css_code") with false.
    change (Legacy.isPath (Some "js_code") "js_code") with true.
    cbv iota. rewrite Sj.
    destruct (js w) as [[|c code]|] eqn:E; cbn [Legacy.text].
    + eexists _, _. split; [reflexivity|]. split; [reflexivity|]. same_done.
    + rewrite (legacy_replaceLines_numbers (String c code) body "js_code" "js" s e).
      destruct (error (Lines.replaceLines (String c code) s e body "js")).
      * eexists _, _. split; [reflexivity|]. split; [reflexivity|]. same_done.
      * eexists _, _. split; [reflexivity|]. split; [reflexivity|]. same_done.
    + eexists _, _. split; [reflexivity|]. split; [reflexivity|]. same_done.
Qed.

Lemma same_call (backup : option string) (tc : ToolCall) (w : Work) (v : Legacy.Vars) :
  Legacy.plainCall tc = true ->
  Legacy.same w v ->
  exists w' v',
    codeCall backup tc w = inl w' /\ Legacy.codeCall tc v = inl v' /\ Legacy.same w' v'.
Proof.
  unfold Legacy.plainCall. intros Hp Hs.
  destruct (isTool "write_file" tc) eqn:Hw.
  - apply andb_true_iff in Hp as [Hp Hx]. apply andb_true_iff in Hp as [Hp Hc].
    destruct (field file_path tc) as [p|] eqn:Hf; [|discriminate Hp].
    destruct (field content tc) as [body|] eqn:Hb; [|discriminate Hc].
    apply negb_true_iff in Hx.
    apply (same_write backup tc w v p body); auto using validPaths_In.
  - destruct (isTool "replace_lines" tc) eqn:Hr.
    + destruct (field file_path tc) as [p|] eqn:Hf; [|discriminate Hp].
      destruct (field start_line tc) as [s|] eqn:Hs1; [|discriminate Hp].
      destruct (field end_line tc) as [e|] eqn:He; [|discriminate Hp].
      destruct (field content tc) as [body|] eqn:Hb; [|discriminate Hp].
      apply orb_true_iff in Hp. rewrite !String.eqb_eq in Hp.
      apply (same_replace backup tc w v p body s e); auto.
    + unfold codeCall, Legacy.codeCall. rewrite Hw, Hr.
      eexists _, _. split; [reflexivity|]. split; [reflexivity|]. exact Hs.
Qed.

Lemma same_calls (backup : option string) (calls : list ToolCall) :
  forallb Legacy.plainCall calls = true ->
  forall w v,
    Legacy.same w v ->
    exists w' v',
      stage3 backup calls w = inl w' /\ Legacy.stage2 calls v = inl v' /\ Legacy.same w' v'.
Proof.
  induction calls as [|tc rest IH]; intros Hp w v Hs.
  - exists w, v. repeat split; apply Hs.
  - cbn [forallb] in Hp. apply andb_true_iff in Hp as [Htc Hrest].
    destruct (same_call backup tc w v Htc Hs) as (w1 & v1 & E1 & E2 & Hs1).
    cbn [stage3 Legacy.stage2]. rewrite E1, E2. now apply IH.
Qed.

Lemma plainCall_not_image (tc : ToolCall) :
  Legacy.plainCall tc = true -> isImageCall tc = false.
Proof.
  unfold Legacy.plainCall, isImageCall, isTool.
  destruct (tool_name tc) as [t|]; [|reflexivity].
  destruct (t =? "write_file") eqn:E1.
  - apply String.eqb_eq in E1. now subst t.
  - destruct (t =? "replace_lines") eqn:E2.
    + apply String.eqb_eq in E2. now subst t.
    + intros H. now apply negb_true_iff in H.
Qed.

Lemma plain_filters (calls : list ToolCall) :
  forallb Legacy.plainCall calls = true ->
  filter isImageCall calls = [] /\ filter (fun c => negb (isImageCall c)) calls = calls.
Proof.
  induction calls as [|tc rest IH]; intros H; [split; reflexivity|].
  cbn [forallb] in H. apply andb_true_iff in H as [Htc Hrest].
  destruct (IH Hrest) as [E1 E2]. cbn [filter].
  rewrite (plainCall_not_image tc Htc). cbn [negb]. now rewrite E1, E2.
Qed.

(** X25. The two versions of the executor agree where the later checks do
    not come into play: on a batch of writes with one of the three paths,
    a content that is not empty and no external reference, of line
    replacements in the styles or the script with all their parameters,
    and of unknown tools, both store the same fragments, assets and status
    and add one turn to the history, or both fail on the final update. *)
Theorem versions_agree_on_plain_batches (env : Env) (session : Session)
    (toolCalls : list ToolCall) :
  forallb Legacy.plainCall toolCalls = true ->
  let later := fst (execute env session toolCalls) in
  let first := fst (Legacy.execute env session toolCalls) in
  html_code first = html_code later /\ css_code first = css_code later /\
  js_code first = js_code later /\ asset_urls first = asset_urls later /\
  status first = status later /\
  List.length (chat_history first) = List.length (chat_history later).
Proof.
  intros Hp. cbv zeta. unfold execute, Legacy.execute, runStages, Legacy.runStages.
  destruct (plain_filters toolCalls Hp) as [E1 E2]. rewrite E1, E2.
  cbn [stage1 Legacy.stage1].
  change (stage2 env (startWork session)) with (inl (B := string) (startWork session)).
  cbv iota.
  destruct (same_calls (html_code session) toolCalls Hp (startWork session)
              (Legacy.startVars session)) as (w & v & Ew & Ev & Sh & Sc & Sj & Sa & Sm).
  { repeat split. }
  rewrite Ew, Ev.
  assert (Hm : Legacy.imageUrlMap v = []).
  { rewrite Sm. now destruct (stage3_keeps _ "html" _ _ _ Ew) as (_ & -> & _). }
  unfold Legacy.stage3. rewrite Hm.
  destruct (updateError env); cbn [fst].
  - repeat split.
  - cbn [html_code css_code js_code asset_urls status chat_history].
    rewrite Sh, Sc, Sj, Sa, !length_app. repeat split.
Qed.

Lemma versions_agree_on_plain_batches_witness :
  js_code (fst (Legacy.execute Sample.env (Sample.session None None (Some "a();"))
                  [write_file "js_code" "b();"; replace_lines "js_code" 1 1 "c();"]))
  = js_code (fst (execute Sample.env (Sample.session None None (Some "a();"))
                    [write_file "js_code" "b();"; replace_lines "js_code" 1 1 "c();"])).
Proof.
  destruct (versions_agree_on_plain_batches Sample.env
              (Sample.session None None (Some "a();"))
              [write_file "js_code" "b();"; replace_lines "js_code" 1 1 "c();"] eq_refl)
    as (_ & _ & H & _).
  exact H.
Defined.

End Versions.
